(** * Spruce ERP: the lead store, its server actions and its derived views

    A shallow embedding of the lead life-cycle code of the Spruce ERP front
    end: the in-memory store of [src/lib/data.ts], the server actions of
    [src/app/actions.ts], the round-robin distribution dialog, the Kanban
    priority sort and the missed-follow-up detection of the dashboard.

    Conventions of the embedding.
    - A JavaScript string is a [string]; one character stands for one UTF-16
      code unit (exact for the ASCII text the application handles).
    - A date kept as an ISO-8601 string ([createdAt], [timestamp],
      [dueDate]) is represented by the instant it denotes, in milliseconds
      since the epoch: this is what [new Date(s).getTime()] recovers, and
      every such string of the store is produced by [toISOString()].
    - Module-level mutable variables ([leads], [PlaceHolderImages], [users])
      are fields of an explicit [Store]; functions that read or write them
      live in a state-and-exception monad [M].
    - [Math.random] is a stream of draws carried by the store. *)

From stdpp Require Import gmap strings list fin_maps pretty sorting.
From Stdlib Require Import ZArith Lia Ascii.

Local Open Scope string_scope.
Local Open Scope nat_scope.
Local Open Scope list_scope.

(** ** JavaScript built-ins used by the code *)

(** The double-quote character, as it occurs inside template literals. *)
Definition dquote : string := String (Ascii.ascii_of_nat 34) EmptyString.

(** [String(n)] for a non-negative integer [n]. *)
Definition String_of_nat (n : nat) : string := pretty n.

(** [String(10000 + i)]. *)
Definition String_of_10000_plus (i : nat) : string := pretty (10000 + N.of_nat i)%N.

Fixpoint zeros (k : nat) : string :=
  match k with
  | O => ""
  | S k' => String "0"%char (zeros k')
  end.

(** [s.padStart(n, '0')]. *)
Definition padStart (n : nat) (s : string) : string :=
  zeros (n - String.length s) +:+ s.

Definition lower_ascii (c : Ascii.ascii) : Ascii.ascii :=
  let n := Ascii.nat_of_ascii c in
  if bool_decide (65 ≤ n ∧ n ≤ 90) then Ascii.ascii_of_nat (n + 32) else c.

(** [s.toLowerCase()] on ASCII text. *)
Fixpoint toLowerCase (s : string) : string :=
  match s with
  | EmptyString => EmptyString
  | String c s' => String (lower_ascii c) (toLowerCase s')
  end.

(** [Array.prototype.sort(cmp)].  The language guarantees a stable sort; for
    a consistent comparator every stable sort returns the same array, so the
    method is modelled by a stable insertion sort: an element is placed in
    front of the first element it does not compare greater than. *)
Fixpoint insertBy {A} (cmp : A → A → Z) (x : A) (l : list A) : list A :=
  match l with
  | [] => [x]
  | y :: l' => if (cmp x y <=? 0)%Z then x :: y :: l' else y :: insertBy cmp x l'
  end.

Definition sortBy {A} (cmp : A → A → Z) (l : list A) : list A :=
  foldr (insertBy cmp) [] l.

(** The comparator does not put [a] after [b]: [cmp(a, b) <= 0]. *)
Definition notAfter {A} (cmp : A → A → Z) (a b : A) : Prop := (cmp a b ≤ 0)%Z.

(** A parsed JSON value ([JSON.parse] itself is a parameter of the code that
    calls it). *)
#[local] Unset Elimination Schemes.
Inductive Json :=
  | JNull
  | JBool (b : bool)
  | JNum (z : Z)
  | JStr (s : string)
  | JArr (l : list Json)
  | JObj (fields : list (string * Json)).
#[local] Set Elimination Schemes.

(** Property access [o[k]] on a parsed object. *)
Fixpoint assoc (k : string) (fields : list (string * Json)) : option Json :=
  match fields with
  | [] => None
  | (k', v) :: rest => if decide (k' = k) then Some v else assoc k rest
  end.

(** ** Types ([src/lib/types.ts]) *)

Inductive KanbanStage := New | Contacted | Qualified | Application | Enrolled | Dropped.

Definition KANBAN_STAGES : list KanbanStage :=
  [New; Contacted; Qualified; Application; Enrolled; Dropped].

Inductive ActivityType := Call | Email | SMS | WhatsApp | WalkIn | System.
Inductive TaskType := FollowUp | Meeting | Documentation.
Inductive TaskStatus := Pending | Completed | Overdue.
Inductive Priority := High | Medium | Low.
Inductive AcademicStatus := Passed | Pursuing.
Inductive Gender := Male | Female | OtherGender.
Inductive Relation := Father | Mother | Guardian | OtherRelation.
Inductive DocumentType := Marksheet10 | Marksheet12 | PhotoID | ApplicationForm.

#[global] Instance KanbanStage_eq_dec : EqDecision KanbanStage.
Proof. solve_decision. Defined.
#[global] Instance ActivityType_eq_dec : EqDecision ActivityType.
Proof. solve_decision. Defined.
#[global] Instance TaskType_eq_dec : EqDecision TaskType.
Proof. solve_decision. Defined.
#[global] Instance TaskStatus_eq_dec : EqDecision TaskStatus.
Proof. solve_decision. Defined.
#[global] Instance Priority_eq_dec : EqDecision Priority.
Proof. solve_decision. Defined.

(** The string literal of each member of the [KanbanStage] union. *)
Definition stage_name (st : KanbanStage) : string :=
  match st with
  | New => "New" | Contacted => "Contacted" | Qualified => "Qualified"
  | Application => "Application" | Enrolled => "Enrolled" | Dropped => "Dropped"
  end.

Module Activity.
Record t := mk {
  id : string;
  type : ActivityType;
  timestamp : Z;
  outcome : string;
  notes : string;
  userId : string }.
End Activity.

Module Task.
Record t := mk {
  id : string;
  leadId : string;
  type : TaskType;
  dueDate : Z;
  status : TaskStatus;
  priority : Priority;
  notes : string;
  assignedUserId : string }.
End Task.

Module Document.
Record t := mk {
  id : string;
  type : DocumentType;
  uploadDate : string;
  url : string;
  verified : bool }.
End Document.

Module LeadContact.
Record t := mk {
  id : string;
  name : string;
  relation : Relation;
  phone : option string;
  email : option string }.
End LeadContact.

Module LeadPhoneNumber.
Record t := mk { title : string; number : string }.
End LeadPhoneNumber.

(** [phoneNumbers] is declared as a required array, but [addLeadAction]
    passes [undefined] when the form carries no phone number, so the field is
    optional at run time. *)
Module Lead.
Record t := mk {
  id : string;
  name : string;
  avatarUrl : string;
  email : string;
  stage : KanbanStage;
  source : string;
  assignedUserId : string;
  createdAt : Z;
  phoneNumbers : option (list LeadPhoneNumber.t);
  education : option string;
  college : option string;
  status : option AcademicStatus;
  courseInterest : option string;
  address : option string;
  city : option string;
  gender : option Gender;
  dob : option string;
  activities : list Activity.t;
  tasks : list Task.t;
  documents : list Document.t;
  contacts : list LeadContact.t }.
End Lead.

(** [Partial<Lead> & { id: string }].  [None] is an absent key.  For a field
    that is optional in [Lead], [Some None] is a key that is present with the
    value [undefined] (object spread copies such a key). *)
Module LeadPartial.
Record t := mk {
  id : string;
  name : option string;
  avatarUrl : option string;
  email : option string;
  stage : option KanbanStage;
  source : option string;
  assignedUserId : option string;
  createdAt : option Z;
  phoneNumbers : option (option (list LeadPhoneNumber.t));
  education : option (option string);
  college : option (option string);
  status : option (option AcademicStatus);
  courseInterest : option (option string);
  address : option (option string);
  city : option (option string);
  gender : option (option Gender);
  dob : option (option string);
  activities : option (list Activity.t);
  tasks : option (list Task.t);
  documents : option (list Document.t);
  contacts : option (list LeadContact.t) }.

(** The object literal [{ id }] with no other key. *)
Definition only (i : string) : t :=
  mk i None None None None None None None None None None None None None
     None None None None None None None.
End LeadPartial.

(** The argument of [addLead]: [Omit<Lead, 'id' | 'avatarUrl' | 'createdAt' |
    'stage' | 'assignedUserId' | 'activities' | 'tasks' | 'documents' |
    'contacts'>]. *)
Module NewLead.
Record t := mk {
  name : string;
  email : string;
  source : string;
  phoneNumbers : option (list LeadPhoneNumber.t);
  education : option string;
  college : option string;
  status : option AcademicStatus;
  courseInterest : option string;
  address : option string;
  city : option string;
  gender : option Gender;
  dob : option string }.
End NewLead.

Module User.
Record t := mk {
  id : string;
  name : string;
  email : string;
  role_id : string;
  role_name : string }.
End User.

(** [ImagePlaceholder] of [src/lib/placeholder-images.ts]. *)
Module ImagePlaceholder.
Record t := mk {
  id : string;
  description : string;
  imageUrl : string;
  imageHint : string }.
End ImagePlaceholder.

(** ** The store ([src/lib/data.ts]) *)

(** The values one iteration of the loop of [generateLeads] obtains from
    [Math.random] and [Date.now]: the picks out of the constant arrays, the
    activities (none when the 70% draw fails; type, instant, outcome and
    acting user otherwise), the follow-up task (absent when the 50% draw
    fails; due instant, priority and assignee otherwise) and the first name
    of the parent contact (absent when the 30% draw fails). *)
Module Draw.
Record t := mk {
  firstName : string;
  lastName : string;
  stage : KanbanStage;
  activities : list (ActivityType * Z * string * string);
  task : option (Z * Priority * string);
  parentFirstName : option string;
  createdAt : Z;
  source : string;
  education : string;
  college : string;
  status : AcademicStatus;
  courseInterest : string;
  assignedUserId : string;
  city : string;
  gender : Gender;
  dob : string }.
End Draw.

(** The module-level state: [leads] of [data.ts], [PlaceHolderImages],
    [users] of [users-data.ts], and the stream of future random draws. *)
Record Store := mkStore {
  leads : list Lead.t;
  PlaceHolderImages : list ImagePlaceholder.t;
  users : list User.t;
  random : nat → Draw.t }.

(** How a call ends: with a value, or with a thrown [Error(message)]. *)
Inductive Outcome (A : Type) :=
  | Return (a : A)
  | Throw (message : string).
Arguments Return {A} a.
Arguments Throw {A} message.

(** Computations over the store that may throw.  A throw keeps the writes
    made before it, as in JavaScript. *)
Definition M (A : Type) : Type := Store → Outcome A * Store.

#[global] Instance M_ret : MRet M := λ A a s, (Return a, s).
#[global] Instance M_bind : MBind M := λ A B k m s,
  match m s with
  | (Return a, s') => k a s'
  | (Throw e, s') => (Throw e, s')
  end.

Definition throw {A} (message : string) : M A := λ s, (Throw message, s).

(** [try { body } catch (e) { handler(e.message) }]. *)
Definition try_catch {A} (body : M A) (handler : string → M A) : M A := λ s,
  match body s with
  | (Return a, s') => (Return a, s')
  | (Throw e, s') => handler e s'
  end.

Definition read_leads : M (list Lead.t) := λ s, (Return (leads s), s).

Definition write_leads (ls : list Lead.t) : M unit := λ s,
  (Return (), mkStore ls (PlaceHolderImages s) (users s) (random s)).

Definition read_images : M (list ImagePlaceholder.t) :=
  λ s, (Return (PlaceHolderImages s), s).

Definition push_images (imgs : list ImagePlaceholder.t) : M unit := λ s,
  (Return (), mkStore (leads s) (PlaceHolderImages s ++ imgs) (users s) (random s)).

Definition read_users : M (list User.t) := λ s, (Return (users s), s).

(** Takes the next [count] draws off the random stream. *)
Definition take_draws (count : nat) : M (list Draw.t) := λ s,
  (Return (random s <$> seq 0 count),
   mkStore (leads s) (PlaceHolderImages s) (users s) (λ i, random s (i + count))).

Definition avatarImage (avatarId : string) : ImagePlaceholder.t :=
  ImagePlaceholder.mk avatarId ("User avatar " +:+ avatarId)
    ("https://picsum.photos/seed/" +:+ avatarId +:+ "/40/40") "person avatar".

(** The lead built by iteration [i] (from 1) of the loop of [generateLeads]. *)
Definition generatedLead (i : nat) (d : Draw.t) : Lead.t :=
  let name := Draw.firstName d +:+ " " +:+ Draw.lastName d in
  let activities :=
    sortBy (λ a b, Activity.timestamp b - Activity.timestamp a)%Z
      (imap (λ j '(ty, ts, outcome, userId),
               Activity.mk ("ACT-" +:+ String_of_nat i +:+ "-" +:+ String_of_nat j)
                 ty ts outcome "This is a sample note for the activity." userId)
            (Draw.activities d)) in
  let tasks :=
    match Draw.stage d, Draw.task d with
    | Enrolled, _ | Dropped, _ | _, None => []
    | _, Some (due, prio, assignee) =>
        [Task.mk ("TSK-" +:+ String_of_nat i) (padStart 3 (String_of_nat i)) FollowUp
           due Pending prio ("Follow up with " +:+ name) assignee]
    end in
  let contacts :=
    match Draw.parentFirstName d with
    | None => []
    | Some parentFirstName =>
        [LeadContact.mk ("CONTACT-" +:+ String_of_nat i +:+ "-1")
           (parentFirstName +:+ " " +:+ Draw.lastName d) Father
           (Some ("998877" +:+ padStart 5 (String_of_10000_plus i)))
           (Some (toLowerCase parentFirstName +:+ "." +:+ toLowerCase (Draw.lastName d)
                    +:+ "@example.com"))]
    end in
  {| Lead.id := padStart 3 (String_of_nat i);
     Lead.name := name;
     Lead.email := toLowerCase (Draw.firstName d) +:+ "." +:+ toLowerCase (Draw.lastName d)
                     +:+ String_of_nat i +:+ "@example.com";
     Lead.avatarUrl := String_of_nat i;
     Lead.stage := Draw.stage d;
     Lead.createdAt := Draw.createdAt d;
     Lead.source := Draw.source d;
     Lead.phoneNumbers :=
       Some [LeadPhoneNumber.mk "Mobile" ("98765" +:+ padStart 5 (String_of_10000_plus i))];
     Lead.education := Some (Draw.education d);
     Lead.college := Some (Draw.college d);
     Lead.status := Some (Draw.status d);
     Lead.courseInterest := Some (Draw.courseInterest d);
     Lead.assignedUserId := Draw.assignedUserId d;
     Lead.address := None;
     Lead.city := Some (Draw.city d);
     Lead.gender := Some (Draw.gender d);
     Lead.dob := Some (Draw.dob d);
     Lead.activities := activities;
     Lead.tasks := tasks;
     Lead.documents := [];
     Lead.contacts := contacts |}.

(** [generateLeads(count)]: returns the cached list when it is non-empty and
    has [count] elements; otherwise replaces [leads] by [count] fresh leads
    with ids ["001"], ["002"], ... and adds the missing avatar images. *)
Definition generateLeads (count : nat) : M (list Lead.t) :=
  cached ← read_leads;
  if bool_decide (0 < length cached ∧ length cached = count) then mret cached
  else
    draws ← take_draws count;
    let newLeads := imap (λ k d, generatedLead (S k) d) draws in
    _ ← write_leads newLeads;
    images ← read_images;
    let existingIds := ImagePlaceholder.id <$> images in
    _ ← push_images
          (avatarImage <$>
             filter (λ avatarId : string, avatarId ∉ existingIds) (String_of_nat <$> seq 1 count));
    read_leads.

(** [getLeads()]: generates 100 leads whenever [leads] is empty. *)
Definition getLeads : M (list Lead.t) :=
  current ← read_leads;
  _ ← (if bool_decide (length current = 0) then generateLeads 100 else mret current);
  read_leads.

(** [addLead(lead)].  The two readings of the clock made by one call are the
    same instant [now]. *)
Definition addLead (now : Z) (lead : NewLead.t) : M Lead.t :=
  currentLeads ← getLeads;
  let newId := padStart 3 (String_of_nat (length currentLeads + 1)) in
  let avatarId := String_of_nat (length currentLeads + 1) in
  let creationActivity :=
    {| Activity.id := "ACT-" +:+ newId +:+ "-0";
       Activity.type := System;
       Activity.timestamp := now;
       Activity.outcome := "Lead Created";
       Activity.notes := "Lead was created in the system via " +:+ NewLead.source lead +:+ ".";
       Activity.userId := "user-1" |} in
  let newLead :=
    {| Lead.id := newId;
       Lead.name := NewLead.name lead;
       Lead.email := NewLead.email lead;
       Lead.source := NewLead.source lead;
       Lead.phoneNumbers := NewLead.phoneNumbers lead;
       Lead.education := NewLead.education lead;
       Lead.college := NewLead.college lead;
       Lead.status := NewLead.status lead;
       Lead.courseInterest := NewLead.courseInterest lead;
       Lead.address := NewLead.address lead;
       Lead.city := NewLead.city lead;
       Lead.gender := NewLead.gender lead;
       Lead.dob := NewLead.dob lead;
       Lead.stage := New;
       Lead.avatarUrl := avatarId;
       Lead.createdAt := now;
       Lead.assignedUserId := "user-1";
       Lead.activities := [creationActivity];
       Lead.tasks := [];
       Lead.documents := [];
       Lead.contacts := [] |} in
  ls ← read_leads;
  _ ← write_leads (newLead :: ls);
  _ ← push_images [avatarImage avatarId];
  mret newLead.

(** The object spread [{ ...originalLead, ...updatedLead }]: every key of
    the partial overrides the key of the original. *)
Definition spread (originalLead : Lead.t) (updatedLead : LeadPartial.t) : Lead.t :=
  {| Lead.id := LeadPartial.id updatedLead;
     Lead.name := default (Lead.name originalLead) (LeadPartial.name updatedLead);
     Lead.avatarUrl := default (Lead.avatarUrl originalLead) (LeadPartial.avatarUrl updatedLead);
     Lead.email := default (Lead.email originalLead) (LeadPartial.email updatedLead);
     Lead.stage := default (Lead.stage originalLead) (LeadPartial.stage updatedLead);
     Lead.source := default (Lead.source originalLead) (LeadPartial.source updatedLead);
     Lead.assignedUserId :=
       default (Lead.assignedUserId originalLead) (LeadPartial.assignedUserId updatedLead);
     Lead.createdAt := default (Lead.createdAt originalLead) (LeadPartial.createdAt updatedLead);
     Lead.phoneNumbers :=
       default (Lead.phoneNumbers originalLead) (LeadPartial.phoneNumbers updatedLead);
     Lead.education := default (Lead.education originalLead) (LeadPartial.education updatedLead);
     Lead.college := default (Lead.college originalLead) (LeadPartial.college updatedLead);
     Lead.status := default (Lead.status originalLead) (LeadPartial.status updatedLead);
     Lead.courseInterest :=
       default (Lead.courseInterest originalLead) (LeadPartial.courseInterest updatedLead);
     Lead.address := default (Lead.address originalLead) (LeadPartial.address updatedLead);
     Lead.city := default (Lead.city originalLead) (LeadPartial.city updatedLead);
     Lead.gender := default (Lead.gender originalLead) (LeadPartial.gender updatedLead);
     Lead.dob := default (Lead.dob originalLead) (LeadPartial.dob updatedLead);
     Lead.activities :=
       default (Lead.activities originalLead) (LeadPartial.activities updatedLead);
     Lead.tasks := default (Lead.tasks originalLead) (LeadPartial.tasks updatedLead);
     Lead.documents := default (Lead.documents originalLead) (LeadPartial.documents updatedLead);
     Lead.contacts := default (Lead.contacts originalLead) (LeadPartial.contacts updatedLead) |}.

(** [updateLead(updatedLead)]: [null] (here [None]) when no lead has the id;
    otherwise the first lead with the id is replaced by the merged object,
    which is returned. *)
Definition updateLead (updatedLead : LeadPartial.t) : M (option Lead.t) :=
  ls ← getLeads;
  match list_find (λ lead, Lead.id lead = LeadPartial.id updatedLead) ls with
  | None => mret None
  | Some (leadIndex, originalLead) =>
      let merged := spread originalLead updatedLead in
      _ ← write_leads (<[leadIndex := merged]> ls);
      mret (Some merged)
  end.

(** The second argument of [bulkUpdateLeads]. *)
Module Updates.
Record t := mk {
  stage : option KanbanStage;
  assignedUserId : option string;
  assignedUserIds : option (list (string * string)) }.
End Updates.

(** [new Map(entries)]: a later entry replaces an earlier one with its key. *)
Definition Map_of_entries (entries : list (string * string)) : gmap string string :=
  foldl (λ m e, <[e.1 := e.2]> m) ∅ entries.

Definition set_assignedUserId (v : string) (lead : Lead.t) : Lead.t :=
  {| Lead.id := Lead.id lead; Lead.name := Lead.name lead;
     Lead.avatarUrl := Lead.avatarUrl lead; Lead.email := Lead.email lead;
     Lead.stage := Lead.stage lead; Lead.source := Lead.source lead;
     Lead.assignedUserId := v;
     Lead.createdAt := Lead.createdAt lead; Lead.phoneNumbers := Lead.phoneNumbers lead;
     Lead.education := Lead.education lead; Lead.college := Lead.college lead;
     Lead.status := Lead.status lead; Lead.courseInterest := Lead.courseInterest lead;
     Lead.address := Lead.address lead; Lead.city := Lead.city lead;
     Lead.gender := Lead.gender lead; Lead.dob := Lead.dob lead;
     Lead.activities := Lead.activities lead; Lead.tasks := Lead.tasks lead;
     Lead.documents := Lead.documents lead; Lead.contacts := Lead.contacts lead |}.

Definition set_stage (v : KanbanStage) (lead : Lead.t) : Lead.t :=
  {| Lead.id := Lead.id lead; Lead.name := Lead.name lead;
     Lead.avatarUrl := Lead.avatarUrl lead; Lead.email := Lead.email lead;
     Lead.stage := v; Lead.source := Lead.source lead;
     Lead.assignedUserId := Lead.assignedUserId lead;
     Lead.createdAt := Lead.createdAt lead; Lead.phoneNumbers := Lead.phoneNumbers lead;
     Lead.education := Lead.education lead; Lead.college := Lead.college lead;
     Lead.status := Lead.status lead; Lead.courseInterest := Lead.courseInterest lead;
     Lead.address := Lead.address lead; Lead.city := Lead.city lead;
     Lead.gender := Lead.gender lead; Lead.dob := Lead.dob lead;
     Lead.activities := Lead.activities lead; Lead.tasks := Lead.tasks lead;
     Lead.documents := Lead.documents lead; Lead.contacts := Lead.contacts lead |}.

Definition set_activities (v : list Activity.t) (lead : Lead.t) : Lead.t :=
  {| Lead.id := Lead.id lead; Lead.name := Lead.name lead;
     Lead.avatarUrl := Lead.avatarUrl lead; Lead.email := Lead.email lead;
     Lead.stage := Lead.stage lead; Lead.source := Lead.source lead;
     Lead.assignedUserId := Lead.assignedUserId lead;
     Lead.createdAt := Lead.createdAt lead; Lead.phoneNumbers := Lead.phoneNumbers lead;
     Lead.education := Lead.education lead; Lead.college := Lead.college lead;
     Lead.status := Lead.status lead; Lead.courseInterest := Lead.courseInterest lead;
     Lead.address := Lead.address lead; Lead.city := Lead.city lead;
     Lead.gender := Lead.gender lead; Lead.dob := Lead.dob lead;
     Lead.activities := v; Lead.tasks := Lead.tasks lead;
     Lead.documents := Lead.documents lead; Lead.contacts := Lead.contacts lead |}.

(** The object [singleUpdate] built by [bulkUpdateLeads]: a key is set when
    the corresponding update is truthy. *)
Definition singleUpdate (updates : Updates.t) : option KanbanStage * option string :=
  (Updates.stage updates,
   match Updates.assignedUserId updates with
   | Some u => if decide (u = "") then None else Some u
   | None => None
   end).

(** [Object.assign(lead, singleUpdate)]. *)
Definition assign (su : option KanbanStage * option string) (lead : Lead.t) : Lead.t :=
  let lead1 := match su.1 with Some st => set_stage st lead | None => lead end in
  match su.2 with Some u => set_assignedUserId u lead1 | None => lead1 end.

(** [bulkUpdateLeads(leadIds, updates)].  It works on the variable [leads]
    itself, not on [getLeads()]. *)
Definition bulkUpdateLeads (leadIds : list string) (updates : Updates.t) : M unit :=
  ls ← read_leads;
  match Updates.assignedUserIds updates with
  | Some items =>
      let assignmentMap := Map_of_entries items in
      write_leads
        ((λ lead, match assignmentMap !! Lead.id lead with
                  | Some u => set_assignedUserId u lead
                  | None => lead
                  end) <$> ls)
  | None =>
      let su := singleUpdate updates in
      if bool_decide (su = (None, None)) then mret ()
      else write_leads
             ((λ lead, if bool_decide (Lead.id lead ∈ leadIds) then assign su lead else lead)
                <$> ls)
  end.

(** [bulkDeleteLeads(leadIds, {})]. *)
Definition bulkDeleteLeads (leadIds : list string) : M unit :=
  ls ← read_leads;
  write_leads (filter (λ lead, Lead.id lead ∉ leadIds) ls).

(** The lookup [getLeads().find(l => l.id === leadId)] with which
    [addActivity] and [addTask] read a lead. *)
Definition findLead (leadId : string) : M (option Lead.t) :=
  ls ← getLeads;
  mret (snd <$> list_find (λ l, Lead.id l = leadId) ls).

(** The fields [addActivity] receives: [Omit<Activity, 'id' | 'timestamp'>]. *)
Module ActivityData.
Record t := mk {
  type : ActivityType;
  outcome : string;
  notes : string;
  userId : string }.
End ActivityData.

(** [addActivity(leadId, activityData)] at the instant [now]. *)
Definition addActivity (now : Z) (leadId : string) (activityData : ActivityData.t)
    : M Activity.t :=
  ls ← getLeads;
  match list_find (λ l, Lead.id l = leadId) ls with
  | None => throw "Lead not found"
  | Some (i, lead) =>
      let newActivity :=
        Activity.mk ("ACT-" +:+ pretty now) (ActivityData.type activityData) now
          (ActivityData.outcome activityData) (ActivityData.notes activityData)
          (ActivityData.userId activityData) in
      _ ← write_leads (<[i := set_activities (newActivity :: Lead.activities lead) lead]> ls);
      mret newActivity
  end.

(** ** Form data and schema validation

    [FormData] and the [zod] schema combinators are library code; they are
    modelled to the extent the actions use them.  An absent form key reads
    as [null]; [z.string()] and [z.enum()] reject every non-string input,
    [null] included, and abort the enclosing object, in which case the
    object-level refinements do not run; [.optional()] accepts [undefined]
    only; length, e-mail and [refine] failures are recorded without
    aborting. *)

(** A [FormData] whose entries are strings, in insertion order. *)
Definition FormData : Type := list (string * string).

(** [formData.get(key)]: the first value of the key, [None] for [null]. *)
Definition FormData_get (key : string) (formData : FormData) : option string :=
  snd <$> head (filter (λ e, e.1 = key) formData).

(** [formData.getAll(key)]. *)
Definition FormData_getAll (key : string) (formData : FormData) : list string :=
  snd <$> filter (λ e, e.1 = key) formData.

(** A value handed to a schema. *)
Inductive Raw :=
  | RNull
  | RUndefined
  | RString (s : string).

(** [formData.get(key)] as a raw value. *)
Definition raw_get (key : string) (formData : FormData) : Raw :=
  match FormData_get key formData with
  | Some s => RString s
  | None => RNull
  end.

(** [formData.get(key) || undefined]. *)
Definition raw_get_or_undefined (key : string) (formData : FormData) : Raw :=
  match FormData_get key formData with
  | Some s => if decide (s = "") then RUndefined else RString s
  | None => RUndefined
  end.

(** A validation issue: the first segment of its path and its message. *)
Record Issue := mkIssue { path : string; message : string }.

(** The result of a schema on a value: the parsed output, [None] when the
    parse aborted, and the issues raised. *)
Definition Parse (A : Type) : Type := option A * list Issue.

Definition z_string (field : string) (raw : Raw) : Parse string :=
  match raw with
  | RString s => (Some s, [])
  | RNull => (None, [mkIssue field "Expected string, received null"])
  | RUndefined => (None, [mkIssue field "Required"])
  end.

(** [z.string().min(n, { message })]. *)
Definition z_string_min (n : nat) (msg : string) (field : string) (raw : Raw) : Parse string :=
  match z_string field raw with
  | (Some s, _) => (Some s, if bool_decide (String.length s < n) then [mkIssue field msg] else [])
  | aborted => aborted
  end.

(** [z.string().email({ message })]; [isEmail] is the library's pattern. *)
Definition z_string_email (isEmail : string → bool) (msg : string) (field : string) (raw : Raw)
    : Parse string :=
  match z_string field raw with
  | (Some s, _) => (Some s, if isEmail s then [] else [mkIssue field msg])
  | aborted => aborted
  end.

(** [.optional()]. *)
Definition z_optional {A} (inner : Raw → Parse A) (raw : Raw) : Parse (option A) :=
  match raw with
  | RUndefined => (Some None, [])
  | _ => let '(out, issues) := inner raw in (Some <$> out, issues)
  end.

Fixpoint joinValues (names : list string) : string :=
  match names with
  | [] => ""
  | [a] => "'" +:+ a +:+ "'"
  | a :: rest => "'" +:+ a +:+ "' | " +:+ joinValues rest
  end.

(** [z.enum([...])] over the (literal, member) pairs of the union. *)
Definition z_enum {A} (members : list (string * A)) (field : string) (raw : Raw) : Parse A :=
  let expected := joinValues (fst <$> members) in
  match raw with
  | RString s =>
      match snd <$> head (filter (λ m, m.1 = s) members) with
      | Some v => (Some v, [])
      | None => (None, [mkIssue field ("Invalid enum value. Expected " +:+ expected
                                         +:+ ", received '" +:+ s +:+ "'")])
      end
  | RNull => (None, [mkIssue field ("Expected " +:+ expected +:+ ", received null")])
  | RUndefined => (None, [mkIssue field "Required"])
  end.

Definition is_digit (c : ascii) : bool :=
  bool_decide (48 ≤ nat_of_ascii c ∧ nat_of_ascii c ≤ 57).

(** [phoneRegex.test(s)] for [/^\+?[1-9]\d{9,14}$/]. *)
Definition phoneRegex_test (s : string) : bool :=
  let cs := String.list_ascii_of_string s in
  let body :=
    match cs with
    | c :: rest => if bool_decide (nat_of_ascii c = 43) then rest else cs
    | [] => []
    end in
  match body with
  | d :: ds =>
      bool_decide (49 ≤ nat_of_ascii d ∧ nat_of_ascii d ≤ 57)
      && forallb is_digit ds
      && bool_decide (9 ≤ length ds ∧ length ds ≤ 14)
  | [] => false
  end.

(** The schema of the [phoneNumbers] array; its entries are strings by
    construction, so it never aborts. *)
Definition z_phoneNumbers (phones : option (list LeadPhoneNumber.t))
    : Parse (option (list LeadPhoneNumber.t)) :=
  (Some phones,
   p ← default [] phones;
   (if bool_decide (String.length (LeadPhoneNumber.title p) < 1)
    then [mkIssue "phoneNumbers" "Title is required"] else [])
   ++ (if phoneRegex_test (LeadPhoneNumber.number p) then []
       else [mkIssue "phoneNumbers" "Please enter a valid phone number."])).

(** The array built from the [phoneTitles] and [phoneNumbers] entries of a
    form, without the entries whose number is missing or empty;
    [undefined] when nothing is left. *)
Definition form_phoneNumbers (formData : FormData) : option (list LeadPhoneNumber.t) :=
  let phoneTitles := FormData_getAll "phoneTitles" formData in
  let phoneNumbersData := FormData_getAll "phoneNumbers" formData in
  let phoneNumbers :=
    omap (λ p, p)
      (imap (λ index title,
               match phoneNumbersData !! index with
               | Some number =>
                   if decide (number = "") then None
                   else Some (LeadPhoneNumber.mk title number)
               | None => None
               end) phoneTitles) in
  if bool_decide (0 < length phoneNumbers) then Some phoneNumbers else None.

(** [error.flatten().fieldErrors]: the messages of each field, in order. *)
Definition fieldErrors (issues : list Issue) : gmap string (list string) :=
  foldl (λ m i, <[path i := default [] (m !! path i) ++ [message i]]> m) ∅ issues.

Definition academicStatuses : list (string * AcademicStatus) :=
  [("Passed", Passed); ("Pursuing", Pursuing)].

Definition genders : list (string * Gender) :=
  [("Male", Male); ("Female", Female); ("Other", OtherGender)].

(** The output type of [addLeadFormSchema]. *)
Module AddLeadData.
Record t := mk {
  name : string;
  email : string;
  phoneNumbers : option (list LeadPhoneNumber.t);
  source : string;
  socialMediaSource : option string;
  otherSource : option string;
  referralSource : option string;
  education : option string;
  college : option string;
  status : option AcademicStatus;
  courseInterest : option string;
  address : option string;
  city : option string;
  gender : option Gender;
  dob : option string }.
End AddLeadData.

(** Truthiness of an optional string: defined and not empty. *)
Definition truthy (o : option string) : bool :=
  match o with
  | Some s => bool_decide (s ≠ "")
  | None => false
  end.

(** [.refine(data => !(data.source === tag && !qualifier), { message, path })]. *)
Definition refine_source (tag : string) (qualifier : option string) (msg : string)
    (field : string) (source : string) : list Issue :=
  if bool_decide (source = tag) && negb (truthy qualifier) then [mkIssue field msg] else [].

(** [addLeadFormSchema.safeParse(rawData)] on the [rawData] that
    [addLeadAction] builds from the form: the issues on failure, the data on
    success. *)
Definition addLeadFormSchema (isEmail : string → bool) (formData : FormData)
    : list Issue + AddLeadData.t :=
  let name := z_string_min 2 "Name must be at least 2 characters." "name"
                (raw_get "name" formData) in
  let email := z_string_email isEmail "Please enter a valid email address." "email"
                 (raw_get "email" formData) in
  let phoneNumbers := z_phoneNumbers (form_phoneNumbers formData) in
  let source := z_string_min 1 "Source is required." "source" (raw_get "source" formData) in
  let opt field := z_optional (z_string field) (raw_get field formData) in
  let socialMediaSource := opt "socialMediaSource" in
  let otherSource := opt "otherSource" in
  let referralSource := opt "referralSource" in
  let education := opt "education" in
  let college := opt "college" in
  let status := z_optional (z_enum academicStatuses "status") (raw_get "status" formData) in
  let courseInterest := opt "courseInterest" in
  let address := opt "address" in
  let city := opt "city" in
  let gender := z_optional (z_enum genders "gender") (raw_get "gender" formData) in
  let dob := opt "dob" in
  let issues :=
    name.2 ++ email.2 ++ phoneNumbers.2 ++ source.2 ++ socialMediaSource.2 ++ otherSource.2
    ++ referralSource.2 ++ education.2 ++ college.2 ++ status.2 ++ courseInterest.2
    ++ address.2 ++ city.2 ++ gender.2 ++ dob.2 in
  let object :=
    n ← name.1; e ← email.1; p ← phoneNumbers.1; s ← source.1;
    sm ← socialMediaSource.1; os ← otherSource.1; rs ← referralSource.1;
    ed ← education.1; co ← college.1; st ← status.1; ci ← courseInterest.1;
    ad ← address.1; cy ← city.1; g ← gender.1; d ← dob.1;
    Some (AddLeadData.mk n e p s sm os rs ed co st ci ad cy g d) in
  match object with
  | None => inl issues
  | Some data =>
      let refined :=
        issues
        ++ refine_source "Other" (AddLeadData.otherSource data)
             "Please specify the source if 'Other' is selected." "otherSource"
             (AddLeadData.source data)
        ++ refine_source "Social Media" (AddLeadData.socialMediaSource data)
             "Please specify the social media channel." "socialMediaSource"
             (AddLeadData.source data)
        ++ refine_source "Referral" (AddLeadData.referralSource data)
             "Please specify the referrer name." "referralSource"
             (AddLeadData.source data) in
      match refined with
      | [] => inr data
      | _ => inl refined
      end
  end.

(** [AddLeadState] (and [UpdateLeadState]): [{ message?, errors? }]. *)
Record AddLeadState := mkAddLeadState {
  state_message : option string;
  state_errors : option (gmap string (list string)) }.

(** The non-null assertion [qualifier!] inside a template literal. *)
Definition bang (qualifier : option string) : string := default "undefined" qualifier.

(** [addLeadAction(prevState, formData)] at the instant [now]. *)
Definition addLeadAction (isEmail : string → bool) (now : Z) (formData : FormData)
    : M AddLeadState :=
  match addLeadFormSchema isEmail formData with
  | inl issues => mret (mkAddLeadState None (Some (fieldErrors issues)))
  | inr data =>
      let source := AddLeadData.source data in
      let finalSource :=
        if decide (source = "Other") then bang (AddLeadData.otherSource data)
        else if decide (source = "Social Media")
             then source +:+ " - " +:+ bang (AddLeadData.socialMediaSource data)
        else if decide (source = "Referral")
             then source +:+ " - " +:+ bang (AddLeadData.referralSource data)
        else source in
      try_catch
        (_ ← addLead now
               (NewLead.mk (AddLeadData.name data) (AddLeadData.email data) finalSource
                  (AddLeadData.phoneNumbers data) (AddLeadData.education data)
                  (AddLeadData.college data) (AddLeadData.status data)
                  (AddLeadData.courseInterest data) (AddLeadData.address data)
                  (AddLeadData.city data) (AddLeadData.gender data) (AddLeadData.dob data));
         mret (mkAddLeadState
                 (Some ("Lead " +:+ dquote +:+ AddLeadData.name data +:+ dquote
                          +:+ " created successfully."))
                 None))
        (λ _, mret (mkAddLeadState None (Some {["name" := ["Failed to create lead."]]})))
  end.

(** [updateLeadFormSchema.safeParse(rawData)] on the [rawData] that
    [updateLeadAction] builds from the form.  The parsed object is handed to
    [updateLead] as it is; every key of [rawData] is a key of it, the
    optional ones possibly with the value [undefined]. *)
Definition updateLeadFormSchema (isEmail : string → bool) (formData : FormData)
    : list Issue + LeadPartial.t :=
  let id := z_string "id" (raw_get "id" formData) in
  let name := z_string_min 2 "Name must be at least 2 characters." "name"
                (raw_get "name" formData) in
  let email := z_string_email isEmail "Please enter a valid email address." "email"
                 (raw_get "email" formData) in
  let assignedUserId := z_string "assignedUserId" (raw_get "assignedUserId" formData) in
  let phoneNumbers := z_phoneNumbers (form_phoneNumbers formData) in
  let source := z_string_min 1 "Source is required." "source" (raw_get "source" formData) in
  let opt field := z_optional (z_string field) (raw_get_or_undefined field formData) in
  let courseInterest := opt "courseInterest" in
  let education := opt "education" in
  let college := opt "college" in
  let status := z_optional (z_enum academicStatuses "status")
                  (raw_get_or_undefined "status" formData) in
  let issues :=
    id.2 ++ name.2 ++ email.2 ++ assignedUserId.2 ++ phoneNumbers.2 ++ source.2
    ++ courseInterest.2 ++ education.2 ++ college.2 ++ status.2 in
  let object :=
    i ← id.1; n ← name.1; e ← email.1; a ← assignedUserId.1; p ← phoneNumbers.1;
    s ← source.1; ci ← courseInterest.1; ed ← education.1; co ← college.1; st ← status.1;
    Some {| LeadPartial.id := i; LeadPartial.name := Some n; LeadPartial.email := Some e;
            LeadPartial.assignedUserId := Some a; LeadPartial.phoneNumbers := Some p;
            LeadPartial.source := Some s; LeadPartial.courseInterest := Some ci;
            LeadPartial.education := Some ed; LeadPartial.college := Some co;
            LeadPartial.status := Some st;
            LeadPartial.avatarUrl := None; LeadPartial.stage := None;
            LeadPartial.createdAt := None; LeadPartial.address := None;
            LeadPartial.city := None; LeadPartial.gender := None; LeadPartial.dob := None;
            LeadPartial.activities := None; LeadPartial.tasks := None;
            LeadPartial.documents := None; LeadPartial.contacts := None |} in
  match object, issues with
  | Some data, [] => inr data
  | _, _ => inl issues
  end.

(** [updateLeadAction(prevState, formData)].  The value [updateLead] returns
    is not looked at. *)
Definition updateLeadAction (isEmail : string → bool) (formData : FormData)
    : M AddLeadState :=
  match updateLeadFormSchema isEmail formData with
  | inl issues => mret (mkAddLeadState None (Some (fieldErrors issues)))
  | inr data =>
      try_catch
        (_ ← updateLead data;
         mret (mkAddLeadState
                 (Some ("Lead " +:+ dquote +:+ default "" (LeadPartial.name data) +:+ dquote
                          +:+ " updated successfully."))
                 None))
        (λ _, mret (mkAddLeadState None (Some {["name" := ["Failed to update lead."]]})))
  end.

(** [BulkUpdateState]: [{ message?, error? }]. *)
Record BulkUpdateState := mkBulkUpdateState {
  bulk_message : option string;
  bulk_error : option string }.

Definition stages : list (string * KanbanStage) := (λ st, (stage_name st, st)) <$> KANBAN_STAGES.

(** The schema of one element of [distributionList]:
    [z.object({ leadId: z.string(), assignedUserId: z.string() })]. *)
Definition z_distributionItem (j : Json) : option (string * string) :=
  match j with
  | JObj fields =>
      match assoc "leadId" fields, assoc "assignedUserId" fields with
      | Some (JStr leadId), Some (JStr assignedUserId) => Some (leadId, assignedUserId)
      | _, _ => None
      end
  | _ => None
  end.

(** [z.array(...).optional()] on the parsed [distributionList]; the outer
    [None] is a validation failure. *)
Definition z_distributionList (j : option Json) : option (option (list (string * string))) :=
  match j with
  | None => Some None
  | Some (JArr items) => Some <$> mapM z_distributionItem items
  | Some _ => None
  end.

(** [bulkUpdateLeadsSchema.safeParse(...)]: the validated [stage],
    [assignedUserId] and [distributionList] ([leadIds] always validates). *)
Definition bulkUpdateLeadsSchema (stage assignedUserId : Raw) (distributionList : option Json)
    : option (option KanbanStage * option string * option (list (string * string))) :=
  st ← (z_optional (z_enum stages "stage") stage).1;
  a ← (z_optional (z_string "assignedUserId") assignedUserId).1;
  d ← z_distributionList distributionList;
  Some (st, a, d).

(** [bulkUpdateLeadsAction(prevState, formData)]; [JSON_parse] answers
    [None] when [JSON.parse] throws. *)
Definition bulkUpdateLeadsAction (JSON_parse : string → option Json) (formData : FormData)
    : M BulkUpdateState :=
  let leadIds := FormData_getAll "leadIds" formData in
  let distributionData := FormData_get "distributionList" formData in
  let parsed : option (option Json) :=
    if truthy distributionData then Some <$> JSON_parse (default "" distributionData)
    else Some None in
  match parsed with
  | None => mret (mkBulkUpdateState None (Some "Invalid distribution data."))
  | Some distributionList =>
      match bulkUpdateLeadsSchema (raw_get_or_undefined "stage" formData)
              (raw_get_or_undefined "assignedUserId" formData) distributionList with
      | None => mret (mkBulkUpdateState None (Some "Invalid data for bulk update."))
      | Some (vStage, vAssignedUserId, vDistributionList) =>
          try_catch
            (if bool_decide (0 < length (default [] vDistributionList)) then
               let items := default [] vDistributionList in
               _ ← bulkUpdateLeads (fst <$> items) (Updates.mk None None (Some items));
               mret (mkBulkUpdateState
                       (Some (String_of_nat (length items)
                                +:+ " leads have been distributed successfully."))
                       None)
             else
               let updates_stage := vStage in
               let updates_assignedUserId :=
                 if truthy vAssignedUserId then vAssignedUserId else None in
               _ ← (if bool_decide ((updates_stage, updates_assignedUserId) = (None, None))
                    then mret ()
                    else bulkUpdateLeads leadIds
                           (Updates.mk updates_stage updates_assignedUserId None));
               us ← read_users;
               let message :=
                 match updates_stage, updates_assignedUserId with
                 | Some st, _ =>
                     String_of_nat (length leadIds) +:+ " lead(s) moved to "
                       +:+ stage_name st +:+ "."
                 | None, Some u =>
                     let user := snd <$> list_find (λ x, User.id x = u) us in
                     let name := match User.name <$> user with
                                 | Some n => if decide (n = "") then "N/A" else n
                                 | None => "N/A"
                                 end in
                     String_of_nat (length leadIds) +:+ " lead(s) assigned to " +:+ name +:+ "."
                 | None, None => ""
                 end in
               mret (mkBulkUpdateState
                       (Some (if decide (message = "") then "No updates performed." else message))
                       None))
            (λ _, mret (mkBulkUpdateState None (Some "Failed to update leads.")))
      end
  end.

(** [bulkDeleteLeadsAction(prevState, formData)]. *)
Definition bulkDeleteLeadsAction (formData : FormData) : M BulkUpdateState :=
  let leadIds := FormData_getAll "leadIds" formData in
  try_catch
    (_ ← bulkDeleteLeads leadIds;
     mret (mkBulkUpdateState
             (Some (String_of_nat (length leadIds) +:+ " leads deleted successfully.")) None))
    (λ _, mret (mkBulkUpdateState None (Some "Failed to delete leads."))).

(** ** The distribution dialog ([distribute-leads-dialog.tsx]) *)

(** The JSON value of the array [distributionList]. *)
Definition distribution_json (items : list (string * string)) : Json :=
  JArr ((λ item, JObj [("leadId", JStr item.1); ("assignedUserId", JStr item.2)]) <$> items).

(** What a click on the button leads to: an error toast, or the state the
    server action returns. *)
Inductive DistributeResult :=
  | Toast (title description : string)
  | Submitted (state : BulkUpdateState).

(** The round-robin list built by [handleDistribute]. *)
Definition distributionList (newLeads : list Lead.t) (selectedCounselors : list string)
    : list (string * string) :=
  imap (λ index lead,
          (Lead.id lead,
           default "" (selectedCounselors !! (index mod length selectedCounselors))))
       newLeads.

(** [handleDistribute()] for the dialog's [leads] prop and the selected
    counselors. *)
Definition handleDistribute (JSON_stringify : Json → string)
    (JSON_parse : string → option Json) (leads : list Lead.t)
    (selectedCounselors : list string) : M DistributeResult :=
  let newLeads := filter (λ lead, Lead.stage lead = New) leads in
  if bool_decide (length selectedCounselors = 0 ∨ length newLeads = 0) then
    mret (Toast "Cannot Distribute"
            (if bool_decide (length selectedCounselors = 0)
             then "Please select at least one counselor."
             else "No new leads to distribute."))
  else
    let formData :=
      [("distributionList",
        JSON_stringify (distribution_json (distributionList newLeads selectedCounselors)))] in
    state ← bulkUpdateLeadsAction JSON_parse formData;
    mret (Submitted state).

(** ** The Kanban board ([kanban-board.tsx]) *)

(** [getNextFollowUp(lead)]. *)
Definition getNextFollowUp (lead : Lead.t) : option Task.t :=
  head (sortBy (λ a b, Task.dueDate a - Task.dueDate b)%Z
          (filter (λ t, Task.type t = FollowUp ∧ Task.status t = Pending) (Lead.tasks lead))).

Definition priorityOrder (p : Priority) : Z :=
  match p with
  | High => 0
  | Medium => 1
  | Low => 2
  end.

(** [new Date(a.activities?.[0]?.timestamp || a.createdAt).getTime()]. *)
Definition lastActivity (a : Lead.t) : Z :=
  match Lead.activities a with
  | act :: _ => Activity.timestamp act
  | [] => Lead.createdAt a
  end.

(** The comparator of [sortLeadsByPriority]. *)
Definition comparePriority (a b : Lead.t) : Z :=
  match getNextFollowUp a, getNextFollowUp b with
  | Some nextFollowUpA, Some nextFollowUpB =>
      let priorityA := priorityOrder (Task.priority nextFollowUpA) in
      let priorityB := priorityOrder (Task.priority nextFollowUpB) in
      if decide (priorityA ≠ priorityB) then priorityA - priorityB
      else Task.dueDate nextFollowUpA - Task.dueDate nextFollowUpB
  | Some _, None => -1
  | None, Some _ => 1
  | None, None => lastActivity b - lastActivity a
  end%Z.

Definition sortLeadsByPriority (leads : list Lead.t) : list Lead.t :=
  sortBy comparePriority leads.

(** ** The dashboard ([SuperAdminDashboard]) *)

(** [isToday(new Date(t))] of [date-fns]: the instant falls on the calendar
    day of the current instant; [localDay] numbers the calendar days of the
    local time zone. *)
Definition isToday (localDay : Z → Z) (now : Z) (t : Z) : Prop :=
  localDay t = localDay now.

Definition hasTodaysFollowUp (localDay : Z → Z) (now : Z) (lead : Lead.t) : Prop :=
  Exists (λ task, Task.type task = FollowUp ∧ Task.status task = Pending
                  ∧ isToday localDay now (Task.dueDate task))
         (Lead.tasks lead).

Definition hasBeenContactedToday (localDay : Z → Z) (now : Z) (lead : Lead.t) : Prop :=
  Exists (λ activity, isToday localDay now (Activity.timestamp activity))
         (Lead.activities lead).

#[global] Instance isToday_dec localDay now t : Decision (isToday localDay now t).
Proof. unfold isToday. apply _. Defined.
#[global] Instance hasTodaysFollowUp_dec localDay now lead :
  Decision (hasTodaysFollowUp localDay now lead).
Proof. unfold hasTodaysFollowUp. apply _. Defined.
#[global] Instance hasBeenContactedToday_dec localDay now lead :
  Decision (hasBeenContactedToday localDay now lead).
Proof. unfold hasBeenContactedToday. apply _. Defined.

(** The lead the effect of [SuperAdminDashboard] passes to
    [setMissedFollowUpLead]: [allLeads.find(...)]. *)
Definition leadToFollowUp (localDay : Z → Z) (now : Z) (allLeads : list Lead.t)
    : option Lead.t :=
  snd <$> list_find (λ lead, hasTodaysFollowUp localDay now lead
                             ∧ ¬ hasBeenContactedToday localDay now lead) allLeads.

(** ** Tasks ([src/lib/tasks-data.ts]) *)

Definition set_tasks (v : list Task.t) (lead : Lead.t) : Lead.t :=
  {| Lead.id := Lead.id lead; Lead.name := Lead.name lead;
     Lead.avatarUrl := Lead.avatarUrl lead; Lead.email := Lead.email lead;
     Lead.stage := Lead.stage lead; Lead.source := Lead.source lead;
     Lead.assignedUserId := Lead.assignedUserId lead;
     Lead.createdAt := Lead.createdAt lead; Lead.phoneNumbers := Lead.phoneNumbers lead;
     Lead.education := Lead.education lead; Lead.college := Lead.college lead;
     Lead.status := Lead.status lead; Lead.courseInterest := Lead.courseInterest lead;
     Lead.address := Lead.address lead; Lead.city := Lead.city lead;
     Lead.gender := Lead.gender lead; Lead.dob := Lead.dob lead;
     Lead.activities := Lead.activities lead; Lead.tasks := v;
     Lead.documents := Lead.documents lead; Lead.contacts := Lead.contacts lead |}.

(** The fields [addTask] receives: [Omit<Task, 'id' | 'status' | 'leadId'>]. *)
Module TaskData.
Record t := mk {
  type : TaskType;
  dueDate : Z;
  priority : Priority;
  notes : string;
  assignedUserId : string }.
End TaskData.

(** [getAllTasks()] on its first call, which gives the exported array
    [tasks] its initial value: the tasks of all leads. *)
Definition getAllTasks : M (list Task.t) :=
  ls ← getLeads;
  mret (ls ≫= Lead.tasks).

(** [addTask(leadId, taskData)] at the instant [now].  The exported array
    [tasks] is passed in; the new task and the array after the push are
    returned.  A throw leaves the array as it was. *)
Definition addTask (now : Z) (leadId : string) (taskData : TaskData.t) (tasks : list Task.t)
    : M (Task.t * list Task.t) :=
  ls ← getLeads;
  match list_find (λ l, Lead.id l = leadId) ls with
  | None => throw "Lead not found"
  | Some (i, lead) =>
      let newTask :=
        {| Task.id := "TSK-" +:+ pretty now;
           Task.status := Pending;
           Task.leadId := leadId;
           Task.type := TaskData.type taskData;
           Task.dueDate := TaskData.dueDate taskData;
           Task.priority := TaskData.priority taskData;
           Task.notes := TaskData.notes taskData;
           Task.assignedUserId := TaskData.assignedUserId taskData |} in
      _ ← write_leads (<[i := set_tasks (Lead.tasks lead ++ [newTask]) lead]> ls);
      mret (newTask, tasks ++ [newTask])
  end.

(** ** The task and activity actions ([src/app/actions.ts]) *)

(** [separator.join(parts)]. *)
Fixpoint String_join (separator : string) (parts : list string) : string :=
  match parts with
  | [] => ""
  | [a] => a
  | a :: rest => a +:+ separator +:+ String_join separator rest
  end.

(** Appends a message under the key of its field, in an object whose keys
    keep their insertion order. *)
Fixpoint push_message (field msg : string) (entries : list (string * list string))
    : list (string * list string) :=
  match entries with
  | [] => [(field, [msg])]
  | (k, msgs) :: rest =>
      if decide (k = field) then (k, msgs ++ [msg]) :: rest
      else (k, msgs) :: push_message field msg rest
  end.

(** [Object.values(error.flatten().fieldErrors).join(' ')]: the message
    arrays in the order in which their fields first fail; an array prints as
    its elements separated by commas. *)
Definition errorMessages (issues : list Issue) : string :=
  String_join " "
    ((λ e, String_join "," e.2)
       <$> foldl (λ entries i, push_message (path i) (message i) entries) [] issues).

(** [AddTaskState] and [AddActivityState]: [{ message?, error? }]. *)
Record ActionState := mkActionState {
  action_message : option string;
  action_error : option string }.

Definition taskTypes : list (string * TaskType) :=
  [("Follow-up", FollowUp); ("Meeting", Meeting); ("Documentation", Documentation)].

Definition priorities : list (string * Priority) :=
  [("High", High); ("Medium", Medium); ("Low", Low)].

(** [z.string().refine((val) => !isNaN(Date.parse(val)), { message: "Invalid date" })];
    [Date_parse] answers [None] for [NaN]. *)
Definition z_date (Date_parse : string → option Z) (field : string) (raw : Raw) : Parse Z :=
  match z_string field raw with
  | (Some s, _) =>
      match Date_parse s with
      | Some t => (Some t, [])
      | None => (Some 0%Z, [mkIssue field "Invalid date"])
      end
  | (None, issues) => (None, issues)
  end.

(** [addTaskFormSchema.safeParse(...)] on the values [addTaskAction] reads
    from the form: the issues, or the lead id and the task fields. *)
Definition addTaskFormSchema (Date_parse : string → option Z) (formData : FormData)
    : list Issue + (string * TaskData.t) :=
  let leadId := z_string "leadId" (raw_get "leadId" formData) in
  let type := z_enum taskTypes "type" (raw_get "type" formData) in
  let dueDate := z_date Date_parse "dueDate" (raw_get "dueDate" formData) in
  let priority := z_enum priorities "priority" (raw_get "priority" formData) in
  let notes := z_string_min 3 "Notes must be at least 3 characters." "notes"
                 (raw_get "notes" formData) in
  let assignedUserId := z_string "assignedUserId" (raw_get "assignedUserId" formData) in
  let issues :=
    leadId.2 ++ type.2 ++ dueDate.2 ++ priority.2 ++ notes.2 ++ assignedUserId.2 in
  let object :=
    l ← leadId.1; t ← type.1; d ← dueDate.1; p ← priority.1; n ← notes.1;
    a ← assignedUserId.1;
    Some (l, TaskData.mk t d p n a) in
  match object, issues with
  | Some data, [] => inr data
  | _, _ => inl issues
  end.

(** [addTaskAction(prevState, formData)] at the instant [now], with the
    exported array [tasks]; the array after the call is returned with the
    state. *)
Definition addTaskAction (Date_parse : string → option Z) (now : Z) (formData : FormData)
    (tasks : list Task.t) : M (ActionState * list Task.t) :=
  match addTaskFormSchema Date_parse formData with
  | inl issues =>
      mret (mkActionState None (Some ("Invalid form data: " +:+ errorMessages issues)), tasks)
  | inr (leadId, taskData) =>
      try_catch
        ('(_, tasks') ← addTask now leadId taskData tasks;
         mret (mkActionState (Some "Task created successfully.") None, tasks'))
        (λ errorMessage, mret (mkActionState None (Some errorMessage), tasks))
  end.

Definition activityTypes : list (string * ActivityType) :=
  [("Call", Call); ("Email", Email); ("SMS", SMS); ("WhatsApp", WhatsApp); ("Walk in", WalkIn)].

(** The output type of [addActivityFormSchema]. *)
Module AddActivityData.
Record t := mk {
  leadId : string;
  type : ActivityType;
  outcome : string;
  notes : string;
  userId : string;
  courseInterest : option string;
  stage : option KanbanStage }.
End AddActivityData.

(** [addActivityFormSchema.safeParse(...)] on the values
    [addActivityAction] reads from the form. *)
Definition addActivityFormSchema (formData : FormData) : list Issue + AddActivityData.t :=
  let leadId := z_string "leadId" (raw_get "leadId" formData) in
  let type := z_enum activityTypes "type" (raw_get "type" formData) in
  let outcome := z_string_min 3 "Outcome must be at least 3 characters." "outcome"
                   (raw_get "outcome" formData) in
  let notes := z_string_min 3 "Notes must be at least 3 characters." "notes"
                 (raw_get "notes" formData) in
  let userId := z_string "userId" (raw_get "userId" formData) in
  let courseInterest :=
    z_optional (z_string "courseInterest") (raw_get "courseInterest" formData) in
  let stage := z_optional (z_enum stages "stage") (raw_get "stage" formData) in
  let issues :=
    leadId.2 ++ type.2 ++ outcome.2 ++ notes.2 ++ userId.2 ++ courseInterest.2 ++ stage.2 in
  let object :=
    l ← leadId.1; t ← type.1; o ← outcome.1; n ← notes.1; u ← userId.1;
    c ← courseInterest.1; s ← stage.1;
    Some (AddActivityData.mk l t o n u c s) in
  match object, issues with
  | Some data, [] => inr data
  | _, _ => inl issues
  end.

(** The object [{ id: leadId, ...leadUpdates }] of [addActivityAction]. *)
Definition leadUpdates (leadId : string) (courseInterest : option string)
    (stage : option KanbanStage) : LeadPartial.t :=
  {| LeadPartial.id := leadId;
     LeadPartial.courseInterest := if truthy courseInterest then Some courseInterest else None;
     LeadPartial.stage := stage;
     LeadPartial.name := None; LeadPartial.avatarUrl := None; LeadPartial.email := None;
     LeadPartial.source := None; LeadPartial.assignedUserId := None;
     LeadPartial.createdAt := None; LeadPartial.phoneNumbers := None;
     LeadPartial.education := None; LeadPartial.college := None;
     LeadPartial.status := None; LeadPartial.address := None;
     LeadPartial.city := None; LeadPartial.gender := None; LeadPartial.dob := None;
     LeadPartial.activities := None; LeadPartial.tasks := None;
     LeadPartial.documents := None; LeadPartial.contacts := None |}.

(** [addActivityAction(prevState, formData)] at the instant [now]. *)
Definition addActivityAction (now : Z) (formData : FormData) : M ActionState :=
  match addActivityFormSchema formData with
  | inl issues =>
      mret (mkActionState None (Some ("Invalid form data: " +:+ errorMessages issues)))
  | inr data =>
      try_catch
        (_ ← addActivity now (AddActivityData.leadId data)
               (ActivityData.mk (AddActivityData.type data) (AddActivityData.outcome data)
                  (AddActivityData.notes data) (AddActivityData.userId data));
         _ ← (if truthy (AddActivityData.courseInterest data)
                 || bool_decide (is_Some (AddActivityData.stage data))
              then _ ← updateLead (leadUpdates (AddActivityData.leadId data)
                                     (AddActivityData.courseInterest data)
                                     (AddActivityData.stage data));
                   mret ()
              else mret ());
         mret (mkActionState (Some "Activity logged successfully.") None))
        (λ errorMessage, mret (mkActionState None (Some errorMessage)))
  end.

(** ** The bulk actions toolbar and the contacts table ([contacts-table.tsx]) *)

(** The entries [selectedLeads.forEach(lead => formData.append('leadIds', lead.id))]. *)
Definition leadIds_entries (selectedLeads : list Lead.t) : FormData :=
  (λ lead, ("leadIds", Lead.id lead)) <$> selectedLeads.

(** [handleStageChange(stage)] for the selected leads. *)
Definition handleStageChange (JSON_parse : string → option Json) (selectedLeads : list Lead.t)
    (stage : KanbanStage) : M BulkUpdateState :=
  bulkUpdateLeadsAction JSON_parse (leadIds_entries selectedLeads ++ [("stage", stage_name stage)]).


(** [handleDelete()] for the selected leads. *)
Definition handleDelete (selectedLeads : list Lead.t) : M BulkUpdateState :=
  bulkDeleteLeadsAction (leadIds_entries selectedLeads).

(** The rows the table shows: [filteredData], for the date picked in the
    activity-date filter, if any; [localDay] numbers the calendar days as
    [isSameDay] of [date-fns] tells them apart. *)
Definition filteredData (localDay : Z → Z) (date : option Z) (data : list Lead.t)
    : list Lead.t :=
  match date with
  | None => data
  | Some d =>
      filter (λ lead, Exists (λ activity, localDay (Activity.timestamp activity) = localDay d)
                        (Lead.activities lead))
             data
  end.

(** ** The Kanban columns ([kanban-board.tsx]) *)

(** The object [leadsByStage] built by the [reduce] of [KanbanBoard]. *)
Definition leadsByStage (leads : list Lead.t) : KanbanStage → option (list Lead.t) :=
  foldl (λ acc stage st,
           if decide (st = stage) then Some (filter (λ lead, Lead.stage lead = stage) leads)
           else acc st)
        (λ _, None) KANBAN_STAGES.

(** The columns of the board, in order: the title of each and its leads,
    [leadsByStage[stage] || []]. *)
Definition kanbanColumns (leads : list Lead.t) : list (KanbanStage * list Lead.t) :=
  (λ stage, (stage, default [] (leadsByStage leads stage))) <$> KANBAN_STAGES.

(** [displayedLeads] of [KanbanColumn]. *)
Definition displayedLeads (isSorted : bool) (leads : list Lead.t) : list Lead.t :=
  let sortedByDate := sortBy (λ a b, Lead.createdAt b - Lead.createdAt a)%Z leads in
  if isSorted then sortLeadsByPriority sortedByDate else sortedByDate.

(** [hasBeenContacted] of [KanbanCard]. *)
Definition hasBeenContacted (lead : Lead.t) : bool :=
  bool_decide (0 < length (filter (λ a, Activity.type a ≠ System) (Lead.activities lead))).

(** ** The dashboard widgets ([SuperAdminDashboard]) *)

(** [upcoming] of [UpcomingTasks]. *)
Definition upcoming (tasks : list Task.t) : list Task.t :=
  take 4 (filter (λ t, Task.status t = Pending) tasks).

(** The counts the effect of [LeadFunnel] computes: an object from stage
    names to numbers. *)
Definition stageCounts (leads : list Lead.t) : gmap string nat :=
  foldl (λ acc lead,
           <[stage_name (Lead.stage lead) :=
               default 0 (acc !! stage_name (Lead.stage lead)) + 1]> acc)
        ∅ leads.

(** [stageCounts[stage] || 0]. *)
Definition funnelCount (leads : list Lead.t) (stage : KanbanStage) : nat :=
  default 0 (stageCounts leads !! stage_name stage).

(** [Math.max(...Object.values(stageCounts), 1)]. *)
Definition maxCount (leads : list Lead.t) : nat :=
  max_list ((snd <$> map_to_list (stageCounts leads)) ++ [1]).

Definition funnelStages : list KanbanStage :=
  filter (λ s, s ≠ Dropped) KANBAN_STAGES.

(** The task [MissedFollowUpCard] shows the time of:
    [lead.tasks.find(t => isToday(new Date(t.dueDate)))]. *)
Definition missedFollowUpTask (localDay : Z → Z) (now : Z) (lead : Lead.t) : option Task.t :=
  snd <$> list_find (λ t, isToday localDay now (Task.dueDate t)) (Lead.tasks lead).

(** ** The selection of the distribution dialog *)

(** [handleCounselorSelection(counselorId, isChecked)] on the current
    selection. *)
Definition handleCounselorSelection (counselorId : string) (isChecked : bool)
    (current : list string) : list string :=
  if isChecked then current ++ [counselorId]
  else filter (λ id, id ≠ counselorId) current.

(** [leadsPerCounselor] and [remainder], the numbers the dialog announces. *)
Definition leadsPerCounselor (newLeads : list Lead.t) (selectedCounselors : list string) : nat :=
  if bool_decide (0 < length selectedCounselors)
  then length newLeads / length selectedCounselors else 0.

Definition remainder (newLeads : list Lead.t) (selectedCounselors : list string) : nat :=
  if bool_decide (0 < length selectedCounselors)
  then length newLeads mod length selectedCounselors else 0.

(** ** Notions used to state the properties *)


(** The number of the distributed leads that a counselor holds in a store. *)
Definition received (s : Store) (distributed : list string) (counselor : string) : nat :=
  length (filter (λ lead, Lead.id lead ∈ distributed ∧ Lead.assignedUserId lead = counselor)
            (leads s)).

(** The activities of a lead are kept newest first: no activity is later
    than the first one ([generateLeads] sorts them so, [addLead] creates one,
    [addActivity] puts the new one in front). *)
Definition newestFirst (lead : Lead.t) : Prop :=
  match Lead.activities lead with
  | [] => True
  | first :: rest =>
      Forall (λ act, (Activity.timestamp act ≤ Activity.timestamp first)%Z) rest
  end.

#[global] Instance newestFirst_dec lead : Decision (newestFirst lead).
Proof. unfold newestFirst. destruct (Lead.activities lead); apply _. Defined.

(** The order of the Kanban priority sort in the words of the
    specification, to be compared with [comparePriority]. *)

Definition spec_hasPendingFollowUp (lead : Lead.t) : Prop :=
  ∃ t, t ∈ Lead.tasks lead ∧ Task.type t = FollowUp ∧ Task.status t = Pending.

(** [z] is the instant of the most recent activity of the lead, or its
    creation time when it has no activity. *)
Definition spec_mostRecentActivity (lead : Lead.t) (z : Z) : Prop :=
  match Lead.activities lead with
  | [] => z = Lead.createdAt lead
  | _ => (∃ act, act ∈ Lead.activities lead ∧ Activity.timestamp act = z)
         ∧ ∀ act, act ∈ Lead.activities lead → (Activity.timestamp act ≤ z)%Z
  end.

(** [a] sorts strictly before [b].  The pending follow-up of a lead that the
    order looks at is its next one, [getNextFollowUp]. *)
Inductive spec_sortsBefore (a b : Lead.t) : Prop :=
  | followUp_first :
      spec_hasPendingFollowUp a → ¬ spec_hasPendingFollowUp b → spec_sortsBefore a b
  | higher_priority ta tb :
      getNextFollowUp a = Some ta → getNextFollowUp b = Some tb →
      (priorityOrder (Task.priority ta) < priorityOrder (Task.priority tb))%Z →
      spec_sortsBefore a b
  | earlier_due ta tb :
      getNextFollowUp a = Some ta → getNextFollowUp b = Some tb →
      Task.priority ta = Task.priority tb →
      (Task.dueDate ta < Task.dueDate tb)%Z →
      spec_sortsBefore a b
  | more_recent za zb :
      ¬ spec_hasPendingFollowUp a → ¬ spec_hasPendingFollowUp b →
      spec_mostRecentActivity a za → spec_mostRecentActivity b zb → (zb < za)%Z →
      spec_sortsBefore a b.

(** ** Sample data *)

(** The users of [src/lib/users-data.ts]. *)
Definition initialUsers : list User.t :=
  [ User.mk "user-1" "Super Admin" "admin@spruce.com" "super-admin" "Super Admin";
    User.mk "user-2" "Sanya Iyer" "sanya.iyer@example.com" "admin" "Admin";
    User.mk "user-3" "Rohan Mehta" "rohan.mehta@example.com" "admin" "Admin";
    User.mk "user-4" "Anjali Rao" "anjali.rao@example.com" "admin" "Admin";
    User.mk "user-5" "Shivani Bisen" "shivani.bisen@example.com" "counselor" "Counselor";
    User.mk "user-6" "Pooja Verma" "pooja.verma@example.com" "counselor" "Counselor";
    User.mk "user-11" "Shivani Pande" "shivani.pande@example.com" "counselor" "Counselor";
    User.mk "user-12" "Pratiksha" "pratiksha@example.com" "counselor" "Counselor";
    User.mk "user-7" "Aditya Verma" "aditya.verma@example.com" "faculty-trainer" "Faculty/Trainer";
    User.mk "user-8" "Sneha Reddy" "sneha.reddy@example.com" "faculty-trainer" "Faculty/Trainer";
    User.mk "user-9" "Arjun Nair" "arjun.nair@example.com" "finance" "Finance";
    User.mk "user-10" "Kabir Das" "kabir.das@example.com" "finance" "Finance" ].

(** A stream of draws.  Draw [i] makes the lead "Aarav Sharma", in stage New
    when [i] is even and Contacted otherwise, with two activities, and with
    a Low follow-up, a High follow-up or no task as [i mod 3] is 0, 1 or 2. *)
Definition sampleDraw (i : nat) : Draw.t :=
  Draw.mk "Aarav" "Sharma" (if Nat.even i then New else Contacted)
    [(Call, 1000 + Z.of_nat i, "Sent info", "user-5");
     (Email, 3000 + Z.of_nat i, "No answer", "user-6")]%Z
    (match i mod 3 with
     | 0 => Some (5000%Z, Low, "user-5")
     | 1 => Some ((4000 + Z.of_nat i)%Z, High, "user-6")
     | _ => None
     end)
    None (500 + Z.of_nat i)%Z "Website" "BCA" "IGNOU" Passed
    "Digital Marketing Pro" "user-5" "Pune" Female "2000-01-01T00:00:00.000Z".

(** The store of a process that has not read its leads yet. *)
Definition freshStore : Store := mkStore [] [] initialUsers sampleDraw.

(** The store after the first read: the 100 generated leads. *)
Definition loadedStore : Store := (getLeads freshStore).2.

(** The store after a bulk delete of the lead ["001"]. *)
Definition storeWithout001 : Store := (bulkDeleteLeads ["001"] loadedStore).2.

(** The ids ["003"] to ["100"]. *)
Definition ids_003_to_100 : list string := (λ i, padStart 3 (String_of_nat i)) <$> seq 3 98.

(** The store after a bulk delete of the leads ["003"] to ["100"]. *)
Definition twoLeadStore : Store := (bulkDeleteLeads ids_003_to_100 loadedStore).2.

(** The store after a bulk delete of the leads ["006"] to ["100"]. *)
Definition fiveLeadStore : Store := (bulkDeleteLeads (drop 3 ids_003_to_100) loadedStore).2.

(** An e-mail test for the samples: the text contains an at sign. *)
Definition hasAtSign (s : string) : bool :=
  existsb (λ c, bool_decide (nat_of_ascii c = 64)) (String.list_ascii_of_string s).

Definition sampleNewLead : NewLead.t :=
  NewLead.mk "Asha Rao" "asha@example.com" "Website" None None None None None None None
    None None.

(** An update form whose id no lead has. *)
Definition updateForm999 : FormData :=
  [("id", "999"); ("name", "Asha Rao"); ("email", "asha@example.com");
   ("assignedUserId", "user-5"); ("source", "Website")].

(** What the add-lead form submits when the name, the e-mail, one phone,
    the source Other and its specify-field are filled and every other input
    is left empty ([onFormSubmit] appends the non-empty values only). *)
Definition otherSourceForm : FormData :=
  [("name", "Asha Rao"); ("email", "asha@example.com"); ("phoneTitles", "Mobile");
   ("phoneNumbers", "+919876543210"); ("source", "Other"); ("otherSource", "Education Fair")].

(** The same form with the specify-field left empty. *)
Definition otherSourceForm_unspecified : FormData :=
  [("name", "Asha Rao"); ("email", "asha@example.com"); ("phoneTitles", "Mobile");
   ("phoneNumbers", "+919876543210"); ("source", "Other")].

(** A form data object that carries every key of the schema. *)
Definition completeForm : FormData :=
  otherSourceForm ++
  [("socialMediaSource", "Instagram"); ("referralSource", "Ravi"); ("education", "BCA");
   ("college", "IGNOU"); ("status", "Passed"); ("courseInterest", "Digital Marketing Pro");
   ("address", "12 MG Road"); ("city", "Pune"); ("gender", "Female");
   ("dob", "2000-01-01T00:00:00.000Z")].

(** A bulk update that carries a stage and an assignee. *)
Definition stageAndAssigneeForm : FormData :=
  [("leadIds", "001"); ("leadIds", "003"); ("stage", "Qualified");
   ("assignedUserId", "user-6")].

(** [JSON.stringify] on values whose strings need no escaping. *)
Fixpoint sample_stringify (j : Json) : string :=
  match j with
  | JNull => "null"
  | JBool b => if b then "true" else "false"
  | JNum z => pretty z
  | JStr s => dquote +:+ s +:+ dquote
  | JArr items =>
      "[" +:+ (fix go (l : list Json) : string :=
                 match l with
                 | [] => ""
                 | [x] => sample_stringify x
                 | x :: rest => sample_stringify x +:+ "," +:+ go rest
                 end) items +:+ "]"
  | JObj fields =>
      "{" +:+ (fix go (l : list (string * Json)) : string :=
                 match l with
                 | [] => ""
                 | [(k, v)] => dquote +:+ k +:+ dquote +:+ ":" +:+ sample_stringify v
                 | (k, v) :: rest =>
                     dquote +:+ k +:+ dquote +:+ ":" +:+ sample_stringify v +:+ "," +:+ go rest
                 end) fields +:+ "}"
  end.

Definition sampleCounselors : list string := ["user-5"; "user-6"].

(** The JSON value the dialog sends for the leads of [fiveLeadStore] and the
    two sample counselors. *)
Definition sampleDistribution : Json :=
  distribution_json
    (distributionList (filter (λ lead, Lead.stage lead = New) (leads fiveLeadStore))
       sampleCounselors).

(** [JSON.parse] restricted to the one text the sample needs. *)
Definition sample_parse (text : string) : option Json :=
  if decide (text = sample_stringify sampleDistribution) then Some sampleDistribution else None.

(** The store after the dialog has distributed the new leads of
    [fiveLeadStore] among the sample counselors. *)
Definition distributedStore : Store :=
  (handleDistribute sample_stringify sample_parse (leads fiveLeadStore) sampleCounselors
     fiveLeadStore).2.

(** The ids of the generated leads other than ["002"] and ["003"]. *)
Definition ids_but_002_003 : list string := "001" :: drop 1 ids_003_to_100.

(** The store after a bulk delete of every lead but ["002"] and ["003"] and
    the creation of a lead: the new lead is in front. *)
Definition reusedIdStore : Store :=
  (addLead 7 sampleNewLead (bulkDeleteLeads ids_but_002_003 loadedStore).2).2.

(** The JSON value the dialog sends for the leads of [reusedIdStore] and the
    two sample counselors. *)
Definition reusedIdDistribution : Json :=
  distribution_json
    (distributionList (filter (λ lead, Lead.stage lead = New) (leads reusedIdStore))
       sampleCounselors).

(** [JSON.parse] restricted to that text. *)
Definition reusedId_parse (text : string) : option Json :=
  if decide (text = sample_stringify reusedIdDistribution) then Some reusedIdDistribution
  else None.

(** A numbering of calendar days for the samples: days of 86 400 000 ms
    counted from the epoch. *)
Definition utcDay (t : Z) : Z := (t / 86400000)%Z.


(** What the communication form submits for the lead ["002"] when a stage
    and a course are picked. *)
Definition activityForm002 : FormData :=
  [("leadId", "002"); ("type", "Call"); ("outcome", "Interested");
   ("notes", "Asked for the fee structure"); ("userId", "user-5");
   ("courseInterest", "Data Science"); ("stage", "Qualified")].

(** The same form for a lead that does not exist. *)
Definition activityForm999 : FormData :=
  [("leadId", "999"); ("type", "Call"); ("outcome", "Interested");
   ("notes", "Asked for the fee structure"); ("userId", "user-5");
   ("courseInterest", "Data Science"); ("stage", "Qualified")].

(** The form without the stage entry. *)
Definition activityForm_noStage : FormData :=
  [("leadId", "002"); ("type", "Call"); ("outcome", "Interested");
   ("notes", "Asked for the fee structure"); ("userId", "user-5");
   ("courseInterest", "Data Science")].

(** [Date.parse] restricted to the one date text the samples use. *)
Definition sample_Date_parse (text : string) : option Z :=
  if decide (text = "1970-01-01T00:00:04.500Z") then Some 4500%Z else None.

(** What the add-task form submits for the lead ["003"]. *)
Definition taskForm003 : FormData :=
  [("leadId", "003"); ("type", "Follow-up"); ("dueDate", "1970-01-01T00:00:04.500Z");
   ("priority", "High"); ("notes", "Call the student"); ("assignedUserId", "user-5")].

(** ** Proof automation *)

Ltac run :=
  unfold read_leads, write_leads, read_images, push_images, read_users, take_draws,
    throw, try_catch, mbind, M_bind, mret, M_ret; simpl.

Ltac decide_by_compute := apply (bool_decide_unpack _); vm_compute; exact I.

(** ** The store: reading, creating, updating, deleting *)

Lemma getLeads_nonempty (s : Store) :
  leads s ≠ [] → getLeads s = (Return (leads s), s).
Proof.
  intros Hne. unfold getLeads. run.
  destruct (leads s) eqn:E; [done|]. simpl. by rewrite E.
Qed.

Lemma generateLeads_returns (count : nat) (s : Store) :
  generateLeads count s
  = (Return (leads (generateLeads count s).2), (generateLeads count s).2).
Proof. unfold generateLeads. run. by case_bool_decide. Qed.

Lemma generateLeads_length (count : nat) (s : Store) :
  leads s = [] → length (leads (generateLeads count s).2) = count.
Proof.
  intros Hc. unfold generateLeads. run. rewrite Hc. simpl.
  by rewrite length_imap, length_fmap, length_seq.
Qed.

(** A read never throws, leaves a store that holds leads, and changes
    nothing once leads are there. *)
Lemma getLeads_spec (s : Store) :
  ∃ s', getLeads s = (Return (leads s'), s') ∧ leads s' ≠ []
        ∧ (leads s ≠ [] → s' = s).
Proof.
  destruct (decide (leads s = [])) as [E|E].
  - exists (generateLeads 100 s).2. split_and!; [|..|done].
    + unfold getLeads. run. rewrite E. simpl.
      by rewrite generateLeads_returns.
    + intros H. apply (f_equal length) in H.
      rewrite generateLeads_length in H; done.
  - exists s. by rewrite getLeads_nonempty.
Qed.

Lemma findLead_spec (leadId : string) (s : Store) :
  ∃ s', getLeads s = (Return (leads s'), s') ∧ leads s' ≠ [] ∧ (leads s ≠ [] → s' = s)
    ∧ findLead leadId s
      = (Return (snd <$> list_find (λ l, Lead.id l = leadId) (leads s')), s').
Proof.
  destruct (getLeads_spec s) as (s' & Hg & Hne & Hs). exists s'. split_and!; try done.
  unfold findLead. run. by rewrite Hg.
Qed.

(** What [addLead] builds, whatever the store and the input. *)
Lemma addLead_creates (now : Z) (lead : NewLead.t) (s : Store) :
  ∃ newLead activity s',
    addLead now lead s = (Return newLead, s')
    ∧ leads s' = newLead :: leads (getLeads s).2
    ∧ Lead.id newLead = padStart 3 (String_of_nat (length (leads (getLeads s).2) + 1))
    ∧ Lead.stage newLead = New
    ∧ Lead.activities newLead = [activity]
    ∧ Activity.type activity = System
    ∧ Activity.outcome activity = "Lead Created"
    ∧ Lead.tasks newLead = []
    ∧ Lead.documents newLead = []
    ∧ Lead.assignedUserId newLead = "user-1".
Proof.
  destruct (getLeads_spec s) as (s1 & Hg & _ & _).
  unfold addLead. run. rewrite Hg. simpl.
  eexists _, _, _. split; [reflexivity|]. simpl. by split_and!.
Qed.

(** C1: the id [addLead] assigns is not fresh after a bulk delete.  From the
    100 generated leads, ["001"] is deleted; the lead created next gets the
    id ["100"], which the lead ["100"] of the store already has: the id is
    computed from the number of stored leads. *)
Theorem addLead_reuses_id_after_bulkDelete :
  ∃ newLead,
    (addLead 7 sampleNewLead storeWithout001).1 = Return newLead
    ∧ Lead.id newLead = "100"
    ∧ "100" ∈ Lead.id <$> leads storeWithout001
    ∧ ¬ NoDup (Lead.id <$> leads (addLead 7 sampleNewLead storeWithout001).2).
Proof.
  eexists. split; [vm_compute; reflexivity|].
  split; [reflexivity|]. split; decide_by_compute.
Qed.

(** C4: at the same input the created lead has the stage New, the single
    System activity "Lead Created", no task, no document and the default
    owner, but its id is the id of a lead of the store. *)
Theorem addLead_creation_with_issued_id :
  ∃ newLead activity,
    (addLead 7 sampleNewLead storeWithout001).1 = Return newLead
    ∧ Lead.stage newLead = New
    ∧ Lead.activities newLead = [activity]
    ∧ Activity.type activity = System
    ∧ Activity.outcome activity = "Lead Created"
    ∧ Lead.tasks newLead = []
    ∧ Lead.documents newLead = []
    ∧ Lead.assignedUserId newLead = "user-1"
    ∧ Lead.id newLead ∈ Lead.id <$> leads storeWithout001.
Proof.
  eexists _, _. split; [vm_compute; reflexivity|].
  split_and!; try reflexivity. decide_by_compute.
Qed.

(** C2, as the code has it: when no lead has the id of the request,
    [updateLead] returns [null] without throwing, and it leaves the store as
    a read leaves it: unchanged, once the leads exist. *)
Theorem updateLead_unknown_id (s : Store) (updatedLead : LeadPartial.t) :
  (∀ lead, lead ∈ leads (getLeads s).2 → Lead.id lead ≠ LeadPartial.id updatedLead) →
  updateLead updatedLead s = (Return None, (getLeads s).2)
  ∧ (leads s ≠ [] → (updateLead updatedLead s).2 = s).
Proof.
  intros Hno. destruct (getLeads_spec s) as (s1 & Hg & Hne & Hs).
  rewrite Hg in Hno |- *. simpl in *.
  assert (updateLead updatedLead s = (Return None, s1)) as ->.
  { unfold updateLead. run. rewrite Hg.
    destruct (list_find _ (leads s1)) as [[i lead]|] eqn:Hf; [|done].
    apply list_find_Some in Hf as (Hi & Hid & _).
    destruct (Hno lead); [by eapply list_elem_of_lookup_2|done]. }
  split; [done|]. simpl. auto.
Qed.

Lemma updateLead_unknown_id_witness :
  updateLead (LeadPartial.only "999") fiveLeadStore = (Return None, (getLeads fiveLeadStore).2)
  ∧ (leads fiveLeadStore ≠ [] → (updateLead (LeadPartial.only "999") fiveLeadStore).2
                               = fiveLeadStore).
Proof.
  apply (updateLead_unknown_id fiveLeadStore (LeadPartial.only "999")).
  apply Forall_forall. decide_by_compute.
Defined.

(** C2, as stated, fails: for the id ["999"], which no lead has,
    [updateLead] throws nothing and the action answers with its success
    message. *)
Lemma updateLead_unknown_id_counterexample :
  (∀ lead, lead ∈ leads fiveLeadStore → Lead.id lead ≠ "999")
  ∧ (updateLead (LeadPartial.only "999") fiveLeadStore).1 = Return None
  ∧ (updateLeadAction hasAtSign updateForm999 fiveLeadStore).1
    = Return (mkAddLeadState
                (Some ("Lead " +:+ dquote +:+ "Asha Rao" +:+ dquote
                         +:+ " updated successfully."))
                None).
Proof.
  split_and!.
  - apply Forall_forall. decide_by_compute.
  - vm_compute. reflexivity.
  - vm_compute. reflexivity.
Qed.



Lemma bulkDeleteLeads_store (leadIds : list string) (s : Store) :
  bulkDeleteLeads leadIds s
  = (Return (), mkStore (filter (λ lead, Lead.id lead ∉ leadIds) (leads s))
                  (PlaceHolderImages s) (users s) (random s)).
Proof. done. Qed.

Lemma list_find_filter_keep {A} (P Q : A → Prop)
    `{!∀ x, Decision (P x), !∀ x, Decision (Q x)} (l : list A) :
  (∀ x, P x → Q x) →
  snd <$> list_find P (filter Q l) = snd <$> list_find P l.
Proof.
  intros HPQ. induction l as [|x l IH]; [done|].
  rewrite filter_cons. destruct (decide (Q x)) as [HQ|HQ]; simpl.
  - destruct (decide (P x)); [done|].
    destruct (list_find P (filter Q l)) as [[??]|], (list_find P l) as [[??]|];
      simplify_eq/=; done.
  - destruct (decide (P x)) as [HP|HP]; [by destruct HQ; apply HPQ|].
    rewrite IH. by destruct (list_find P l) as [[??]|].
Qed.

(** As long as the delete leaves a lead in the store, the deleted ids are
    no longer found and every other lookup answers as before. *)
Lemma bulkDeleteLeads_complete (leadIds : list string) (s : Store) :
  let s' := (bulkDeleteLeads leadIds s).2 in
  leads s' ≠ [] →
  (∀ x, x ∈ leadIds → (findLead x s').1 = Return None)
  ∧ (∀ x, x ∉ leadIds → (findLead x s').1 = (findLead x s).1).
Proof.
  intros s' Hne. unfold s' in *. clear s'. rewrite bulkDeleteLeads_store in *. simpl in Hne.
  assert (leads s ≠ []) as Hne'.
  { intros E. apply Hne. by rewrite E. }
  split; intros x Hx; unfold findLead; run; rewrite !getLeads_nonempty by done; simpl.
  - destruct (list_find _ _) as [[i lead]|] eqn:Hf; [|done].
    apply list_find_Some in Hf as (Hi & Hid & _).
    apply list_elem_of_lookup_2, list_elem_of_filter in Hi as [Hni _]. by subst x.
  - f_equal. apply list_find_filter_keep. by intros lead ->.
Qed.

(** C9: when the two deleted leads are the only leads of the store, the
    delete empties [leads], the next read generates 100 leads again, and the
    lookup of the deleted id ["001"] finds a lead. *)
Theorem bulkDelete_of_last_leads_regenerates :
  Lead.id <$> leads twoLeadStore = ["001"; "002"]
  ∧ leads (bulkDeleteLeads ["001"; "002"] twoLeadStore).2 = []
  ∧ ∃ lead, (findLead "001" (bulkDeleteLeads ["001"; "002"] twoLeadStore).2).1
            = Return (Some lead).
Proof.
  split_and!; [vm_compute; reflexivity..|].
  eexists. vm_compute. reflexivity.
Qed.

(** ** The add-lead action *)

Lemma fieldErrors_foldl_keep (issues : list Issue) (m : gmap string (list string))
    (p : string) :
  is_Some (m !! p) →
  is_Some (foldl (λ m i, <[path i := default [] (m !! path i) ++ [message i]]> m) m issues
             !! p).
Proof.
  revert m. induction issues as [|i issues IH]; intros m Hm; [done|]. simpl. apply IH.
  destruct (decide (path i = p)) as [->|Hne].
  - rewrite lookup_insert_eq. by eexists.
  - by rewrite lookup_insert_ne.
Qed.

(** Every issue shows under the key of its field. *)
Lemma fieldErrors_key (issues : list Issue) (i : Issue) :
  i ∈ issues → is_Some (fieldErrors issues !! path i).
Proof.
  unfold fieldErrors. generalize (∅ : gmap string (list string)).
  induction issues as [|i0 issues IH]; intros m Hin; [by apply elem_of_nil in Hin|].
  apply elem_of_cons in Hin as [->|Hin]; simpl.
  - apply fieldErrors_foldl_keep. rewrite lookup_insert_eq. by eexists.
  - by apply IH.
Qed.

(** A form without the key [otherSource] is rejected with an error on that
    field, and the store is not written. *)
Lemma addLeadAction_otherSource_absent (isEmail : string → bool) (now : Z) (fd : FormData)
    (s : Store) :
  FormData_get "otherSource" fd = None →
  ∃ errors, addLeadAction isEmail now fd s = (Return (mkAddLeadState None (Some errors)), s)
            ∧ is_Some (errors !! "otherSource").
Proof.
  intros Hget. unfold addLeadAction.
  assert (∃ issues, addLeadFormSchema isEmail fd = inl issues
                    ∧ mkIssue "otherSource" "Expected string, received null" ∈ issues)
    as (issues & -> & Hin).
  { assert (raw_get "otherSource" fd = RNull) as Hraw by (unfold raw_get; by rewrite Hget).
    unfold addLeadFormSchema. cbv beta zeta. rewrite Hraw. simpl.
    eexists. split.
    - destruct (z_string_min 2 _ "name" _).1, (z_string_email isEmail _ "email" _).1,
        (z_string_min 1 _ "source" _).1, (z_optional (z_string "socialMediaSource") _).1;
        reflexivity.
    - rewrite !elem_of_app, elem_of_cons. tauto. }
  eexists. split; [done|]. apply (fieldErrors_key issues _ Hin).
Qed.

(** When the form data carries every key of the schema, the lead is created
    and its source is the text of the specify-field. *)
Example addLeadAction_complete_form :
  ∃ lead s', addLeadAction hasAtSign 7 completeForm fiveLeadStore
             = (Return (mkAddLeadState
                          (Some ("Lead " +:+ dquote +:+ "Asha Rao" +:+ dquote
                                   +:+ " created successfully.")) None), s')
             ∧ head (leads s') = Some lead ∧ Lead.source lead = "Education Fair".
Proof. eexists _, _. split_and!; vm_compute; reflexivity. Qed.

(** C6: the form with the source Other and the specify-field left empty is
    rejected with an error on [otherSource]; the same form with the
    specify-field filled is rejected as well, with errors on the keys the
    form does not carry (here [referralSource]), and no lead is stored:
    [formData.get] yields [null] for them, which [z.string().optional()]
    does not accept. *)
Theorem addLeadAction_rejects_specified_otherSource :
  (∃ errors, addLeadAction hasAtSign 7 otherSourceForm_unspecified fiveLeadStore
             = (Return (mkAddLeadState None (Some errors)), fiveLeadStore)
             ∧ is_Some (errors !! "otherSource"))
  ∧ (∃ errors, addLeadAction hasAtSign 7 otherSourceForm fiveLeadStore
               = (Return (mkAddLeadState None (Some errors)), fiveLeadStore)
               ∧ errors !! "otherSource" = None
               ∧ is_Some (errors !! "referralSource")).
Proof.
  split.
  - by apply addLeadAction_otherSource_absent.
  - eexists. split; [vm_compute; reflexivity|]. split; [vm_compute; reflexivity|].
    vm_compute. by eexists.
Qed.

(** ** Bulk update *)

Lemma z_enum_stage (st : KanbanStage) :
  z_optional (z_enum stages "stage") (RString (stage_name st)) = (Some (Some st), []).
Proof. by destruct st. Qed.

Lemma stage_name_nonempty (st : KanbanStage) : stage_name st ≠ "".
Proof. by destruct st. Qed.

(** The two setters of the bulk update write the field they name and keep
    the others. *)
Lemma set_stage_fields (v : KanbanStage) (lead : Lead.t) :
  Lead.stage (set_stage v lead) = v
  ∧ Lead.id (set_stage v lead) = Lead.id lead
  ∧ Lead.assignedUserId (set_stage v lead) = Lead.assignedUserId lead.
Proof. done. Qed.

(** C10: a bulk update that carries a stage and an assignee, and no
    distribution list, sets both fields on every lead whose id is among
    [leadIds], leaves every other lead as it is, and answers with the stage
    wording.  After the update a lead whose id is listed is in the stage of
    the request and has the assignee of the request, with its id, name,
    e-mail, source, creation time, activities and tasks as before; a lead
    whose id is not listed is the lead it was. *)
Theorem bulkUpdate_stage_and_assignee (JSON_parse : string → option Json) (fd : FormData)
    (s : Store) (st : KanbanStage) (u : string) :
  FormData_get "stage" fd = Some (stage_name st) →
  FormData_get "assignedUserId" fd = Some u → u ≠ "" →
  FormData_get "distributionList" fd = None →
  let ids := FormData_getAll "leadIds" fd in
  bulkUpdateLeadsAction JSON_parse fd s =
    (Return (mkBulkUpdateState
               (Some (String_of_nat (length ids) +:+ " lead(s) moved to "
                        +:+ stage_name st +:+ "."))
               None),
     mkStore ((λ l, if bool_decide (Lead.id l ∈ ids)
                    then set_assignedUserId u (set_stage st l) else l) <$> leads s)
       (PlaceHolderImages s) (users s) (random s))
  ∧ Forall2 (λ before after,
               if bool_decide (Lead.id before ∈ ids)
               then Lead.stage after = st
                    ∧ Lead.assignedUserId after = u
                    ∧ Lead.id after = Lead.id before
                    ∧ Lead.name after = Lead.name before
                    ∧ Lead.email after = Lead.email before
                    ∧ Lead.source after = Lead.source before
                    ∧ Lead.createdAt after = Lead.createdAt before
                    ∧ Lead.activities after = Lead.activities before
                    ∧ Lead.tasks after = Lead.tasks before
               else after = before)
            (leads s) (leads (bulkUpdateLeadsAction JSON_parse fd s).2).
Proof.
  intros Hst Hu Hne Hd ids.
  assert (bulkUpdateLeadsAction JSON_parse fd s =
            (Return (mkBulkUpdateState
                       (Some (String_of_nat (length ids) +:+ " lead(s) moved to "
                                +:+ stage_name st +:+ "."))
                       None),
             mkStore ((λ l, if bool_decide (Lead.id l ∈ ids)
                            then set_assignedUserId u (set_stage st l) else l) <$> leads s)
               (PlaceHolderImages s) (users s) (random s))) as Heq.
  { unfold bulkUpdateLeadsAction.
    rewrite Hd. simpl. unfold bulkUpdateLeadsSchema, raw_get_or_undefined.
    rewrite Hst, Hu.
    destruct (decide (stage_name st = "")) as [E|_]; [by apply stage_name_nonempty in E|].
    destruct (decide (u = "")) as [|_]; [done|].
    rewrite z_enum_stage. simpl.
    rewrite bool_decide_eq_true_2 by done.
    unfold bulkUpdateLeads, singleUpdate. run.
    destruct (decide (u = "")) as [|_]; [done|]. simpl.
    destruct (decide (_ = "")) as [E|_].
    { by destruct (String_of_nat _). }
    done. }
  split; [exact Heq|]. rewrite Heq. cbn [snd leads].
  apply Forall2_fmap_r, Forall_Forall2_diag, Forall_forall. intros lead _.
  simpl. case_bool_decide; [|done].
  destruct (set_stage_fields st lead) as (Hstage & _ & _).
  split_and!; done.
Qed.

Lemma bulkUpdate_stage_and_assignee_witness :
  (bulkUpdateLeadsAction sample_parse stageAndAssigneeForm fiveLeadStore =
     (Return (mkBulkUpdateState (Some "2 lead(s) moved to Qualified.") None),
      mkStore ((λ l, if bool_decide (Lead.id l ∈ ["001"; "003"])
                     then set_assignedUserId "user-6" (set_stage Qualified l) else l)
                 <$> leads fiveLeadStore)
        (PlaceHolderImages fiveLeadStore) (users fiveLeadStore) (random fiveLeadStore))
   ∧ Forall2 (λ before after,
                if bool_decide (Lead.id before ∈ ["001"; "003"])
                then Lead.stage after = Qualified
                     ∧ Lead.assignedUserId after = "user-6"
                     ∧ Lead.id after = Lead.id before
                     ∧ Lead.name after = Lead.name before
                     ∧ Lead.email after = Lead.email before
                     ∧ Lead.source after = Lead.source before
                     ∧ Lead.createdAt after = Lead.createdAt before
                     ∧ Lead.activities after = Lead.activities before
                     ∧ Lead.tasks after = Lead.tasks before
                else after = before)
             (leads fiveLeadStore)
             (leads (bulkUpdateLeadsAction sample_parse stageAndAssigneeForm fiveLeadStore).2))
  ∧ Lead.stage <$> leads fiveLeadStore = [New; Contacted; New; Contacted; New]
  ∧ Lead.stage <$> leads (bulkUpdateLeadsAction sample_parse stageAndAssigneeForm
                            fiveLeadStore).2
    = [Qualified; Contacted; Qualified; Contacted; New]
  ∧ Lead.assignedUserId <$> leads fiveLeadStore
    = ["user-5"; "user-5"; "user-5"; "user-5"; "user-5"]
  ∧ Lead.assignedUserId <$> leads (bulkUpdateLeadsAction sample_parse stageAndAssigneeForm
                                     fiveLeadStore).2
    = ["user-6"; "user-5"; "user-6"; "user-5"; "user-5"].
Proof.
  split.
  - apply (bulkUpdate_stage_and_assignee sample_parse stageAndAssigneeForm fiveLeadStore
             Qualified "user-6"); [reflexivity|reflexivity|decide_by_compute|reflexivity].
  - split_and!; vm_compute; reflexivity.
Defined.

(** ** Round-robin distribution *)

Section counting.
Context {A B : Type}.

Lemma count_fmap (f : A → B) (P : B → Prop) `{!∀ y, Decision (P y)} (l : list A) :
  length (filter P (f <$> l)) = length (filter (λ x, P (f x)) l).
Proof.
  induction l as [|x l IH]; [done|].
  rewrite fmap_cons, !filter_cons. destruct (decide (P (f x))); simpl; by rewrite IH.
Qed.

Lemma count_ext (P Q : A → Prop) `{!∀ x, Decision (P x), !∀ x, Decision (Q x)}
    (l : list A) :
  (∀ x, x ∈ l → P x ↔ Q x) → length (filter P l) = length (filter Q l).
Proof.
  induction l as [|x l IH]; intros Hext; [done|].
  rewrite !filter_cons.
  assert (length (filter P l) = length (filter Q l)) as IH'.
  { apply IH. intros y Hy. apply Hext. by right. }
  destruct (decide (P x)) as [HP|HP], (decide (Q x)) as [HQ|HQ]; simpl; try by rewrite IH'.
  - destruct HQ. by apply (Hext x); [left|].
  - destruct HP. by apply (Hext x); [left|].
Qed.
End counting.

Lemma count_sublist (P : string → Prop) `{!∀ x, Decision (P x)} (all ids : list string) :
  NoDup all → NoDup ids → ids ⊆ all →
  length (filter (λ x, x ∈ ids ∧ P x) all) = length (filter P ids).
Proof.
  intros Hall Hids Hsub. apply Permutation_length, NoDup_Permutation.
  - by apply NoDup_filter.
  - by apply NoDup_filter.
  - intros x. rewrite !list_elem_of_filter. split; [intros [[? ?] ?]; done|].
    intros [HP Hin]. split_and!; [done..|by apply Hsub].
Qed.

(** Among the indices below [n], those congruent to [j] modulo [k]. *)
Lemma count_mod (k j n : nat) :
  j < k →
  length (filter (λ i, i mod k = j) (seq 0 n))
  = n / k + (if bool_decide (j < n mod k) then 1 else 0).
Proof.
  intros Hj. induction n as [|n IH].
  - simpl. rewrite Nat.Div0.div_0_l, Nat.Div0.mod_0_l.
    by rewrite bool_decide_eq_false_2 by lia.
  - rewrite seq_S, filter_app, length_app, IH. simpl.
    pose proof (Nat.div_mod n k ltac:(lia)) as Hn.
    pose proof (Nat.mod_upper_bound n k ltac:(lia)) as Hr.
    destruct (decide (n mod k + 1 = k)) as [Hw|Hw].
    + assert (S n = k * (n / k + 1) + 0) as HS by lia.
      assert (S n / k = n / k + 1) as ->.
      { symmetry. apply (Nat.div_unique _ _ _ 0); lia. }
      assert (S n mod k = 0) as ->.
      { symmetry. apply (Nat.mod_unique _ _ (n / k + 1)); lia. }
      rewrite filter_cons, filter_nil.
      repeat case_bool_decide; destruct (decide (n mod k = j)); simpl; lia.
    + assert (S n = k * (n / k) + (n mod k + 1)) as HS by lia.
      assert (S n / k = n / k) as ->.
      { symmetry. apply (Nat.div_unique _ _ _ (n mod k + 1)); lia. }
      assert (S n mod k = n mod k + 1) as ->.
      { symmetry. apply (Nat.mod_unique _ _ (n / k)); lia. }
      rewrite filter_cons, filter_nil.
      repeat case_bool_decide; destruct (decide (n mod k = j)); simpl; lia.
Qed.

Lemma sum_quota (q r k : nat) :
  sum_list ((λ j, q + (if bool_decide (j < r) then 1 else 0)) <$> seq 0 k)
  = k * q + r `min` k.
Proof.
  induction k as [|k IH]; [simpl; lia|].
  rewrite seq_S, fmap_app, sum_list_with_app, IH. simpl.
  case_bool_decide; lia.
Qed.

Lemma Map_of_entries_foldl_notin (entries : list (string * string)) (m : gmap string string)
    (x : string) :
  x ∉ entries.*1 → foldl (λ m e, <[e.1 := e.2]> m) m entries !! x = m !! x.
Proof.
  revert m. induction entries as [|[k0 v0] entries IH]; intros m Hx; [done|].
  rewrite fmap_cons, not_elem_of_cons in Hx. destruct Hx as [Hne Hx]. simpl in *.
  rewrite IH by done. by rewrite lookup_insert_ne.
Qed.

(** With distinct keys the map answers each key with the value of its entry. *)
Lemma Map_of_entries_foldl_in (entries : list (string * string)) (m : gmap string string)
    (x v : string) :
  NoDup entries.*1 → (x, v) ∈ entries →
  foldl (λ m e, <[e.1 := e.2]> m) m entries !! x = Some v.
Proof.
  revert m. induction entries as [|[k0 v0] entries IH]; intros m Hnd Hin.
  - by apply elem_of_nil in Hin.
  - rewrite fmap_cons in Hnd. apply NoDup_cons in Hnd as [Hk0 Hnd]. simpl in *.
    apply elem_of_cons in Hin as [[= -> ->]|Hin].
    + rewrite Map_of_entries_foldl_notin by done. by rewrite lookup_insert_eq.
    + by apply IH.
Qed.

Lemma z_distributionList_json (items : list (string * string)) :
  z_distributionList (Some (distribution_json items)) = Some (Some items).
Proof.
  unfold z_distributionList, distribution_json.
  assert (mapM z_distributionItem
            ((λ item : string * string,
                JObj [("leadId", JStr item.1); ("assignedUserId", JStr item.2)]) <$> items)
          = Some items) as ->; [|done].
  apply mapM_Some. induction items as [|[a b] items IH]; simpl; by constructor.
Qed.

Lemma distributionList_ids (newLeads : list Lead.t) (cs : list string) :
  (distributionList newLeads cs).*1 = Lead.id <$> newLeads.
Proof. unfold distributionList. rewrite fmap_imap. simpl. apply imap_const. Qed.

Lemma distributionList_length (newLeads : list Lead.t) (cs : list string) :
  length (distributionList newLeads cs) = length newLeads.
Proof. unfold distributionList. apply length_imap. Qed.

Lemma distributionList_counselors (newLeads : list Lead.t) (cs : list string) :
  (distributionList newLeads cs).*2
  = (λ i, default "" (cs !! (i mod length cs))) <$> seq 0 (length newLeads).
Proof.
  unfold distributionList. rewrite fmap_imap. simpl.
  apply list_eq. intros i. rewrite list_lookup_imap, list_lookup_fmap.
  destruct (newLeads !! i) as [lead|] eqn:E; simpl.
  - rewrite lookup_seq_lt by (by eapply lookup_lt_Some). done.
  - rewrite lookup_seq_ge by (by apply lookup_ge_None). done.
Qed.

(** What a click on the button does to the store when there are counselors
    and new leads. *)
Lemma handleDistribute_store (JSON_stringify : Json → string)
    (JSON_parse : string → option Json) (s : Store) (ls : list Lead.t) (cs : list string) :
  let newLeads := filter (λ lead, Lead.stage lead = New) ls in
  let items := distributionList newLeads cs in
  JSON_stringify (distribution_json items) ≠ "" →
  JSON_parse (JSON_stringify (distribution_json items)) = Some (distribution_json items) →
  0 < length cs → 0 < length newLeads →
  handleDistribute JSON_stringify JSON_parse ls cs s
  = (Return (Submitted (mkBulkUpdateState
                          (Some (String_of_nat (length newLeads)
                                   +:+ " leads have been distributed successfully."))
                          None)),
     mkStore ((λ lead, match Map_of_entries items !! Lead.id lead with
                       | Some u => set_assignedUserId u lead
                       | None => lead
                       end) <$> leads s)
       (PlaceHolderImages s) (users s) (random s)).
Proof.
  intros newLeads items Hne Hrt Hk Hn. unfold handleDistribute.
  fold newLeads. rewrite bool_decide_eq_false_2 by lia. fold items.
  unfold bulkUpdateLeadsAction. run.
  destruct (decide (JSON_stringify (distribution_json items) = "")) as [|_]; [done|].
  rewrite bool_decide_eq_true_2 by done. simpl. rewrite Hrt. simpl.
  unfold bulkUpdateLeadsSchema. rewrite z_distributionList_json. simpl.
  rewrite bool_decide_eq_true_2 by (unfold items; rewrite distributionList_length; lia).
  unfold bulkUpdateLeads. run. unfold items at 1. by rewrite distributionList_length.
Qed.

Lemma received_after_assignment (s : Store) (items : list (string * string)) (c : string) :
  NoDup (Lead.id <$> leads s) → NoDup items.*1 → items.*1 ⊆ Lead.id <$> leads s →
  length (filter (λ lead, Lead.id lead ∈ items.*1 ∧ Lead.assignedUserId lead = c)
            ((λ lead, match Map_of_entries items !! Lead.id lead with
                      | Some u => set_assignedUserId u lead
                      | None => lead
                      end) <$> leads s))
  = length (filter (λ u, u = c) items.*2).
Proof.
  intros Hs Hnd Hsub.
  rewrite count_fmap.
  rewrite (count_ext _ (λ lead, Lead.id lead ∈ items.*1
                                ∧ Map_of_entries items !! Lead.id lead = Some c)).
  2:{ intros lead _. destruct (Map_of_entries items !! Lead.id lead) as [u|] eqn:E; simpl.
      - split; intros [? ?]; split; congruence.
      - split; intros [Hin ?]; [|done]. exfalso.
        apply list_elem_of_fmap in Hin as ([k v] & Hk & Hin). simpl in Hk.
        unfold Map_of_entries in E. rewrite Hk in E.
        by rewrite (Map_of_entries_foldl_in _ _ k v) in E. }
  trans (length (filter (λ x, x ∈ items.*1 ∧ Map_of_entries items !! x = Some c)
                   (Lead.id <$> leads s))).
  { by rewrite count_fmap. }
  rewrite count_sublist by done.
  rewrite count_fmap.
  rewrite (count_ext _ (λ e, e.2 = c)).
  2:{ intros [k v] Hin. simpl. unfold Map_of_entries.
      rewrite (Map_of_entries_foldl_in _ _ k v) by done. split; congruence. }
  by rewrite count_fmap.
Qed.

(** The round robin on a store whose leads have distinct ids: the dialog
    distributes the [n] new leads among the [k] selected counselors;
    afterwards the counselor at position [j] of the selection holds [n / k]
    of the distributed leads, and one more when [j < n mod k], so that the
    counts add up to [n].  The selection names each counselor once and the
    distributed leads are leads of the store. *)
Theorem round_robin_distribution (JSON_stringify : Json → string)
    (JSON_parse : string → option Json) (s : Store) (ls : list Lead.t) (cs : list string) :
  let newLeads := filter (λ lead, Lead.stage lead = New) ls in
  let ids := Lead.id <$> newLeads in
  let n := length newLeads in
  let k := length cs in
  let json := distribution_json (distributionList newLeads cs) in
  JSON_stringify json ≠ "" → JSON_parse (JSON_stringify json) = Some json →
  NoDup cs → 0 < k →
  NoDup (Lead.id <$> leads s) → NoDup ids → ids ⊆ Lead.id <$> leads s →
  let s' := (handleDistribute JSON_stringify JSON_parse ls cs s).2 in
  (∀ j c, cs !! j = Some c →
     received s' ids c = n / k + (if bool_decide (j < n mod k) then 1 else 0))
  ∧ sum_list (received s' ids <$> cs) = n.
Proof.
  intros newLeads ids n k json Hne Hrt Hcs Hk Hs Hids Hsub s'.
  assert (Hcount : ∀ j c, cs !! j = Some c →
            received s' ids c = n / k + (if bool_decide (j < n mod k) then 1 else 0)).
  { intros j c Hj. pose proof (lookup_lt_Some _ _ _ Hj) as Hjk. fold k in Hjk.
    destruct (decide (n = 0)) as [Hn0|Hn0].
    - unfold received. assert (ids = []) as ->.
      { unfold ids. apply length_zero_iff_nil in Hn0. by rewrite Hn0. }
      rewrite Hn0, Nat.Div0.div_0_l, Nat.Div0.mod_0_l.
      rewrite bool_decide_eq_false_2 by lia. simpl.
      rewrite (count_ext _ (λ _, False)); [|intros lead _; rewrite elem_of_nil; tauto].
      by induction (leads s').
    - unfold received, s'. fold newLeads.
      rewrite (handleDistribute_store JSON_stringify JSON_parse s ls cs);
        [|done|done|lia|fold newLeads; fold n; lia]. simpl. fold newLeads.
      unfold ids. rewrite <- (distributionList_ids newLeads cs).
      rewrite received_after_assignment;
        [|done|by rewrite distributionList_ids|by rewrite distributionList_ids].
      rewrite distributionList_counselors, count_fmap. fold n k.
      rewrite <- (count_mod k j n Hjk). apply count_ext.
      intros i _.
      pose proof (Nat.mod_upper_bound i k ltac:(lia)) as Hi.
      destruct (lookup_lt_is_Some_2 cs (i mod k) Hi) as [c' Hc']. rewrite Hc'. simpl.
      split.
      + intros ->. by apply (NoDup_lookup cs (i mod k) j c).
      + intros Heq. rewrite Heq in Hc'. congruence. }
  split; [done|].
  trans (sum_list ((λ j, n / k + (if bool_decide (j < n mod k) then 1 else 0)) <$> seq 0 k)).
  - f_equal. apply list_eq. intros j. rewrite !list_lookup_fmap.
    destruct (cs !! j) as [c|] eqn:Hj; simpl.
    + rewrite lookup_seq_lt by (by eapply lookup_lt_Some). simpl. f_equal. by apply Hcount.
    + rewrite lookup_seq_ge by (by apply lookup_ge_None). done.
  - rewrite sum_quota.
    pose proof (Nat.div_mod n k ltac:(lia)).
    pose proof (Nat.mod_upper_bound n k ltac:(lia)). lia.
Qed.

Lemma round_robin_distribution_witness :
  received distributedStore ["001"; "003"; "005"] "user-5" = 2
  ∧ received distributedStore ["001"; "003"; "005"] "user-6" = 1
  ∧ sum_list (received distributedStore ["001"; "003"; "005"] <$> sampleCounselors) = 3.
Proof.
  destruct (round_robin_distribution sample_stringify sample_parse fiveLeadStore
              (leads fiveLeadStore) sampleCounselors) as [Hcount Hsum].
  - vm_compute. discriminate.
  - vm_compute. reflexivity.
  - decide_by_compute.
  - vm_compute. lia.
  - decide_by_compute.
  - decide_by_compute.
  - decide_by_compute.
  - split_and!.
    + exact (Hcount 0 "user-5" eq_refl).
    + exact (Hcount 1 "user-6" eq_refl).
    + exact Hsum.
Defined.

(** C3: the round robin fails on a store that holds two leads with one id,
    which [addLead] produces after a bulk delete.  From the 100 generated
    leads, all but ["002"] and ["003"] are deleted and a lead is added; it
    gets the id ["003"] again.  The two new leads, both with the id ["003"],
    are distributed among two counselors: the dialog sends one entry for
    each counselor and the action reports two distributed leads, but both
    leads go to the second counselor, since the assignment is looked up by
    lead id and the later entry replaces the earlier one.  The first
    counselor receives none of the two leads and the second receives both,
    where [2 / 2 = 1] lead each is due. *)
Theorem round_robin_fails_on_reused_id :
  Lead.id <$> leads reusedIdStore = ["003"; "002"; "003"]
  ∧ Lead.stage <$> leads reusedIdStore = [New; Contacted; New]
  ∧ distributionList (filter (λ lead, Lead.stage lead = New) (leads reusedIdStore))
      sampleCounselors
    = [("003", "user-5"); ("003", "user-6")]
  ∧ (handleDistribute sample_stringify reusedId_parse (leads reusedIdStore) sampleCounselors
       reusedIdStore).1
    = Return (Submitted (mkBulkUpdateState
                           (Some "2 leads have been distributed successfully.") None))
  ∧ Lead.assignedUserId
      <$> leads (handleDistribute sample_stringify reusedId_parse (leads reusedIdStore)
                   sampleCounselors reusedIdStore).2
    = ["user-6"; "user-5"; "user-6"]
  ∧ received (handleDistribute sample_stringify reusedId_parse (leads reusedIdStore)
                sampleCounselors reusedIdStore).2 ["003"; "003"] "user-5" = 0
  ∧ received (handleDistribute sample_stringify reusedId_parse (leads reusedIdStore)
                sampleCounselors reusedIdStore).2 ["003"; "003"] "user-6" = 2
  ∧ 2 / length sampleCounselors = 1
  ∧ 2 mod length sampleCounselors = 0.
Proof. split_and!; vm_compute; reflexivity. Qed.

(** ** The Kanban priority sort *)

Section sortBy.
Context {A : Type} (cmp : A → A → Z).
Hypothesis cmp_total : ∀ a b, notAfter cmp a b ∨ notAfter cmp b a.
Hypothesis cmp_trans : ∀ a b c, notAfter cmp a b → notAfter cmp b c → notAfter cmp a c.

Lemma insertBy_Permutation (x : A) (l : list A) : insertBy cmp x l ≡ₚ x :: l.
Proof.
  induction l as [|y l IH]; simpl; [done|].
  destruct (cmp x y <=? 0)%Z; [done|].
  by rewrite IH, Permutation_swap.
Qed.

Lemma sortBy_Permutation (l : list A) : sortBy cmp l ≡ₚ l.
Proof.
  induction l as [|x l IH]; simpl; [done|].
  by rewrite insertBy_Permutation, IH.
Qed.

Lemma insertBy_StronglySorted (x : A) (l : list A) :
  StronglySorted (notAfter cmp) l → StronglySorted (notAfter cmp) (insertBy cmp x l).
Proof.
  induction 1 as [|y l Hl IH Hy]; simpl.
  - repeat constructor.
  - destruct (cmp x y <=? 0)%Z eqn:E.
    + apply Z.leb_le in E. constructor; [by constructor|].
      constructor; [done|]. eapply Forall_impl; [exact Hy|].
      intros z Hz. by eapply cmp_trans.
    + apply Z.leb_gt in E. constructor; [done|].
      rewrite insertBy_Permutation. constructor; [|done].
      destruct (cmp_total x y) as [H|H]; [unfold notAfter in H; lia|done].
Qed.

(** For a consistent comparator the sorted array is ordered by it. *)
Lemma sortBy_StronglySorted (l : list A) : StronglySorted (notAfter cmp) (sortBy cmp l).
Proof.
  induction l as [|x l IH]; simpl; [constructor|]. by apply insertBy_StronglySorted.
Qed.

Lemma sortBy_head_notAfter (l : list A) (x y : A) :
  head (sortBy cmp l) = Some x → y ∈ l → notAfter cmp x y.
Proof.
  intros Hh Hy. pose proof (sortBy_StronglySorted l) as Hs.
  rewrite <- sortBy_Permutation in Hy.
  destruct (sortBy cmp l) as [|z l']; simplify_eq/=.
  apply StronglySorted_cons in Hs as [Hf _].
  apply elem_of_cons in Hy as [->|Hy].
  - destruct (cmp_total x x); done.
  - rewrite Forall_forall in Hf. by apply Hf.
Qed.
End sortBy.

Lemma StronglySorted_lookup {A} (R : A → A → Prop) (l : list A) (i j : nat) (a b : A) :
  StronglySorted R l → i < j → l !! i = Some a → l !! j = Some b → R a b.
Proof.
  intros Hs. revert i j. induction Hs as [|x l Hs IH Hx]; intros i j Hij Hi Hj.
  - by rewrite lookup_nil in Hi.
  - destruct j as [|j]; [lia|]. destruct i as [|i]; simplify_eq/=.
    + rewrite Forall_forall in Hx. apply Hx. by eapply list_elem_of_lookup_2.
    + apply (IH i j); [lia|done..].
Qed.

Lemma comparePriority_total (a b : Lead.t) :
  (comparePriority a b ≤ 0)%Z ∨ (comparePriority b a ≤ 0)%Z.
Proof.
  unfold comparePriority.
  destruct (getNextFollowUp a), (getNextFollowUp b); repeat case_decide; lia.
Qed.

Lemma comparePriority_trans (a b c : Lead.t) :
  (comparePriority a b ≤ 0)%Z → (comparePriority b c ≤ 0)%Z → (comparePriority a c ≤ 0)%Z.
Proof.
  unfold comparePriority.
  destruct (getNextFollowUp a), (getNextFollowUp b), (getNextFollowUp c);
    repeat case_decide; lia.
Qed.

Lemma comparePriority_asym (a b : Lead.t) :
  (comparePriority a b ≤ 0)%Z → ¬ (comparePriority b a < 0)%Z.
Proof.
  unfold comparePriority.
  destruct (getNextFollowUp a), (getNextFollowUp b); repeat case_decide; lia.
Qed.

Lemma priorityOrder_inj (p q : Priority) : priorityOrder p = priorityOrder q → p = q.
Proof. by destruct p, q. Qed.

Lemma getNextFollowUp_Some_iff (lead : Lead.t) :
  is_Some (getNextFollowUp lead) ↔ spec_hasPendingFollowUp lead.
Proof.
  unfold getNextFollowUp, spec_hasPendingFollowUp.
  set (cmp := λ a b : Task.t, (Task.dueDate a - Task.dueDate b)%Z).
  set (pending := filter _ _).
  split.
  - intros [t Ht]. exists t.
    assert (t ∈ pending) as Hin.
    { rewrite <- (sortBy_Permutation cmp). destruct (sortBy cmp pending); simplify_eq/=.
      by left. }
    apply list_elem_of_filter in Hin as [[? ?] ?]. done.
  - intros (t & Hin & Hty & Hst).
    assert (t ∈ sortBy cmp pending) as Hin'.
    { rewrite sortBy_Permutation. apply list_elem_of_filter. done. }
    destruct (sortBy cmp pending); [by apply elem_of_nil in Hin'|]. by eexists.
Qed.

Lemma getNextFollowUp_None_iff (lead : Lead.t) :
  getNextFollowUp lead = None ↔ ¬ spec_hasPendingFollowUp lead.
Proof. rewrite <- getNextFollowUp_Some_iff, eq_None_not_Some. done. Qed.

(** The next follow-up is a pending Follow-up task of the lead, and none of
    them is due earlier. *)
Lemma getNextFollowUp_earliest (lead : Lead.t) (t : Task.t) :
  getNextFollowUp lead = Some t →
  t ∈ Lead.tasks lead ∧ Task.type t = FollowUp ∧ Task.status t = Pending
  ∧ ∀ t', t' ∈ Lead.tasks lead → Task.type t' = FollowUp → Task.status t' = Pending →
          (Task.dueDate t ≤ Task.dueDate t')%Z.
Proof.
  unfold getNextFollowUp.
  set (cmp := λ a b : Task.t, (Task.dueDate a - Task.dueDate b)%Z).
  set (pending := filter _ _). intros Hh.
  assert (t ∈ pending) as Hin.
  { rewrite <- (sortBy_Permutation cmp). destruct (sortBy cmp pending); simplify_eq/=.
    by left. }
  apply list_elem_of_filter in Hin as [[Hty Hst] Hin]. split_and!; try done.
  intros t' Hin' Hty' Hst'.
  assert (notAfter cmp t t') as Hle; [|unfold notAfter, cmp in Hle; lia].
  eapply (sortBy_head_notAfter cmp); [unfold notAfter, cmp; lia..|exact Hh|].
  apply list_elem_of_filter. done.
Qed.

(** On a lead whose activities are newest first, the first activity is the
    most recent one. *)
Lemma mostRecentActivity_lastActivity (lead : Lead.t) (z : Z) :
  newestFirst lead → spec_mostRecentActivity lead z ↔ z = lastActivity lead.
Proof.
  unfold newestFirst, spec_mostRecentActivity, lastActivity.
  destruct (Lead.activities lead) as [|first rest]; [done|].
  rewrite Forall_forall. intros Hnf. split.
  - intros [(act & Hin & <-) Hmax].
    apply elem_of_cons in Hin as [->|Hin]; [done|].
    specialize (Hnf act Hin). specialize (Hmax first (list_elem_of_here _ _)). lia.
  - intros ->. split; [exists first; split; [left|done]|].
    intros act [->|Hin]%elem_of_cons; [lia|by apply Hnf].
Qed.

(** The comparator is negative exactly when the specification puts the
    first lead before the second. *)
Lemma comparePriority_sortsBefore (a b : Lead.t) :
  newestFirst a → newestFirst b →
  (comparePriority a b < 0)%Z ↔ spec_sortsBefore a b.
Proof.
  intros Ha Hb. split.
  - unfold comparePriority.
    destruct (getNextFollowUp a) as [ta|] eqn:Ea, (getNextFollowUp b) as [tb|] eqn:Eb.
    + case_decide as Hp; intros Hlt.
      * eapply higher_priority; [done..|lia].
      * eapply earlier_due; [done..| |lia]. apply priorityOrder_inj.
        destruct (decide (priorityOrder (Task.priority ta)
                          = priorityOrder (Task.priority tb))); [done|].
        by destruct Hp.
    + intros _. apply followUp_first.
      * apply getNextFollowUp_Some_iff. by rewrite Ea.
      * by apply getNextFollowUp_None_iff.
    + lia.
    + intros Hlt. eapply (more_recent _ _ (lastActivity a) (lastActivity b));
        [by apply getNextFollowUp_None_iff..| | |lia].
      * by apply mostRecentActivity_lastActivity.
      * by apply mostRecentActivity_lastActivity.
  - intros [Hfa Hfb|ta tb Ea Eb Hp|ta tb Ea Eb Hp Hd|za zb Hfa Hfb Hza Hzb Hlt];
      unfold comparePriority.
    + apply getNextFollowUp_Some_iff in Hfa as [ta ->].
      apply getNextFollowUp_None_iff in Hfb as ->. lia.
    + rewrite Ea, Eb. case_decide; lia.
    + rewrite Ea, Eb, Hp. case_decide; [done|lia].
    + apply getNextFollowUp_None_iff in Hfa as ->.
      apply getNextFollowUp_None_iff in Hfb as ->.
      apply mostRecentActivity_lastActivity in Hza, Hzb; [|done..]. lia.
Qed.

(** C5: on leads whose activities are kept newest first, the priority sort
    returns the same leads, ordered by the precedence of the specification:
    no lead stands behind a lead it sorts before.  Leads with a pending
    follow-up sort before leads without; two leads with one are ordered by
    the priority of their next follow-up, then by its due date; two leads
    without are ordered by their most recent activity (or creation),
    latest first.  The comparator of the code is negative exactly on the
    pairs this precedence orders, so any two leads are ordered one way, the
    other way, or tie. *)
Theorem sortLeadsByPriority_order (ls : list Lead.t) :
  Forall newestFirst ls →
  sortLeadsByPriority ls ≡ₚ ls
  ∧ (∀ i j a b, i < j →
       sortLeadsByPriority ls !! i = Some a → sortLeadsByPriority ls !! j = Some b →
       ¬ spec_sortsBefore b a)
  ∧ (∀ a b, a ∈ ls → b ∈ ls →
       ((comparePriority a b < 0)%Z ↔ spec_sortsBefore a b)
       ∧ (spec_sortsBefore a b ∨ spec_sortsBefore b a ∨ comparePriority a b = 0%Z)).
Proof.
  intros Hnf. rewrite Forall_forall in Hnf. split_and!.
  - apply sortBy_Permutation.
  - intros i j a b Hij Hi Hj Hsb.
    pose proof (sortBy_StronglySorted comparePriority comparePriority_total
                  comparePriority_trans ls) as Hs.
    assert (a ∈ ls) as Ha.
    { rewrite <- (sortBy_Permutation comparePriority). by eapply list_elem_of_lookup_2. }
    assert (b ∈ ls) as Hb.
    { rewrite <- (sortBy_Permutation comparePriority). by eapply list_elem_of_lookup_2. }
    apply comparePriority_sortsBefore in Hsb; [|by apply Hnf..].
    revert Hsb. apply comparePriority_asym.
    by apply (StronglySorted_lookup _ _ i j a b Hs).
  - intros a b Ha Hb. split; [apply comparePriority_sortsBefore; by apply Hnf|].
    destruct (Z.lt_trichotomy (comparePriority a b) 0) as [Hlt|[Heq|Hgt]].
    + left. apply comparePriority_sortsBefore; [by apply Hnf..|done].
    + by right; right.
    + right; left. apply comparePriority_sortsBefore; [by apply Hnf..|].
      destruct (comparePriority_total b a) as [Hle|Hle]; [|lia].
      destruct (Z.lt_trichotomy (comparePriority b a) 0) as [?|[Heq|?]]; [done| |lia].
      exfalso. revert Hgt Heq. unfold comparePriority.
      destruct (getNextFollowUp a), (getNextFollowUp b); repeat case_decide; lia.
Qed.

Lemma sortLeadsByPriority_order_witness :
  Lead.id <$> sortLeadsByPriority (leads fiveLeadStore) = ["002"; "005"; "001"; "004"; "003"]
  ∧ sortLeadsByPriority (leads fiveLeadStore) ≡ₚ leads fiveLeadStore
  ∧ ¬ spec_sortsBefore (generatedLead 1 (sampleDraw 0)) (generatedLead 2 (sampleDraw 1)).
Proof.
  destruct (sortLeadsByPriority_order (leads fiveLeadStore)) as (Hperm & Hsorted & _).
  - decide_by_compute.
  - split_and!; [vm_compute; reflexivity|exact Hperm|].
    apply (Hsorted 0 2); [lia|vm_compute; reflexivity..].
Defined.

(** ** Missed follow-ups *)

Lemma hasTodaysFollowUp_iff (localDay : Z → Z) (now : Z) (lead : Lead.t) :
  hasTodaysFollowUp localDay now lead ↔
  ∃ t, t ∈ Lead.tasks lead ∧ Task.type t = FollowUp ∧ Task.status t = Pending
       ∧ localDay (Task.dueDate t) = localDay now.
Proof. unfold hasTodaysFollowUp, isToday. by rewrite Exists_exists. Qed.

Lemma hasBeenContactedToday_iff (localDay : Z → Z) (now : Z) (lead : Lead.t) :
  ¬ hasBeenContactedToday localDay now lead ↔
  ∀ a, a ∈ Lead.activities lead → localDay (Activity.timestamp a) ≠ localDay now.
Proof.
  unfold hasBeenContactedToday, isToday. rewrite Exists_exists. split.
  - intros Hno a Ha Heq. apply Hno. by exists a.
  - intros Hall (a & Ha & Heq). by apply (Hall a).
Qed.

(** C7: a lead qualifies when one of its tasks is a Pending Follow-up due
    on the current calendar day and none of its activities is of the current
    calendar day.  The lead the dashboard surfaces is the first qualifying
    lead of the collection, and no lead is surfaced exactly when no lead
    qualifies. *)
Theorem missed_follow_up_detection (localDay : Z → Z) (now : Z) (allLeads : list Lead.t) :
  let qualifies := λ lead : Lead.t,
    (∃ t, t ∈ Lead.tasks lead ∧ Task.type t = FollowUp ∧ Task.status t = Pending
          ∧ localDay (Task.dueDate t) = localDay now)
    ∧ (∀ a, a ∈ Lead.activities lead → localDay (Activity.timestamp a) ≠ localDay now) in
  match leadToFollowUp localDay now allLeads with
  | Some lead =>
      ∃ i, allLeads !! i = Some lead ∧ qualifies lead
           ∧ ∀ j other, allLeads !! j = Some other → j < i → ¬ qualifies other
  | None => ∀ lead, lead ∈ allLeads → ¬ qualifies lead
  end.
Proof.
  intros qualifies.
  assert (Hq : ∀ lead, hasTodaysFollowUp localDay now lead
                       ∧ ¬ hasBeenContactedToday localDay now lead ↔ qualifies lead).
  { intros lead. unfold qualifies.
    by rewrite hasTodaysFollowUp_iff, hasBeenContactedToday_iff. }
  unfold leadToFollowUp.
  destruct (list_find _ allLeads) as [[i lead]|] eqn:Hf; simpl.
  - apply list_find_Some in Hf as (Hi & HP & Hbefore).
    exists i. split_and!; [done|by apply Hq|].
    intros j other Hj Hlt Hqo. apply (Hbefore j other Hj Hlt). by apply Hq.
  - intros lead Hin Hql. apply list_find_None in Hf.
    rewrite Forall_forall in Hf. apply (Hf lead Hin). by apply Hq.
Qed.

(** At the instant 86 400 000 the follow-ups of the generated leads, due on
    day 0, are not of the current day; at the instant 5 000 they are, but
    every generated lead has an activity of that day; once the activities of
    the leads are cleared, the first lead with a follow-up is surfaced. *)
Example leadToFollowUp_samples :
  leadToFollowUp utcDay 86400000 (leads fiveLeadStore) = None
  ∧ leadToFollowUp utcDay 5000 (leads fiveLeadStore) = None
  ∧ Lead.id <$> leadToFollowUp utcDay 5000
                  (set_activities [] <$> drop 2 (leads fiveLeadStore)) = Some "004".
Proof. split_and!; vm_compute; reflexivity. Qed.
(** ** More on the store *)

Lemma generateLeads_leads (count : nat) (s : Store) :
  leads s = [] →
  leads (generateLeads count s).2
  = imap (λ k d, generatedLead (S k) d) (random s <$> seq 0 count).
Proof. intros E. unfold generateLeads. run. by rewrite E. Qed.

Lemma getLeads_empty (s : Store) :
  leads s = [] → (getLeads s).2 = (generateLeads 100 s).2.
Proof.
  intros E. unfold getLeads. run. rewrite E. simpl.
  by rewrite generateLeads_returns.
Qed.

(** X1: the first read of a store that holds no lead generates the 100 leads
    with the ids ["001"] to ["100"], in this order and so pairwise distinct,
    and returns the list it has stored. *)
Theorem getLeads_first_read (s : Store) :
  leads s = [] →
  Lead.id <$> leads (getLeads s).2 = (λ i, padStart 3 (String_of_nat i)) <$> seq 1 100
  ∧ NoDup (Lead.id <$> leads (getLeads s).2)
  ∧ (getLeads s).1 = Return (leads (getLeads s).2).
Proof.
  intros E.
  assert (Lead.id <$> leads (getLeads s).2
          = (λ i, padStart 3 (String_of_nat i)) <$> seq 1 100) as Hids.
  { rewrite getLeads_empty, generateLeads_leads by done.
    rewrite fmap_imap. apply list_eq. intros i.
    rewrite list_lookup_imap, !list_lookup_fmap.
    destruct (decide (i < 100)) as [Hi|Hi].
    - rewrite !lookup_seq_lt by done. done.
    - rewrite !lookup_seq_ge by lia. done. }
  split_and!; [done| |].
  - rewrite Hids. decide_by_compute.
  - destruct (getLeads_spec s) as (s' & -> & _). done.
Qed.

Lemma getLeads_first_read_witness :
  Lead.id <$> leads (getLeads freshStore).2
  = (λ i, padStart 3 (String_of_nat i)) <$> seq 1 100
  ∧ NoDup (Lead.id <$> leads (getLeads freshStore).2)
  ∧ (getLeads freshStore).1 = Return (leads (getLeads freshStore).2).
Proof. apply (getLeads_first_read freshStore). reflexivity. Defined.

Lemma sortBy_newest_first (acts : list Activity.t) :
  match sortBy (λ a b, Activity.timestamp b - Activity.timestamp a)%Z acts with
  | [] => True
  | first :: rest =>
      Forall (λ act, (Activity.timestamp act ≤ Activity.timestamp first)%Z) rest
  end.
Proof.
  set (cmp := λ a b : Activity.t, (Activity.timestamp b - Activity.timestamp a)%Z).
  pose proof (sortBy_StronglySorted cmp) as Hs.
  specialize (Hs ltac:(intros a b; unfold notAfter, cmp; lia)
                 ltac:(intros a b c; unfold notAfter, cmp; lia) acts).
  destruct (sortBy cmp acts) as [|first rest]; [done|].
  apply StronglySorted_cons in Hs as [Hf _].
  eapply Forall_impl; [exact Hf|]. intros act. unfold notAfter, cmp. lia.
Qed.

Lemma generatedLead_newestFirst (i : nat) (d : Draw.t) : newestFirst (generatedLead i d).
Proof. unfold newestFirst. simpl. apply sortBy_newest_first. Qed.

Lemma generatedLead_tasks (i : nat) (d : Draw.t) :
  length (Lead.tasks (generatedLead i d)) ≤ 1
  ∧ Forall (λ t, Task.leadId t = Lead.id (generatedLead i d)
                 ∧ Task.type t = FollowUp ∧ Task.status t = Pending)
      (Lead.tasks (generatedLead i d))
  ∧ (Lead.stage (generatedLead i d) = Enrolled ∨ Lead.stage (generatedLead i d) = Dropped →
     Lead.tasks (generatedLead i d) = []).
Proof.
  simpl. destruct (Draw.stage d), (Draw.task d) as [[[due prio] assignee]|]; simpl;
    split_and!; try lia; try done; try (by repeat constructor);
    intros [?|?]; done.
Qed.

Lemma elem_of_generated (s : Store) (lead : Lead.t) :
  leads s = [] → lead ∈ leads (getLeads s).2 → ∃ i d, lead = generatedLead i d.
Proof.
  intros E Hin. rewrite getLeads_empty, generateLeads_leads in Hin by done.
  apply list_elem_of_lookup in Hin as [k Hk].
  rewrite list_lookup_imap in Hk.
  destruct ((random s <$> seq 0 100) !! k) as [d|]; simplify_eq/=. eauto.
Qed.

(** X2: every generated lead keeps its activities newest first, has at most
    one task, which is a Pending Follow-up that carries the id of the lead,
    has no task at all in the stages Enrolled and Dropped, and has no
    document. *)
Theorem generated_leads_wellformed (s : Store) :
  leads s = [] →
  Forall (λ lead,
            newestFirst lead
            ∧ length (Lead.tasks lead) ≤ 1
            ∧ Forall (λ t, Task.leadId t = Lead.id lead
                           ∧ Task.type t = FollowUp ∧ Task.status t = Pending)
                (Lead.tasks lead)
            ∧ (Lead.stage lead = Enrolled ∨ Lead.stage lead = Dropped →
               Lead.tasks lead = [])
            ∧ Lead.documents lead = [])
         (leads (getLeads s).2).
Proof.
  intros E. apply Forall_forall. intros lead Hin.
  destruct (elem_of_generated s lead E Hin) as (i & d & ->).
  pose proof (generatedLead_tasks i d) as (? & ? & ?).
  split_and!; try done. apply generatedLead_newestFirst.
Qed.

Lemma generated_leads_wellformed_witness :
  Forall (λ lead,
            newestFirst lead
            ∧ length (Lead.tasks lead) ≤ 1
            ∧ Forall (λ t, Task.leadId t = Lead.id lead
                           ∧ Task.type t = FollowUp ∧ Task.status t = Pending)
                (Lead.tasks lead)
            ∧ (Lead.stage lead = Enrolled ∨ Lead.stage lead = Dropped →
               Lead.tasks lead = [])
            ∧ Lead.documents lead = [])
         (leads (getLeads freshStore).2).
Proof. apply (generated_leads_wellformed freshStore). reflexivity. Defined.

Lemma list_find_insert_other {A} (Q : A → Prop) `{!∀ x, Decision (Q x)}
    (l : list A) (i : nat) (x y : A) :
  l !! i = Some x → ¬ Q x → ¬ Q y →
  snd <$> list_find Q (<[i:=y]> l) = snd <$> list_find Q l.
Proof.
  revert i. induction l as [|a l IH]; intros [|i] Hi Hx Hy; simplify_eq/=; try done.
  - rewrite !decide_False by done.
    by destruct (list_find Q l) as [[??]|].
  - destruct (decide (Q a)); [done|].
    specialize (IH i Hi Hx Hy).
    destruct (list_find Q (<[i:=y]> l)) as [[??]|], (list_find Q l) as [[??]|];
      simplify_eq/=; done.
Qed.

Lemma list_find_insert_same {A} (P : A → Prop) `{!∀ x, Decision (P x)}
    (l : list A) (i : nat) (x y : A) :
  list_find P l = Some (i, x) → P y → list_find P (<[i:=y]> l) = Some (i, y).
Proof.
  intros Hf Hy. apply list_find_Some in Hf as (Hi & Hx & Hbefore).
  apply list_find_Some. split_and!; [|done|].
  - apply list_lookup_insert_eq. by eapply lookup_lt_Some.
  - intros j z Hj Hlt. rewrite list_lookup_insert_ne in Hj by lia. eauto.
Qed.

Lemma insert_nonempty {A} (l : list A) (i : nat) (x : A) : l ≠ [] → <[i:=x]> l ≠ [].
Proof. destruct l, i; done. Qed.

Lemma findLead_nonempty (leadId : string) (s : Store) :
  leads s ≠ [] →
  findLead leadId s = (Return (snd <$> list_find (λ l, Lead.id l = leadId) (leads s)), s).
Proof. intros Hne. unfold findLead. run. by rewrite getLeads_nonempty. Qed.

Lemma findLead_fst (leadId : string) (s : Store) :
  (findLead leadId s).1
  = Return (snd <$> list_find (λ l, Lead.id l = leadId) (leads (getLeads s).2)).
Proof.
  destruct (findLead_spec leadId s) as (s1 & Hg & _ & _ & ->). by rewrite Hg.
Qed.

Lemma updateLead_found (u : LeadPartial.t) (s : Store) (i : nat) (l : Lead.t) :
  list_find (λ lead, Lead.id lead = LeadPartial.id u) (leads (getLeads s).2) = Some (i, l) →
  updateLead u s
  = (Return (Some (spread l u)),
     mkStore (<[i := spread l u]> (leads (getLeads s).2)) (PlaceHolderImages (getLeads s).2)
       (users (getLeads s).2) (random (getLeads s).2)).
Proof.
  destruct (getLeads_spec s) as (s1 & Hg & _ & _). rewrite Hg. simpl. intros Hf.
  unfold updateLead. run. rewrite Hg. simpl. by rewrite Hf.
Qed.

Lemma updateLead_not_found (u : LeadPartial.t) (s : Store) :
  list_find (λ lead, Lead.id lead = LeadPartial.id u) (leads (getLeads s).2) = None →
  updateLead u s = (Return None, (getLeads s).2).
Proof.
  destruct (getLeads_spec s) as (s1 & Hg & _ & _). rewrite Hg. simpl. intros Hf.
  unfold updateLead. run. rewrite Hg. simpl. by rewrite Hf.
Qed.

Lemma getLeads_snd_nonempty (s : Store) : leads (getLeads s).2 ≠ [].
Proof. destruct (getLeads_spec s) as (s1 & -> & Hne & _). done. Qed.

(** X3: [addLead] returns the lead it stores.  A lookup by the new id finds
    the new lead, the lookup of every other id answers as before, the store
    holds one lead more than a read of it gave, and the lead carries the
    submitted name, e-mail and source, the current instant as creation time,
    and activities that are newest first. *)
Theorem addLead_then_findLead (now : Z) (lead : NewLead.t) (s : Store) :
  ∃ newLead s',
    addLead now lead s = (Return newLead, s')
    ∧ (findLead (Lead.id newLead) s').1 = Return (Some newLead)
    ∧ (∀ x, x ≠ Lead.id newLead → (findLead x s').1 = (findLead x s).1)
    ∧ length (leads s') = S (length (leads (getLeads s).2))
    ∧ Lead.name newLead = NewLead.name lead
    ∧ Lead.email newLead = NewLead.email lead
    ∧ Lead.source newLead = NewLead.source lead
    ∧ Lead.createdAt newLead = now
    ∧ newestFirst newLead.
Proof.
  destruct (getLeads_spec s) as (s1 & Hg & Hne & _).
  destruct (addLead now lead s) as [r s'] eqn:Ha.
  unfold addLead in Ha. revert Ha. run. rewrite Hg. simpl. intros [= <- <-].
  eexists _, _. split; [reflexivity|].
  split_and!; try done.
  - rewrite findLead_nonempty by done. cbn [leads list_find]. by rewrite decide_True.
  - intros x Hx. rewrite findLead_nonempty by done. rewrite findLead_fst, Hg.
    cbn [leads list_find snd]. rewrite decide_False by (intros E; apply Hx; by rewrite <- E).
    by destruct (list_find _ (leads s1)) as [[??]|].
  - unfold newestFirst. simpl. constructor.
Qed.

(** X4: whatever the request, [updateLead] keeps the ids of the stored leads
    and their order, leaves the lookup of every id other than the one of the
    request as it was, and adds no image. *)
Theorem updateLead_frame (u : LeadPartial.t) (s : Store) :
  Lead.id <$> leads (updateLead u s).2 = Lead.id <$> leads (getLeads s).2
  ∧ (∀ x, x ≠ LeadPartial.id u → (findLead x (updateLead u s).2).1 = (findLead x s).1)
  ∧ PlaceHolderImages (updateLead u s).2 = PlaceHolderImages (getLeads s).2.
Proof.
  pose proof (getLeads_snd_nonempty s) as Hne.
  destruct (list_find (λ lead, Lead.id lead = LeadPartial.id u) (leads (getLeads s).2))
    as [[i l]|] eqn:Hf.
  - rewrite (updateLead_found u s i l Hf). simpl.
    pose proof Hf as Hf'. apply list_find_Some in Hf' as (Hi & Hid & _).
    split_and!; [|intros x Hx|done].
    + rewrite list_fmap_insert. simpl. apply list_insert_id.
      rewrite list_lookup_fmap, Hi. simpl. by rewrite Hid.
    + rewrite findLead_nonempty by (by apply insert_nonempty).
      rewrite findLead_fst. simpl. f_equal.
      apply (list_find_insert_other _ _ _ l); [done|congruence|simpl; congruence].
  - rewrite (updateLead_not_found u s Hf). simpl. split_and!; try done.
    intros x _. rewrite !findLead_fst. rewrite getLeads_nonempty by done. done.
Qed.

(** X5: for a lead that the lookup by the id of the request finds,
    [updateLead] returns the merge of that lead with the request, a lookup
    afterwards finds this merge, and the number of leads is unchanged. *)
Theorem updateLead_then_findLead (u : LeadPartial.t) (s : Store) (l : Lead.t) :
  (findLead (LeadPartial.id u) s).1 = Return (Some l) →
  (updateLead u s).1 = Return (Some (spread l u))
  ∧ (findLead (LeadPartial.id u) (updateLead u s).2).1 = Return (Some (spread l u))
  ∧ length (leads (updateLead u s).2) = length (leads (getLeads s).2).
Proof.
  rewrite findLead_fst. intros Hf.
  pose proof (getLeads_snd_nonempty s) as Hne.
  destruct (list_find _ (leads (getLeads s).2)) as [[i l0]|] eqn:Hlf; simplify_eq/=.
  rewrite (updateLead_found u s i l Hlf). simpl. split_and!; [done| |].
  - rewrite findLead_nonempty by (by apply insert_nonempty). simpl.
    by rewrite (list_find_insert_same _ _ i l).
  - by rewrite length_insert.
Qed.

Lemma updateLead_then_findLead_witness :
  (updateLead (LeadPartial.only "002") fiveLeadStore).1
  = Return (Some (spread (generatedLead 2 (sampleDraw 1)) (LeadPartial.only "002")))
  ∧ (findLead "002" (updateLead (LeadPartial.only "002") fiveLeadStore).2).1
    = Return (Some (spread (generatedLead 2 (sampleDraw 1)) (LeadPartial.only "002")))
  ∧ length (leads (updateLead (LeadPartial.only "002") fiveLeadStore).2)
    = length (leads (getLeads fiveLeadStore).2).
Proof.
  apply (updateLead_then_findLead (LeadPartial.only "002") fiveLeadStore
           (generatedLead 2 (sampleDraw 1))).
  vm_compute. reflexivity.
Defined.

(** ** Activities and tasks *)

Lemma addActivity_found (now : Z) (leadId : string) (data : ActivityData.t) (s : Store)
    (i : nat) (l : Lead.t) :
  list_find (λ lead, Lead.id lead = leadId) (leads (getLeads s).2) = Some (i, l) →
  addActivity now leadId data s
  = (Return (Activity.mk ("ACT-" +:+ pretty now) (ActivityData.type data) now
               (ActivityData.outcome data) (ActivityData.notes data)
               (ActivityData.userId data)),
     mkStore (<[i := set_activities
                       (Activity.mk ("ACT-" +:+ pretty now) (ActivityData.type data) now
                          (ActivityData.outcome data) (ActivityData.notes data)
                          (ActivityData.userId data) :: Lead.activities l) l]>
                (leads (getLeads s).2))
       (PlaceHolderImages (getLeads s).2) (users (getLeads s).2) (random (getLeads s).2)).
Proof.
  destruct (getLeads_spec s) as (s1 & Hg & _ & _). rewrite Hg. simpl. intros Hf.
  unfold addActivity. run. rewrite Hg. simpl. by rewrite Hf.
Qed.

Lemma addActivity_not_found (now : Z) (leadId : string) (data : ActivityData.t) (s : Store) :
  list_find (λ lead, Lead.id lead = leadId) (leads (getLeads s).2) = None →
  addActivity now leadId data s = (Throw "Lead not found", (getLeads s).2).
Proof.
  destruct (getLeads_spec s) as (s1 & Hg & _ & _). rewrite Hg. simpl. intros Hf.
  unfold addActivity. run. rewrite Hg. simpl. by rewrite Hf.
Qed.

Lemma addTask_found (now : Z) (leadId : string) (data : TaskData.t) (tasks : list Task.t)
    (s : Store) (i : nat) (l : Lead.t) :
  list_find (λ lead, Lead.id lead = leadId) (leads (getLeads s).2) = Some (i, l) →
  addTask now leadId data tasks s
  = (Return (Task.mk ("TSK-" +:+ pretty now) leadId (TaskData.type data)
               (TaskData.dueDate data) Pending (TaskData.priority data)
               (TaskData.notes data) (TaskData.assignedUserId data),
             tasks ++ [Task.mk ("TSK-" +:+ pretty now) leadId (TaskData.type data)
                         (TaskData.dueDate data) Pending (TaskData.priority data)
                         (TaskData.notes data) (TaskData.assignedUserId data)]),
     mkStore (<[i := set_tasks
                       (Lead.tasks l ++
                        [Task.mk ("TSK-" +:+ pretty now) leadId (TaskData.type data)
                           (TaskData.dueDate data) Pending (TaskData.priority data)
                           (TaskData.notes data) (TaskData.assignedUserId data)]) l]>
                (leads (getLeads s).2))
       (PlaceHolderImages (getLeads s).2) (users (getLeads s).2) (random (getLeads s).2)).
Proof.
  destruct (getLeads_spec s) as (s1 & Hg & _ & _). rewrite Hg. simpl. intros Hf.
  unfold addTask. run. rewrite Hg. simpl. by rewrite Hf.
Qed.

Lemma addTask_not_found (now : Z) (leadId : string) (data : TaskData.t) (tasks : list Task.t)
    (s : Store) :
  list_find (λ lead, Lead.id lead = leadId) (leads (getLeads s).2) = None →
  addTask now leadId data tasks s = (Throw "Lead not found", (getLeads s).2).
Proof.
  destruct (getLeads_spec s) as (s1 & Hg & _ & _). rewrite Hg. simpl. intros Hf.
  unfold addTask. run. rewrite Hg. simpl. by rewrite Hf.
Qed.

Lemma list_find_None_ids (leadId : string) (ls : list Lead.t) :
  leadId ∉ Lead.id <$> ls → list_find (λ lead, Lead.id lead = leadId) ls = None.
Proof.
  intros Hno. apply list_find_None, Forall_forall. intros lead Hin Hid.
  apply Hno, list_elem_of_fmap. by exists lead.
Qed.

(** X6: for an id that no lead has, [addActivity] and [addTask] throw
    "Lead not found" and leave the store as a read leaves it. *)
Theorem addActivity_addTask_unknown_lead (now : Z) (leadId : string) (s : Store) :
  leadId ∉ Lead.id <$> leads (getLeads s).2 →
  (∀ data, addActivity now leadId data s = (Throw "Lead not found", (getLeads s).2))
  ∧ (∀ data tasks, addTask now leadId data tasks s = (Throw "Lead not found", (getLeads s).2)).
Proof.
  intros Hno%list_find_None_ids. split.
  - intros data. by apply addActivity_not_found.
  - intros data tasks. by apply addTask_not_found.
Qed.

Lemma addActivity_addTask_unknown_lead_witness :
  (∀ data, addActivity 7 "999" data fiveLeadStore
           = (Throw "Lead not found", (getLeads fiveLeadStore).2))
  ∧ (∀ data tasks, addTask 7 "999" data tasks fiveLeadStore
                   = (Throw "Lead not found", (getLeads fiveLeadStore).2)).
Proof. apply (addActivity_addTask_unknown_lead 7 "999" fiveLeadStore). decide_by_compute. Defined.

Lemma findLead_Some_find (leadId : string) (s : Store) (l : Lead.t) :
  (findLead leadId s).1 = Return (Some l) →
  ∃ i, list_find (λ lead, Lead.id lead = leadId) (leads (getLeads s).2) = Some (i, l).
Proof.
  rewrite findLead_fst. intros Hf.
  destruct (list_find _ (leads (getLeads s).2)) as [[i l0]|]; simplify_eq/=. by exists i.
Qed.

(** X7: on a lead that a lookup finds, [addActivity] returns the activity
    built from its input, with the current instant as timestamp.  Afterwards
    the lookup finds the lead with this activity in front of its former
    activities, every other lookup answers as before, the new activity is the
    last activity of the lead, the lead counts as contacted on the day of the
    call under every numbering of the calendar days, and its activities are
    newest first when no former activity is later than the current
    instant. *)
Theorem addActivity_logs (now : Z) (leadId : string) (data : ActivityData.t) (s : Store)
    (l : Lead.t) :
  (findLead leadId s).1 = Return (Some l) →
  ∃ activity,
    (addActivity now leadId data s).1 = Return activity
    ∧ Activity.timestamp activity = now
    ∧ Activity.type activity = ActivityData.type data
    ∧ Activity.outcome activity = ActivityData.outcome data
    ∧ Activity.notes activity = ActivityData.notes data
    ∧ Activity.userId activity = ActivityData.userId data
    ∧ (findLead leadId (addActivity now leadId data s).2).1
      = Return (Some (set_activities (activity :: Lead.activities l) l))
    ∧ (∀ x, x ≠ leadId → (findLead x (addActivity now leadId data s).2).1 = (findLead x s).1)
    ∧ lastActivity (set_activities (activity :: Lead.activities l) l) = now
    ∧ (∀ localDay,
         hasBeenContactedToday localDay now
           (set_activities (activity :: Lead.activities l) l))
    ∧ (Forall (λ a, (Activity.timestamp a ≤ now)%Z) (Lead.activities l) →
       newestFirst (set_activities (activity :: Lead.activities l) l)).
Proof.
  intros [i Hf]%findLead_Some_find.
  pose proof (getLeads_snd_nonempty s) as Hne.
  rewrite (addActivity_found now leadId data s i l Hf).
  eexists. split; [reflexivity|]. cbn [fst snd].
  pose proof Hf as Hf'. apply list_find_Some in Hf' as (Hi & Hid & _).
  split_and!; try done.
  - rewrite findLead_nonempty by (by apply insert_nonempty). cbn [leads fst].
    by rewrite (list_find_insert_same _ _ i l).
  - intros x Hx. rewrite findLead_nonempty by (by apply insert_nonempty).
    rewrite findLead_fst. cbn [leads fst]. f_equal.
    apply (list_find_insert_other _ _ _ l); [done|congruence|simpl; congruence].
  - intros localDay. by apply Exists_cons_hd.
Qed.

Lemma addActivity_logs_witness :
  ∃ activity,
    (addActivity 9000 "002" (ActivityData.mk Call "Spoke to the student" "Call back" "user-5")
       fiveLeadStore).1 = Return activity
    ∧ Activity.timestamp activity = 9000%Z
    ∧ Activity.type activity = Call
    ∧ Activity.outcome activity = "Spoke to the student"
    ∧ Activity.notes activity = "Call back"
    ∧ Activity.userId activity = "user-5"
    ∧ (findLead "002"
         (addActivity 9000 "002"
            (ActivityData.mk Call "Spoke to the student" "Call back" "user-5")
            fiveLeadStore).2).1
      = Return (Some (set_activities
                        (activity :: Lead.activities (generatedLead 2 (sampleDraw 1)))
                        (generatedLead 2 (sampleDraw 1))))
    ∧ (∀ x, x ≠ "002" →
         (findLead x
            (addActivity 9000 "002"
               (ActivityData.mk Call "Spoke to the student" "Call back" "user-5")
               fiveLeadStore).2).1
         = (findLead x fiveLeadStore).1)
    ∧ lastActivity (set_activities
                      (activity :: Lead.activities (generatedLead 2 (sampleDraw 1)))
                      (generatedLead 2 (sampleDraw 1))) = 9000%Z
    ∧ (∀ localDay,
         hasBeenContactedToday localDay 9000
           (set_activities (activity :: Lead.activities (generatedLead 2 (sampleDraw 1)))
              (generatedLead 2 (sampleDraw 1))))
    ∧ (Forall (λ a, (Activity.timestamp a ≤ 9000)%Z)
         (Lead.activities (generatedLead 2 (sampleDraw 1))) →
       newestFirst (set_activities
                      (activity :: Lead.activities (generatedLead 2 (sampleDraw 1)))
                      (generatedLead 2 (sampleDraw 1)))).
Proof.
  apply (addActivity_logs 9000 "002"
           (ActivityData.mk Call "Spoke to the student" "Call back" "user-5") fiveLeadStore
           (generatedLead 2 (sampleDraw 1))).
  vm_compute. reflexivity.
Defined.

(** X8: on a lead that a lookup finds, [addTask] returns a Pending task for
    that lead with the due date of its input, appends it to the exported
    array and to the tasks of the lead, and leaves the activities of the lead
    alone.  When the task is a Follow-up, the lead then has a next follow-up,
    due no later than the new task, and it is the new task when the lead had
    no pending follow-up before. *)
Theorem addTask_then_getNextFollowUp (now : Z) (leadId : string) (data : TaskData.t)
    (tasks : list Task.t) (s : Store) (l : Lead.t) :
  (findLead leadId s).1 = Return (Some l) →
  ∃ task l',
    (addTask now leadId data tasks s).1 = Return (task, tasks ++ [task])
    ∧ Task.status task = Pending
    ∧ Task.leadId task = leadId
    ∧ Task.dueDate task = TaskData.dueDate data
    ∧ (findLead leadId (addTask now leadId data tasks s).2).1 = Return (Some l')
    ∧ Lead.tasks l' = Lead.tasks l ++ [task]
    ∧ Lead.activities l' = Lead.activities l
    ∧ (TaskData.type data = FollowUp →
       ∃ next, getNextFollowUp l' = Some next
               ∧ (Task.dueDate next ≤ TaskData.dueDate data)%Z
               ∧ (getNextFollowUp l = None → next = task)).
Proof.
  intros [i Hf]%findLead_Some_find.
  pose proof (getLeads_snd_nonempty s) as Hne.
  rewrite (addTask_found now leadId data tasks s i l Hf).
  eexists _, (set_tasks _ l). split; [reflexivity|]. cbn [fst snd].
  pose proof Hf as Hf'. apply list_find_Some in Hf' as (Hi & Hid & _).
  split_and!; try done.
  - rewrite findLead_nonempty by (by apply insert_nonempty). cbn [leads fst].
    rewrite (list_find_insert_same _ _ i l); [reflexivity|done..].
  - intros Hty.
    set (task := Task.mk _ _ _ _ _ _ _ _).
    set (l' := set_tasks _ l).
    assert (spec_hasPendingFollowUp l') as Hp.
    { exists task. split_and!; [|done..]. simpl. apply elem_of_app. right. by left. }
    apply getNextFollowUp_Some_iff in Hp as [next Hnext].
    exists next. split; [done|].
    apply getNextFollowUp_earliest in Hnext as (Hin & Hnty & Hnst & Hmin).
    split.
    + apply (Hmin task); [|done..]. simpl. apply elem_of_app. right. by left.
    + intros Hnone. simpl in Hin. apply elem_of_app in Hin as [Hin|Hin].
      * apply getNextFollowUp_None_iff in Hnone. destruct Hnone. by exists next.
      * by apply list_elem_of_singleton in Hin.
Qed.

Lemma addTask_then_getNextFollowUp_witness :
  ∃ task l',
    (addTask 9000 "003" (TaskData.mk FollowUp 4500 High "Call the student" "user-5") []
       fiveLeadStore).1 = Return (task, [] ++ [task])
    ∧ Task.status task = Pending
    ∧ Task.leadId task = "003"
    ∧ Task.dueDate task = 4500%Z
    ∧ (findLead "003"
         (addTask 9000 "003" (TaskData.mk FollowUp 4500 High "Call the student" "user-5") []
            fiveLeadStore).2).1 = Return (Some l')
    ∧ Lead.tasks l' = Lead.tasks (generatedLead 3 (sampleDraw 2)) ++ [task]
    ∧ Lead.activities l' = Lead.activities (generatedLead 3 (sampleDraw 2))
    ∧ (FollowUp = FollowUp →
       ∃ next, getNextFollowUp l' = Some next
               ∧ (Task.dueDate next ≤ 4500)%Z
               ∧ (getNextFollowUp (generatedLead 3 (sampleDraw 2)) = None → next = task)).
Proof.
  apply (addTask_then_getNextFollowUp 9000 "003"
           (TaskData.mk FollowUp 4500 High "Call the student" "user-5") [] fiveLeadStore
           (generatedLead 3 (sampleDraw 2))).
  vm_compute. reflexivity.
Defined.

Lemma bind_insert_tasks (ls : list Lead.t) (i : nat) (l : Lead.t) (t : Task.t) :
  ls !! i = Some l →
  <[i := set_tasks (Lead.tasks l ++ [t]) l]> ls ≫= Lead.tasks ≡ₚ (ls ≫= Lead.tasks) ++ [t].
Proof.
  revert i. induction ls as [|a ls IH]; intros [|i] Hi; simplify_eq/=.
  - rewrite <- !(assoc_L (++)). f_equiv. apply Permutation_app_comm.
  - rewrite (IH i Hi). by rewrite (assoc_L (++)).
Qed.

(** X9: the exported array [tasks] stays in step with the leads.
    [getAllTasks], which gives the array its first value, returns the tasks
    of all leads; and if the array holds the tasks of all leads before a call
    of [addTask], counted with multiplicity, then it holds them after the
    call, whether the call returns or throws. *)
Theorem addTask_keeps_tasks_in_step (now : Z) (leadId : string) (data : TaskData.t)
    (tasks : list Task.t) (s : Store) :
  tasks ≡ₚ leads (getLeads s).2 ≫= Lead.tasks →
  getAllTasks s = (Return (leads (getLeads s).2 ≫= Lead.tasks), (getLeads s).2)
  ∧ match (addTask now leadId data tasks s).1 with
    | Return (_, tasks') =>
        tasks' ≡ₚ leads (addTask now leadId data tasks s).2 ≫= Lead.tasks
    | Throw _ => tasks ≡ₚ leads (addTask now leadId data tasks s).2 ≫= Lead.tasks
    end.
Proof.
  intros Hsync. split.
  { destruct (getLeads_spec s) as (s1 & Hg & _ & _).
    unfold getAllTasks. run. by rewrite Hg. }
  destruct (list_find (λ lead, Lead.id lead = leadId) (leads (getLeads s).2))
    as [[i l]|] eqn:Hf.
  - rewrite (addTask_found now leadId data tasks s i l Hf). cbn [fst snd leads].
    apply list_find_Some in Hf as (Hi & _ & _).
    rewrite bind_insert_tasks by done. by rewrite Hsync.
  - by rewrite (addTask_not_found now leadId data tasks s Hf).
Qed.

Lemma addTask_keeps_tasks_in_step_witness :
  getAllTasks fiveLeadStore
  = (Return (leads (getLeads fiveLeadStore).2 ≫= Lead.tasks), (getLeads fiveLeadStore).2)
  ∧ match (addTask 9000 "003" (TaskData.mk Meeting 4500 High "Meet the student" "user-5")
             (leads (getLeads fiveLeadStore).2 ≫= Lead.tasks) fiveLeadStore).1 with
    | Return (_, tasks') =>
        tasks' ≡ₚ leads (addTask 9000 "003"
                           (TaskData.mk Meeting 4500 High "Meet the student" "user-5")
                           (leads (getLeads fiveLeadStore).2 ≫= Lead.tasks) fiveLeadStore).2
                  ≫= Lead.tasks
    | Throw _ =>
        leads (getLeads fiveLeadStore).2 ≫= Lead.tasks
        ≡ₚ leads (addTask 9000 "003"
                    (TaskData.mk Meeting 4500 High "Meet the student" "user-5")
                    (leads (getLeads fiveLeadStore).2 ≫= Lead.tasks) fiveLeadStore).2
           ≫= Lead.tasks
    end.
Proof.
  apply (addTask_keeps_tasks_in_step 9000 "003"
           (TaskData.mk Meeting 4500 High "Meet the student" "user-5")
           (leads (getLeads fiveLeadStore).2 ≫= Lead.tasks) fiveLeadStore).
  reflexivity.
Defined.

(** ** The newest-first invariant *)

Lemma newestFirst_activities (a b : Lead.t) :
  Lead.activities a = Lead.activities b → newestFirst b → newestFirst a.
Proof. unfold newestFirst. by intros ->. Qed.

Lemma assign_activities (su : option KanbanStage * option string) (lead : Lead.t) :
  Lead.activities (assign su lead) = Lead.activities lead.
Proof. by destruct su as [[?|] [?|]]. Qed.

Lemma Forall_insert_pointwise {A} (P : A → Prop) (l : list A) (i : nat) (x : A) :
  Forall P l → P x → Forall P (<[i:=x]> l).
Proof.
  intros Hl Hx. revert i. induction Hl; intros [|i]; simpl; constructor; auto.
Qed.

Lemma getLeads_newestFirst (s : Store) :
  Forall newestFirst (leads s) → Forall newestFirst (leads (getLeads s).2).
Proof.
  intros Hnf. destruct (decide (leads s = [])) as [E|E].
  - apply Forall_forall. intros lead Hin.
    destruct (elem_of_generated s lead E Hin) as (i & d & ->).
    apply generatedLead_newestFirst.
  - by rewrite getLeads_nonempty.
Qed.

(** X10: "the activities of every lead are newest first" is an invariant of
    the store: a read, [addLead], [bulkUpdateLeads], [bulkDeleteLeads] and
    [addTask] preserve it, and so does [addActivity] when the clock is not
    behind any stored activity. *)
Theorem newestFirst_preserved (s : Store) :
  Forall newestFirst (leads s) →
  Forall newestFirst (leads (getLeads s).2)
  ∧ (∀ now lead, Forall newestFirst (leads (addLead now lead s).2))
  ∧ (∀ leadIds updates, Forall newestFirst (leads (bulkUpdateLeads leadIds updates s).2))
  ∧ (∀ leadIds, Forall newestFirst (leads (bulkDeleteLeads leadIds s).2))
  ∧ (∀ now leadId data tasks, Forall newestFirst (leads (addTask now leadId data tasks s).2))
  ∧ (∀ now leadId data,
       Forall (λ lead, Forall (λ a, (Activity.timestamp a ≤ now)%Z) (Lead.activities lead))
         (leads (getLeads s).2) →
       Forall newestFirst (leads (addActivity now leadId data s).2)).
Proof.
  intros Hnf. pose proof (getLeads_newestFirst s Hnf) as Hg. split_and!.
  - done.
  - intros now lead.
    destruct (addLead_creates now lead s) as (newLead & act & s' & Hr & Hl & _ & _ & Ha & _).
    rewrite Hr. cbn [snd]. rewrite Hl.
    constructor; [|done]. unfold newestFirst. rewrite Ha. constructor.
  - intros leadIds updates. unfold bulkUpdateLeads. run.
    destruct (Updates.assignedUserIds updates) as [items|]; simpl.
    + apply Forall_fmap. eapply Forall_impl; [exact Hnf|]. intros lead Hl. simpl.
      by destruct (Map_of_entries items !! Lead.id lead).
    + case_bool_decide; simpl; [done|].
      apply Forall_fmap. eapply Forall_impl; [exact Hnf|]. intros lead Hl. simpl.
      case_bool_decide; [|done].
      eapply newestFirst_activities; [apply assign_activities|done].
  - intros leadIds. rewrite bulkDeleteLeads_store. simpl.
    apply Forall_forall. intros lead [_ Hin]%list_elem_of_filter.
    rewrite Forall_forall in Hnf. by apply Hnf.
  - intros now leadId data tasks.
    destruct (list_find (λ lead, Lead.id lead = leadId) (leads (getLeads s).2))
      as [[i l]|] eqn:Hf.
    + rewrite (addTask_found now leadId data tasks s i l Hf). cbn [snd leads].
      apply list_find_Some in Hf as (Hi & _ & _).
      apply Forall_insert_pointwise; [done|].
      rewrite Forall_forall in Hg. apply (Hg l). by eapply list_elem_of_lookup_2.
    + by rewrite (addTask_not_found now leadId data tasks s Hf).
  - intros now leadId data Hclock.
    destruct (list_find (λ lead, Lead.id lead = leadId) (leads (getLeads s).2))
      as [[i l]|] eqn:Hf.
    + rewrite (addActivity_found now leadId data s i l Hf). cbn [snd leads].
      apply list_find_Some in Hf as (Hi & _ & _).
      apply Forall_insert_pointwise; [done|].
      rewrite Forall_forall in Hclock. apply (Hclock l). by eapply list_elem_of_lookup_2.
    + by rewrite (addActivity_not_found now leadId data s Hf).
Qed.

Lemma newestFirst_preserved_witness :
  Forall newestFirst (leads (getLeads fiveLeadStore).2)
  ∧ (∀ now lead, Forall newestFirst (leads (addLead now lead fiveLeadStore).2))
  ∧ (∀ leadIds updates,
       Forall newestFirst (leads (bulkUpdateLeads leadIds updates fiveLeadStore).2))
  ∧ (∀ leadIds, Forall newestFirst (leads (bulkDeleteLeads leadIds fiveLeadStore).2))
  ∧ (∀ now leadId data tasks,
       Forall newestFirst (leads (addTask now leadId data tasks fiveLeadStore).2))
  ∧ (∀ now leadId data,
       Forall (λ lead, Forall (λ a, (Activity.timestamp a ≤ now)%Z) (Lead.activities lead))
         (leads (getLeads fiveLeadStore).2) →
       Forall newestFirst (leads (addActivity now leadId data fiveLeadStore).2)).
Proof. apply (newestFirst_preserved fiveLeadStore). decide_by_compute. Defined.

(** ** Bulk delete and bulk update on the store *)

(** X11: [bulkDeleteLeads] removes exactly the leads whose id is listed: the
    remaining ids are the former ids without the listed ones, in the former
    order; no listed id remains; the remaining leads are a sublist of the
    former ones and every lead with an unlisted id is kept; deleting the same
    ids again changes nothing. *)
Theorem bulkDeleteLeads_removes (leadIds : list string) (s : Store) :
  Lead.id <$> leads (bulkDeleteLeads leadIds s).2
  = filter (λ x, x ∉ leadIds) (Lead.id <$> leads s)
  ∧ (∀ x, x ∈ leadIds → x ∉ Lead.id <$> leads (bulkDeleteLeads leadIds s).2)
  ∧ leads (bulkDeleteLeads leadIds s).2 `sublist_of` leads s
  ∧ (∀ lead, lead ∈ leads s → Lead.id lead ∉ leadIds →
       lead ∈ leads (bulkDeleteLeads leadIds s).2)
  ∧ bulkDeleteLeads leadIds (bulkDeleteLeads leadIds s).2
    = (Return (), (bulkDeleteLeads leadIds s).2).
Proof.
  rewrite !bulkDeleteLeads_store. cbn [snd leads PlaceHolderImages users random].
  assert (Lead.id <$> filter (λ lead, Lead.id lead ∉ leadIds) (leads s)
          = filter (λ x, x ∉ leadIds) (Lead.id <$> leads s)) as Hids.
  { induction (leads s) as [|a ls IH]; [done|].
    rewrite fmap_cons, !filter_cons. destruct (decide (Lead.id a ∉ leadIds)); [|done].
    by rewrite fmap_cons, IH. }
  split_and!.
  - done.
  - intros x Hx. rewrite Hids. intros [Hno _]%list_elem_of_filter. done.
  - apply sublist_filter.
  - intros lead Hin Hno. by apply list_elem_of_filter.
  - f_equal. f_equal. apply list_filter_filter_l. done.
Qed.

Lemma Map_of_entries_last (items : list (string * string)) (x : string) :
  Map_of_entries items !! x = snd <$> last (filter (λ e, e.1 = x) items).
Proof.
  induction items as [|e items IH] using rev_ind; [done|].
  unfold Map_of_entries in *. rewrite foldl_app, filter_app. simpl.
  rewrite filter_cons, filter_nil. destruct (decide (e.1 = x)) as [<-|Hne].
  - by rewrite lookup_insert_eq, last_snoc.
  - by rewrite lookup_insert_ne, app_nil_r.
Qed.

(** X12: with a distribution list, [bulkUpdateLeads] gives each lead the
    counselor of the last entry that carries its id and leaves the leads
    without an entry alone; the lead ids, the stage and the single assignee
    of the request play no part.  In every mode the call returns, keeps the
    id, name, e-mail, source, creation time, activities and tasks of each
    lead and the order of the leads, keeps the images and the users, and
    changes no lead whose id is not listed when there is no distribution
    list. *)
Theorem bulkUpdateLeads_effect (leadIds : list string) (updates : Updates.t) (s : Store) :
  (∀ items, Updates.assignedUserIds updates = Some items →
     leads (bulkUpdateLeads leadIds updates s).2
     = (λ lead, match last (filter (λ e, e.1 = Lead.id lead) items) with
                | Some e => set_assignedUserId e.2 lead
                | None => lead
                end) <$> leads s)
  ∧ Forall2 (λ before after,
               Lead.id after = Lead.id before
               ∧ Lead.name after = Lead.name before
               ∧ Lead.email after = Lead.email before
               ∧ Lead.source after = Lead.source before
               ∧ Lead.createdAt after = Lead.createdAt before
               ∧ Lead.activities after = Lead.activities before
               ∧ Lead.tasks after = Lead.tasks before
               ∧ (is_Some (Updates.assignedUserIds updates) →
                  Lead.stage after = Lead.stage before)
               ∧ (Updates.assignedUserIds updates = None → Lead.id before ∉ leadIds →
                  after = before))
            (leads s) (leads (bulkUpdateLeads leadIds updates s).2)
  ∧ PlaceHolderImages (bulkUpdateLeads leadIds updates s).2 = PlaceHolderImages s
  ∧ users (bulkUpdateLeads leadIds updates s).2 = users s
  ∧ (bulkUpdateLeads leadIds updates s).1 = Return ().
Proof.
  split.
  { intros items Hitems. unfold bulkUpdateLeads. run. rewrite Hitems.
    apply list_fmap_ext. intros i lead _.
    rewrite Map_of_entries_last. by destruct (last _). }
  unfold bulkUpdateLeads. run.
  destruct (Updates.assignedUserIds updates) as [items|]; simpl.
  - split_and!; [|done..]. apply Forall2_fmap_r, Forall_Forall2_diag, Forall_forall.
    intros lead _. simpl. destruct (Map_of_entries items !! Lead.id lead); split_and!; done.
  - case_bool_decide; simpl.
    + split_and!; [|done..]. apply Forall_Forall2_diag, Forall_forall.
      intros lead _. split_and!; try done; by intros [? [=]].
    + split_and!; [|done..]. apply Forall2_fmap_r, Forall_Forall2_diag, Forall_forall.
      intros lead _. simpl. case_bool_decide.
      * destruct (singleUpdate updates) as [[?|] [?|]]; split_and!; try done;
          by intros [? [=]].
      * split_and!; try done; by intros [? [=]].
Qed.

(** ** The bulk actions *)

(** X13: a bulk update whose form carries no stage, no assignee and no
    distribution list (absent or empty) answers "No updates performed." and
    leaves the store untouched. *)
Theorem bulkUpdateLeadsAction_no_updates (JSON_parse : string → option Json) (fd : FormData)
    (s : Store) :
  raw_get_or_undefined "stage" fd = RUndefined →
  raw_get_or_undefined "assignedUserId" fd = RUndefined →
  truthy (FormData_get "distributionList" fd) = false →
  bulkUpdateLeadsAction JSON_parse fd s
  = (Return (mkBulkUpdateState (Some "No updates performed.") None), s).
Proof.
  intros Hst Hu Hd. unfold bulkUpdateLeadsAction. rewrite Hd, Hst, Hu. simpl. run. reflexivity.
Qed.

Lemma bulkUpdateLeadsAction_no_updates_witness :
  bulkUpdateLeadsAction sample_parse [("leadIds", "001"); ("stage", "")] fiveLeadStore
  = (Return (mkBulkUpdateState (Some "No updates performed.") None), fiveLeadStore).
Proof.
  apply (bulkUpdateLeadsAction_no_updates sample_parse [("leadIds", "001"); ("stage", "")]
           fiveLeadStore); reflexivity.
Defined.

Lemma z_enum_stage_unknown (v : string) :
  v ∉ stage_name <$> KANBAN_STAGES → (z_optional (z_enum stages "stage") (RString v)).1 = None.
Proof.
  intros Hv.
  assert (∀ st, stage_name st ≠ v) as Hst.
  { intros st <-. apply Hv, list_elem_of_fmap. exists st. split; [done|].
    destruct st; decide_by_compute. }
  unfold z_optional, z_enum, stages, KANBAN_STAGES. rewrite !fmap_cons, fmap_nil.
  rewrite !filter_cons_False by apply Hst. done.
Qed.

(** X14: a bulk update whose distribution list is not JSON answers with the
    error "Invalid distribution data." and leaves the store untouched. *)
Theorem bulkUpdateLeadsAction_bad_json (JSON_parse : string → option Json) (fd : FormData)
    (s : Store) (text : string) :
  FormData_get "distributionList" fd = Some text → text ≠ "" → JSON_parse text = None →
  bulkUpdateLeadsAction JSON_parse fd s
  = (Return (mkBulkUpdateState None (Some "Invalid distribution data.")), s).
Proof.
  intros Hd Hne Hp. unfold bulkUpdateLeadsAction. rewrite Hd. simpl.
  rewrite bool_decide_eq_true_2 by done. by rewrite Hp.
Qed.

Lemma bulkUpdateLeadsAction_bad_json_witness :
  bulkUpdateLeadsAction sample_parse [("leadIds", "001"); ("distributionList", "[{")]
    fiveLeadStore
  = (Return (mkBulkUpdateState None (Some "Invalid distribution data.")), fiveLeadStore).
Proof.
  apply (bulkUpdateLeadsAction_bad_json sample_parse
           [("leadIds", "001"); ("distributionList", "[{")] fiveLeadStore "[{");
    [reflexivity|decide_by_compute|vm_compute; reflexivity].
Defined.

(** X15: a bulk update whose stage is not one of the Kanban stages is
    rejected with one of the two validation errors and leaves the store
    untouched. *)
Theorem bulkUpdateLeadsAction_unknown_stage (JSON_parse : string → option Json)
    (fd : FormData) (s : Store) (v : string) :
  FormData_get "stage" fd = Some v → v ≠ "" → v ∉ stage_name <$> KANBAN_STAGES →
  (bulkUpdateLeadsAction JSON_parse fd s).2 = s
  ∧ ((bulkUpdateLeadsAction JSON_parse fd s).1
     = Return (mkBulkUpdateState None (Some "Invalid distribution data."))
     ∨ (bulkUpdateLeadsAction JSON_parse fd s).1
       = Return (mkBulkUpdateState None (Some "Invalid data for bulk update."))).
Proof.
  intros Hst Hne Hv. unfold bulkUpdateLeadsAction.
  destruct (if truthy (FormData_get "distributionList" fd) then _ else _) as [j|];
    [|by split; [|left]].
  assert (raw_get_or_undefined "stage" fd = RString v) as ->.
  { unfold raw_get_or_undefined. rewrite Hst. by rewrite decide_False. }
  unfold bulkUpdateLeadsSchema. rewrite z_enum_stage_unknown by done.
  by split; [|right].
Qed.

Lemma bulkUpdateLeadsAction_unknown_stage_witness :
  (bulkUpdateLeadsAction sample_parse [("leadIds", "001"); ("stage", "Archived")]
     fiveLeadStore).2 = fiveLeadStore
  ∧ ((bulkUpdateLeadsAction sample_parse [("leadIds", "001"); ("stage", "Archived")]
        fiveLeadStore).1
     = Return (mkBulkUpdateState None (Some "Invalid distribution data."))
     ∨ (bulkUpdateLeadsAction sample_parse [("leadIds", "001"); ("stage", "Archived")]
          fiveLeadStore).1
       = Return (mkBulkUpdateState None (Some "Invalid data for bulk update."))).
Proof.
  apply (bulkUpdateLeadsAction_unknown_stage sample_parse
           [("leadIds", "001"); ("stage", "Archived")] fiveLeadStore "Archived");
    [reflexivity|decide_by_compute|decide_by_compute].
Defined.

Lemma FormData_get_leadIds_entries (selectedLeads : list Lead.t) (key : string)
    (rest : FormData) :
  key ≠ "leadIds" →
  FormData_get key (leadIds_entries selectedLeads ++ rest) = FormData_get key rest.
Proof.
  intros Hk. unfold FormData_get, leadIds_entries, FormData. rewrite filter_app.
  assert (filter (λ e : string * string, e.1 = key)
            ((λ lead, ("leadIds", Lead.id lead)) <$> selectedLeads) = []) as ->; [|done].
  induction selectedLeads as [|a l IH]; [done|].
  rewrite fmap_cons, filter_cons. simpl. by rewrite decide_False.
Qed.

Lemma FormData_getAll_leadIds_entries (selectedLeads : list Lead.t) (rest : FormData) :
  FormData_getAll "leadIds" (leadIds_entries selectedLeads ++ rest)
  = (Lead.id <$> selectedLeads) ++ FormData_getAll "leadIds" rest.
Proof.
  unfold FormData_getAll, leadIds_entries, FormData. rewrite filter_app, fmap_app. f_equal.
  induction selectedLeads as [|a l IH]; [done|].
  rewrite (fmap_cons _ a l), filter_cons_True by done.
  rewrite !fmap_cons. simpl. by f_equal.
Qed.


(** X16: the stage button of the toolbar moves exactly the selected leads to
    the chosen stage, changes nothing else in them, and answers with the
    number of selected leads and the name of the stage.  Afterwards a lead
    that carries the id of a selected lead is in the chosen stage, with its
    id, name, e-mail, source, assignee, creation time, activities and tasks
    as before; every other lead is the lead it was. *)
Theorem handleStageChange_moves (JSON_parse : string → option Json)
    (selectedLeads : list Lead.t) (stage : KanbanStage) (s : Store) :
  handleStageChange JSON_parse selectedLeads stage s
  = (Return (mkBulkUpdateState
               (Some (String_of_nat (length selectedLeads) +:+ " lead(s) moved to "
                        +:+ stage_name stage +:+ "."))
               None),
     mkStore ((λ lead, if bool_decide (Lead.id lead ∈ Lead.id <$> selectedLeads)
                       then set_stage stage lead else lead) <$> leads s)
       (PlaceHolderImages s) (users s) (random s))
  ∧ Forall2 (λ before after,
               if bool_decide (Lead.id before ∈ Lead.id <$> selectedLeads)
               then Lead.stage after = stage
                    ∧ Lead.id after = Lead.id before
                    ∧ Lead.name after = Lead.name before
                    ∧ Lead.email after = Lead.email before
                    ∧ Lead.source after = Lead.source before
                    ∧ Lead.assignedUserId after = Lead.assignedUserId before
                    ∧ Lead.createdAt after = Lead.createdAt before
                    ∧ Lead.activities after = Lead.activities before
                    ∧ Lead.tasks after = Lead.tasks before
               else after = before)
            (leads s) (leads (handleStageChange JSON_parse selectedLeads stage s).2).
Proof.
  assert (handleStageChange JSON_parse selectedLeads stage s
          = (Return (mkBulkUpdateState
                       (Some (String_of_nat (length selectedLeads) +:+ " lead(s) moved to "
                                +:+ stage_name stage +:+ "."))
                       None),
             mkStore ((λ lead, if bool_decide (Lead.id lead ∈ Lead.id <$> selectedLeads)
                               then set_stage stage lead else lead) <$> leads s)
               (PlaceHolderImages s) (users s) (random s))) as Heq.
  { unfold handleStageChange, bulkUpdateLeadsAction.
    rewrite FormData_getAll_leadIds_entries.
    unfold raw_get_or_undefined.
    rewrite !FormData_get_leadIds_entries by done.
    cbn [FormData_get FormData_getAll filter list_filter head fmap list_fmap option_fmap
           option_map fst snd decide_rel truthy app].
    simpl. rewrite app_nil_r.
    destruct (decide (stage_name stage = "")) as [E|_]; [by apply stage_name_nonempty in E|].
    unfold bulkUpdateLeadsSchema. rewrite z_enum_stage. simpl.
    unfold bulkUpdateLeads, singleUpdate. run.
    rewrite length_fmap.
    destruct (decide (_ = "")) as [E|_].
    { by destruct (String_of_nat _). }
    done. }
  split; [exact Heq|]. rewrite Heq. cbn [snd leads].
  apply Forall2_fmap_r, Forall_Forall2_diag, Forall_forall. intros lead _.
  simpl. case_bool_decide; [|done].
  destruct (set_stage_fields stage lead) as (Hstage & _ & _).
  split_and!; done.
Qed.

Lemma handleStageChange_moves_witness :
  (handleStageChange sample_parse (take 2 (leads fiveLeadStore)) Application fiveLeadStore
   = (Return (mkBulkUpdateState
                (Some (String_of_nat (length (take 2 (leads fiveLeadStore)))
                         +:+ " lead(s) moved to " +:+ stage_name Application +:+ "."))
                None),
      mkStore ((λ lead, if bool_decide (Lead.id lead
                                        ∈ Lead.id <$> take 2 (leads fiveLeadStore))
                        then set_stage Application lead else lead) <$> leads fiveLeadStore)
        (PlaceHolderImages fiveLeadStore) (users fiveLeadStore) (random fiveLeadStore))
   ∧ Forall2 (λ before after,
                if bool_decide (Lead.id before ∈ Lead.id <$> take 2 (leads fiveLeadStore))
                then Lead.stage after = Application
                     ∧ Lead.id after = Lead.id before
                     ∧ Lead.name after = Lead.name before
                     ∧ Lead.email after = Lead.email before
                     ∧ Lead.source after = Lead.source before
                     ∧ Lead.assignedUserId after = Lead.assignedUserId before
                     ∧ Lead.createdAt after = Lead.createdAt before
                     ∧ Lead.activities after = Lead.activities before
                     ∧ Lead.tasks after = Lead.tasks before
                else after = before)
             (leads fiveLeadStore)
             (leads (handleStageChange sample_parse (take 2 (leads fiveLeadStore))
                       Application fiveLeadStore).2))
  ∧ (handleStageChange sample_parse (take 2 (leads fiveLeadStore)) Application
       fiveLeadStore).1
    = Return (mkBulkUpdateState (Some "2 lead(s) moved to Application.") None)
  ∧ Lead.stage <$> leads fiveLeadStore = [New; Contacted; New; Contacted; New]
  ∧ Lead.stage <$> leads (handleStageChange sample_parse (take 2 (leads fiveLeadStore))
                            Application fiveLeadStore).2
    = [Application; Application; New; Contacted; New].
Proof.
  split.
  - apply (handleStageChange_moves sample_parse (take 2 (leads fiveLeadStore)) Application
             fiveLeadStore).
  - split_and!; vm_compute; reflexivity.
Defined.



(** X18: the delete button of the toolbar answers with the number of selected
    leads, removes the leads that carry the id of a selected lead and no
    other lead, and, as long as a lead is left, no selected lead is found
    afterwards. *)
Theorem handleDelete_deletes (selectedLeads : list Lead.t) (s : Store) :
  (handleDelete selectedLeads s).1
  = Return (mkBulkUpdateState
              (Some (String_of_nat (length selectedLeads) +:+ " leads deleted successfully."))
              None)
  ∧ leads (handleDelete selectedLeads s).2
    = filter (λ lead, Lead.id lead ∉ Lead.id <$> selectedLeads) (leads s)
  ∧ (∀ lead, lead ∈ selectedLeads →
       Lead.id lead ∉ Lead.id <$> leads (handleDelete selectedLeads s).2)
  ∧ (leads (handleDelete selectedLeads s).2 ≠ [] →
     ∀ lead, lead ∈ selectedLeads →
       (findLead (Lead.id lead) (handleDelete selectedLeads s).2).1 = Return None).
Proof.
  unfold handleDelete, bulkDeleteLeadsAction.
  pose proof (FormData_getAll_leadIds_entries selectedLeads []) as Hids.
  rewrite !app_nil_r in Hids. rewrite Hids. run. rewrite length_fmap.
  split_and!; try done.
  - intros lead Hin [l' [Hid [Hno _]%list_elem_of_filter]]%list_elem_of_fmap.
    apply Hno. rewrite <- Hid. apply list_elem_of_fmap. by exists lead.
  - intros Hne lead Hin. rewrite findLead_nonempty by done. simpl.
    rewrite list_find_None_ids; [done|].
    intros [l' [Hid [Hno _]%list_elem_of_filter]]%list_elem_of_fmap.
    apply Hno. rewrite <- Hid. apply list_elem_of_fmap. by exists lead.
Qed.

(** ** The update, activity and task actions *)





Lemma z_enum_Some {A} (members : list (string * A)) (field : string) (raw : Raw) (v : A)
    (issues : list Issue) :
  z_enum members field raw = (Some v, issues) →
  ∃ s, raw = RString s ∧ (s, v) ∈ members ∧ issues = [].
Proof.
  unfold z_enum. destruct raw as [| |s]; [done..|].
  destruct (head (filter (λ m : string * A, m.1 = s) members)) as [[k w]|] eqn:E;
    simpl; [|done].
  intros [= <- <-]. exists s. split_and!; try done.
  apply head_Some_elem_of, list_elem_of_filter in E as [Hk Hin]. simpl in Hk. by subst k.
Qed.

Lemma z_enum_None {A} (members : list (string * A)) (field : string) (raw : Raw)
    (issues : list Issue) :
  z_enum members field raw = (None, issues) → issues ≠ [].
Proof.
  unfold z_enum. destruct raw as [| |s]; [by intros [= <-]..|].
  destruct (head _) as [[k w]|]; simpl; [done|]. by intros [= <-].
Qed.

(** What the activity schema accepts: both optional keys must be present. *)
Lemma addActivityFormSchema_inr (fd : FormData) (data : AddActivityData.t) :
  addActivityFormSchema fd = inr data →
  ∃ type courseInterest stage,
    FormData_get "leadId" fd = Some (AddActivityData.leadId data)
    ∧ FormData_get "outcome" fd = Some (AddActivityData.outcome data)
    ∧ FormData_get "notes" fd = Some (AddActivityData.notes data)
    ∧ FormData_get "userId" fd = Some (AddActivityData.userId data)
    ∧ FormData_get "type" fd = Some type
    ∧ (type, AddActivityData.type data) ∈ activityTypes
    ∧ 3 ≤ String.length (AddActivityData.outcome data)
    ∧ 3 ≤ String.length (AddActivityData.notes data)
    ∧ FormData_get "courseInterest" fd = Some courseInterest
    ∧ AddActivityData.courseInterest data = Some courseInterest
    ∧ FormData_get "stage" fd = Some (stage_name stage)
    ∧ AddActivityData.stage data = Some stage.
Proof.
  unfold addActivityFormSchema, raw_get, z_string_min.
  destruct (FormData_get "leadId" fd) as [leadId|]; [|done].
  destruct (z_enum activityTypes "type" _) as [[ty|] tyIssues] eqn:Ety; [|done].
  apply z_enum_Some in Ety as (type & Hraw & Hty & ->).
  destruct (FormData_get "type" fd) as [type'|]; [|done]. injection Hraw as ->.
  destruct (FormData_get "outcome" fd) as [outcome|]; [|done].
  destruct (FormData_get "notes" fd) as [notes|]; [|done].
  destruct (FormData_get "userId" fd) as [userId|]; [|done].
  destruct (FormData_get "courseInterest" fd) as [courseInterest|]; [|done].
  destruct (FormData_get "stage" fd) as [stage|]; [|done].
  unfold z_optional.
  destruct (z_enum stages "stage" (RString stage)) as [[st|] stIssues] eqn:Est; [|done].
  apply z_enum_Some in Est as (stage' & [= <-] & Hst & ->).
  cbn [fst snd z_string fmap option_fmap option_map mbind option_bind].
  destruct (_ ++ _) eqn:E; [|done].
  intros [= <-]. cbn.
  cbn [app] in E. apply app_eq_nil in E as [Houtcome E].
  apply app_eq_nil in E as [Hnotes _].
  exists type, courseInterest, st.
  apply list_elem_of_fmap in Hst as (k & [= -> ->] & _).
  split_and!; try done.
  - clear Hnotes. case_bool_decide; [done|lia].
  - clear Houtcome. case_bool_decide; [done|lia].
Qed.

(** X20: when the activity form passes validation and its lead is found,
    [addActivityAction] answers "Activity logged successfully." and the lead
    found afterwards has the new activity, stamped with the current instant
    and never of type System, in front of its former activities, is in the
    stage of the form, has the course interest of the form unless that is
    blank, keeps its id, name, assignee and tasks, and counts as
    contacted. *)
Theorem addActivityAction_logs (now : Z) (fd : FormData) (s : Store)
    (data : AddActivityData.t) (l : Lead.t) :
  addActivityFormSchema fd = inr data →
  (findLead (AddActivityData.leadId data) s).1 = Return (Some l) →
  ∃ l' activity,
    (addActivityAction now fd s).1
    = Return (mkActionState (Some "Activity logged successfully.") None)
    ∧ (findLead (Lead.id l) (addActivityAction now fd s).2).1 = Return (Some l')
    ∧ Lead.activities l' = activity :: Lead.activities l
    ∧ Activity.timestamp activity = now
    ∧ Activity.type activity ≠ System
    ∧ FormData_get "outcome" fd = Some (Activity.outcome activity)
    ∧ FormData_get "notes" fd = Some (Activity.notes activity)
    ∧ FormData_get "userId" fd = Some (Activity.userId activity)
    ∧ FormData_get "stage" fd = Some (stage_name (Lead.stage l'))
    ∧ (if truthy (FormData_get "courseInterest" fd)
       then Lead.courseInterest l' = FormData_get "courseInterest" fd
       else Lead.courseInterest l' = Lead.courseInterest l)
    ∧ Lead.id l' = Lead.id l
    ∧ Lead.name l' = Lead.name l
    ∧ Lead.assignedUserId l' = Lead.assignedUserId l
    ∧ Lead.tasks l' = Lead.tasks l
    ∧ hasBeenContacted l' = true.
Proof.
  intros Hs Hfind.
  destruct (addActivityFormSchema_inr fd data Hs)
    as (type & courseInterest & stage & Hid & Hout & Hnotes & Huser & Htype & Hty & _ & _
        & Hci & Hdci & Hst & Hdst).
  destruct (findLead_Some_find _ _ _ Hfind) as [i Hf].
  pose proof (getLeads_snd_nonempty s) as Hne.
  pose proof Hf as Hf'. apply list_find_Some in Hf' as (Hi & Hlid & _).
  set (activity := Activity.mk ("ACT-" +:+ pretty now) (AddActivityData.type data) now
                     (AddActivityData.outcome data) (AddActivityData.notes data)
                     (AddActivityData.userId data)).
  set (l1 := set_activities (activity :: Lead.activities l) l).
  set (u := leadUpdates (AddActivityData.leadId data) (AddActivityData.courseInterest data)
              (AddActivityData.stage data)).
  exists (spread l1 u), activity.
  assert (addActivityAction now fd s
          = (Return (mkActionState (Some "Activity logged successfully.") None),
             mkStore (<[i := spread l1 u]> (leads (getLeads s).2))
               (PlaceHolderImages (getLeads s).2) (users (getLeads s).2)
               (random (getLeads s).2))) as ->.
  { unfold addActivityAction. rewrite Hs. rewrite Hdst.
    rewrite orb_true_r. unfold try_catch, mbind, M_bind, mret, M_ret.
    rewrite (addActivity_found now _ _ s i l Hf). cbn [ActivityData.type ActivityData.outcome
      ActivityData.notes ActivityData.userId]. fold activity. fold l1.
    rewrite <- Hdst. fold u.
    rewrite (updateLead_found u _ i l1).
    - cbn [leads PlaceHolderImages users random].
      rewrite getLeads_nonempty by (by apply insert_nonempty).
      cbn [snd leads PlaceHolderImages users random].
      by rewrite list_insert_insert_eq.
    - rewrite getLeads_nonempty by (by apply insert_nonempty). cbn [snd leads].
      by apply (list_find_insert_same _ _ i l). }
  cbn [fst snd].
  assert (Activity.type activity ≠ System) as Hnsys.
  { unfold activity. cbn. intros E. rewrite E in Hty. revert Hty. clear.
    unfold activityTypes. intros Hin.
    repeat (apply elem_of_cons in Hin as [[=]|Hin]). by apply elem_of_nil in Hin. }
  split_and!; try done.
  - rewrite findLead_nonempty by (by apply insert_nonempty). cbn [leads fst].
    rewrite Hlid. by rewrite (list_find_insert_same _ _ i l).
  - unfold u. cbn. by rewrite Hdst.
  - unfold u. rewrite Hci, <- Hdci. cbn. by destruct (truthy _).
  - unfold hasBeenContacted. apply bool_decide_eq_true.
    change (Lead.activities (spread l1 u)) with (activity :: Lead.activities l).
    rewrite filter_cons_True by done. simpl. lia.
Qed.

Lemma addActivityAction_logs_witness :
  ∃ l' activity,
    (addActivityAction 9000 activityForm002 fiveLeadStore).1
    = Return (mkActionState (Some "Activity logged successfully.") None)
    ∧ (findLead (Lead.id (generatedLead 2 (sampleDraw 1)))
         (addActivityAction 9000 activityForm002 fiveLeadStore).2).1 = Return (Some l')
    ∧ Lead.activities l' = activity :: Lead.activities (generatedLead 2 (sampleDraw 1))
    ∧ Activity.timestamp activity = 9000%Z
    ∧ Activity.type activity ≠ System
    ∧ FormData_get "outcome" activityForm002 = Some (Activity.outcome activity)
    ∧ FormData_get "notes" activityForm002 = Some (Activity.notes activity)
    ∧ FormData_get "userId" activityForm002 = Some (Activity.userId activity)
    ∧ FormData_get "stage" activityForm002 = Some (stage_name (Lead.stage l'))
    ∧ (if truthy (FormData_get "courseInterest" activityForm002)
       then Lead.courseInterest l' = FormData_get "courseInterest" activityForm002
       else Lead.courseInterest l' = Lead.courseInterest (generatedLead 2 (sampleDraw 1)))
    ∧ Lead.id l' = Lead.id (generatedLead 2 (sampleDraw 1))
    ∧ Lead.name l' = Lead.name (generatedLead 2 (sampleDraw 1))
    ∧ Lead.assignedUserId l' = Lead.assignedUserId (generatedLead 2 (sampleDraw 1))
    ∧ Lead.tasks l' = Lead.tasks (generatedLead 2 (sampleDraw 1))
    ∧ hasBeenContacted l' = true.
Proof.
  apply (addActivityAction_logs 9000 activityForm002 fiveLeadStore
           (AddActivityData.mk "002" Call "Interested" "Asked for the fee structure" "user-5"
              (Some "Data Science") (Some Qualified))
           (generatedLead 2 (sampleDraw 1))).
  - vm_compute. reflexivity.
  - vm_compute. reflexivity.
Defined.

(** X21: a form without the [courseInterest] entry or without the [stage]
    entry is rejected by [addActivityAction] as invalid form data, and the
    store is untouched: a missing entry reads as [null], which the optional
    fields of the schema do not accept. *)
Theorem addActivityAction_requires_optional_keys (now : Z) (fd : FormData) (s : Store) :
  FormData_get "courseInterest" fd = None ∨ FormData_get "stage" fd = None →
  (addActivityAction now fd s).2 = s
  ∧ ∃ issues,
      (addActivityAction now fd s).1
      = Return (mkActionState None (Some ("Invalid form data: " +:+ errorMessages issues))).
Proof.
  intros Hmissing. unfold addActivityAction.
  destruct (addActivityFormSchema fd) as [issues|data] eqn:Hs.
  - split; [done|]. by exists issues.
  - apply addActivityFormSchema_inr in Hs
      as (type & courseInterest & stage & _ & _ & _ & _ & _ & _ & _ & _ & Hci & _ & Hst & _).
    destruct Hmissing; congruence.
Qed.

Lemma addActivityAction_requires_optional_keys_witness :
  (addActivityAction 9000 activityForm_noStage fiveLeadStore).2 = fiveLeadStore
  ∧ ∃ issues,
      (addActivityAction 9000 activityForm_noStage fiveLeadStore).1
      = Return (mkActionState None (Some ("Invalid form data: " +:+ errorMessages issues))).
Proof.
  apply (addActivityAction_requires_optional_keys 9000 activityForm_noStage fiveLeadStore).
  right. reflexivity.
Defined.

(** X22: when the activity form passes validation and no lead has its id,
    [addActivityAction] answers with the error "Lead not found" and leaves
    the store as a read leaves it. *)
Theorem addActivityAction_unknown_lead (now : Z) (fd : FormData) (s : Store)
    (data : AddActivityData.t) :
  addActivityFormSchema fd = inr data →
  AddActivityData.leadId data ∉ Lead.id <$> leads (getLeads s).2 →
  addActivityAction now fd s
  = (Return (mkActionState None (Some "Lead not found")), (getLeads s).2).
Proof.
  intros Hs Hno%list_find_None_ids. unfold addActivityAction. rewrite Hs.
  unfold try_catch, mbind, M_bind.
  by rewrite (addActivity_not_found now _ _ s Hno).
Qed.

Lemma addActivityAction_unknown_lead_witness :
  addActivityAction 9000 activityForm999 fiveLeadStore
  = (Return (mkActionState None (Some "Lead not found")), (getLeads fiveLeadStore).2).
Proof.
  apply (addActivityAction_unknown_lead 9000 activityForm999 fiveLeadStore
           (AddActivityData.mk "999" Call "Interested" "Asked for the fee structure" "user-5"
              (Some "Data Science") (Some Qualified))).
  - vm_compute. reflexivity.
  - decide_by_compute.
Defined.

(** What the task schema accepts. *)
Lemma addTaskFormSchema_inr (Date_parse : string → option Z) (fd : FormData)
    (leadId : string) (data : TaskData.t) :
  addTaskFormSchema Date_parse fd = inr (leadId, data) →
  ∃ type dueDate priority,
    FormData_get "leadId" fd = Some leadId
    ∧ FormData_get "type" fd = Some type
    ∧ (type, TaskData.type data) ∈ taskTypes
    ∧ FormData_get "dueDate" fd = Some dueDate
    ∧ Date_parse dueDate = Some (TaskData.dueDate data)
    ∧ FormData_get "priority" fd = Some priority
    ∧ (priority, TaskData.priority data) ∈ priorities
    ∧ FormData_get "notes" fd = Some (TaskData.notes data)
    ∧ 3 ≤ String.length (TaskData.notes data)
    ∧ FormData_get "assignedUserId" fd = Some (TaskData.assignedUserId data).
Proof.
  unfold addTaskFormSchema, raw_get, z_string_min, z_date.
  destruct (FormData_get "leadId" fd) as [leadId'|]; [|done].
  destruct (z_enum taskTypes "type" _) as [[ty|] tyIssues] eqn:Ety; [|done].
  apply z_enum_Some in Ety as (type & Hraw & Hty & ->).
  destruct (FormData_get "type" fd) as [type'|]; [|done]. injection Hraw as ->.
  destruct (FormData_get "dueDate" fd) as [dueDate|]; [|done].
  cbn [z_string fst snd].
  destruct (Date_parse dueDate) as [t|] eqn:Edate.
  2:{ cbn [fst snd app]. by destruct (_ ≫= _). }
  destruct (z_enum priorities "priority" _) as [[prio|] prioIssues] eqn:Eprio; [|done].
  apply z_enum_Some in Eprio as (priority & Hraw & Hprio & ->).
  destruct (FormData_get "priority" fd) as [priority'|]; [|done]. injection Hraw as ->.
  destruct (FormData_get "notes" fd) as [notes|]; [|done].
  destruct (FormData_get "assignedUserId" fd) as [assignedUserId|]; [|done].
  cbn [z_string fst snd mbind option_bind app].
  destruct (_ ++ _) eqn:E; [|done].
  intros [= <- <-]. cbn.
  apply app_eq_nil in E as [Hnotes _].
  exists type, dueDate, priority. split_and!; try done.
  case_bool_decide; [done|lia].
Qed.

(** X23: for a task form that passes validation, [addTaskAction] either
    finds the lead, answers "Task created successfully.", appends one Pending
    task to the exported array and to the tasks of the lead, with the lead
    id, notes and assignee of the form and the parsed due date of the form;
    or finds no lead, answers with the error "Lead not found", and leaves the
    exported array alone and the store as a read leaves it. *)
Theorem addTaskAction_outcome (Date_parse : string → option Z) (now : Z) (fd : FormData)
    (tasks : list Task.t) (s : Store) (leadId : string) (data : TaskData.t) :
  addTaskFormSchema Date_parse fd = inr (leadId, data) →
  match (findLead leadId s).1 with
  | Return (Some l) =>
      ∃ task text,
        (addTaskAction Date_parse now fd tasks s).1
        = Return (mkActionState (Some "Task created successfully.") None, tasks ++ [task])
        ∧ (findLead leadId (addTaskAction Date_parse now fd tasks s).2).1
          = Return (Some (set_tasks (Lead.tasks l ++ [task]) l))
        ∧ Task.status task = Pending
        ∧ FormData_get "leadId" fd = Some (Task.leadId task)
        ∧ FormData_get "dueDate" fd = Some text
        ∧ Date_parse text = Some (Task.dueDate task)
        ∧ FormData_get "notes" fd = Some (Task.notes task)
        ∧ FormData_get "assignedUserId" fd = Some (Task.assignedUserId task)
  | _ =>
      addTaskAction Date_parse now fd tasks s
      = (Return (mkActionState None (Some "Lead not found"), tasks), (getLeads s).2)
  end.
Proof.
  intros Hs.
  destruct (addTaskFormSchema_inr Date_parse fd leadId data Hs)
    as (type & dueDate & priority & Hid & _ & _ & Hdue & Hparse & _ & _ & Hnotes & _ & Ha).
  pose proof (getLeads_snd_nonempty s) as Hne.
  rewrite findLead_fst.
  destruct (list_find (λ lead, Lead.id lead = leadId) (leads (getLeads s).2))
    as [[i l]|] eqn:Hf; cbn [fmap option_fmap option_map snd].
  - unfold addTaskAction. rewrite Hs. unfold try_catch, mbind, M_bind, mret, M_ret.
    rewrite (addTask_found now leadId data tasks s i l Hf).
    eexists _, dueDate. split; [reflexivity|]. cbn [fst snd].
    split_and!; try done.
    pose proof Hf as Hf'. apply list_find_Some in Hf' as (_ & Hlid & _).
    rewrite findLead_nonempty by (by apply insert_nonempty). cbn [leads fst].
    by rewrite (list_find_insert_same _ _ i l).
  - unfold addTaskAction. rewrite Hs. unfold try_catch, mbind, M_bind.
    by rewrite (addTask_not_found now _ _ _ s Hf).
Qed.

Lemma addTaskAction_outcome_witness :
  match (findLead "003" fiveLeadStore).1 with
  | Return (Some l) =>
      ∃ task text,
        (addTaskAction sample_Date_parse 9000 taskForm003 [] fiveLeadStore).1
        = Return (mkActionState (Some "Task created successfully.") None, [] ++ [task])
        ∧ (findLead "003"
             (addTaskAction sample_Date_parse 9000 taskForm003 [] fiveLeadStore).2).1
          = Return (Some (set_tasks (Lead.tasks l ++ [task]) l))
        ∧ Task.status task = Pending
        ∧ FormData_get "leadId" taskForm003 = Some (Task.leadId task)
        ∧ FormData_get "dueDate" taskForm003 = Some text
        ∧ sample_Date_parse text = Some (Task.dueDate task)
        ∧ FormData_get "notes" taskForm003 = Some (Task.notes task)
        ∧ FormData_get "assignedUserId" taskForm003 = Some (Task.assignedUserId task)
  | _ =>
      addTaskAction sample_Date_parse 9000 taskForm003 [] fiveLeadStore
      = (Return (mkActionState None (Some "Lead not found"), []), (getLeads fiveLeadStore).2)
  end.
Proof.
  apply (addTaskAction_outcome sample_Date_parse 9000 taskForm003 [] fiveLeadStore "003"
           (TaskData.mk FollowUp 4500 High "Call the student" "user-5")).
  vm_compute. reflexivity.
Defined.

(** ** The add-lead action: the stored source *)

Lemma addLead_fields (now : Z) (lead : NewLead.t) (s : Store) :
  ∃ newLead s',
    addLead now lead s = (Return newLead, s')
    ∧ leads s' = newLead :: leads (getLeads s).2
    ∧ Lead.name newLead = NewLead.name lead
    ∧ Lead.email newLead = NewLead.email lead
    ∧ Lead.source newLead = NewLead.source lead
    ∧ Lead.stage newLead = New.
Proof.
  destruct (getLeads_spec s) as (s1 & Hg & _ & _).
  unfold addLead. run. rewrite Hg. simpl.
  eexists _, _. split; [reflexivity|]. simpl. by split_and!.
Qed.

Lemma refine_source_nil (tag : string) (qualifier : option string) (msg field source : string) :
  refine_source tag qualifier msg field source = [] →
  source = tag → ∃ q, qualifier = Some q ∧ q ≠ "".
Proof.
  unfold refine_source. intros Hr ->. rewrite bool_decide_eq_true_2 in Hr by done.
  destruct qualifier as [q|]; [|done]. simpl in Hr. exists q. split; [done|].
  case_bool_decide; done.
Qed.

(** A form the add-lead schema accepts names the qualifier of its source. *)
Lemma addLeadFormSchema_inr (isEmail : string → bool) (fd : FormData) (data : AddLeadData.t) :
  addLeadFormSchema isEmail fd = inr data →
  (AddLeadData.source data = "Other" →
   ∃ q, AddLeadData.otherSource data = Some q ∧ q ≠ "")
  ∧ (AddLeadData.source data = "Social Media" →
     ∃ q, AddLeadData.socialMediaSource data = Some q ∧ q ≠ "")
  ∧ (AddLeadData.source data = "Referral" →
     ∃ q, AddLeadData.referralSource data = Some q ∧ q ≠ "").
Proof.
  unfold addLeadFormSchema. cbv zeta.
  match goal with |- match ?o with _ => _ end = _ → _ => destruct o as [d|]; [|done] end.
  match goal with |- match ?r with _ => _ end = _ → _ => destruct r eqn:E; [|done] end.
  intros [= ->].
  apply app_eq_nil in E as [_ E].
  apply app_eq_nil in E as [Hother E].
  apply app_eq_nil in E as [Hsocial Hreferral].
  split_and!; by eapply refine_source_nil.
Qed.

(** X24: when the add-lead form passes validation, [addLeadAction] answers
    with the success message that quotes the name and puts one new lead in
    front of the stored leads, in stage New, with the name and e-mail of the
    form.  Its source is the specified text for the source Other, the channel
    or the referrer after "Social Media - " or "Referral - " for these two
    sources, and the plain source otherwise; for the three qualified sources
    the qualifier is present and not empty. *)
Theorem addLeadAction_stores_source (isEmail : string → bool) (now : Z) (fd : FormData)
    (s : Store) (data : AddLeadData.t) :
  addLeadFormSchema isEmail fd = inr data →
  ∃ newLead,
    (addLeadAction isEmail now fd s).1
    = Return (mkAddLeadState
                (Some ("Lead " +:+ dquote +:+ AddLeadData.name data +:+ dquote
                         +:+ " created successfully."))
                None)
    ∧ leads (addLeadAction isEmail now fd s).2 = newLead :: leads (getLeads s).2
    ∧ Lead.name newLead = AddLeadData.name data
    ∧ Lead.email newLead = AddLeadData.email data
    ∧ Lead.stage newLead = New
    ∧ (AddLeadData.source data = "Other" →
       ∃ q, AddLeadData.otherSource data = Some q ∧ q ≠ "" ∧ Lead.source newLead = q)
    ∧ (AddLeadData.source data = "Social Media" →
       ∃ q, AddLeadData.socialMediaSource data = Some q ∧ q ≠ ""
            ∧ Lead.source newLead = "Social Media - " +:+ q)
    ∧ (AddLeadData.source data = "Referral" →
       ∃ q, AddLeadData.referralSource data = Some q ∧ q ≠ ""
            ∧ Lead.source newLead = "Referral - " +:+ q)
    ∧ (AddLeadData.source data ∉ ["Other"; "Social Media"; "Referral"] →
       Lead.source newLead = AddLeadData.source data).
Proof.
  intros Hs.
  destruct (addLeadFormSchema_inr isEmail fd data Hs) as (Hother & Hsocial & Hreferral).
  unfold addLeadAction. rewrite Hs. cbv zeta.
  match goal with
  | |- context [addLead now ?input] =>
      destruct (addLead_fields now input s)
        as (newLead & s' & Ha & Hl & Hname & Hemail & Hsource & Hstage)
  end.
  exists newLead. unfold try_catch, mbind, M_bind, mret, M_ret. rewrite Ha. cbn [fst snd].
  cbn [NewLead.name NewLead.email NewLead.source] in Hname, Hemail, Hsource.
  split_and!; try done.
  - intros E. destruct (Hother E) as (q & Hq & Hne). exists q. split_and!; try done.
    rewrite Hsource, E, Hq. done.
  - intros E. destruct (Hsocial E) as (q & Hq & Hne). exists q. split_and!; try done.
    rewrite Hsource, E, Hq. done.
  - intros E. destruct (Hreferral E) as (q & Hq & Hne). exists q. split_and!; try done.
    rewrite Hsource, E, Hq. done.
  - intros Hnot. rewrite Hsource.
    rewrite !decide_False; [done|..]; intros E; apply Hnot; rewrite E; decide_by_compute.
Qed.

Lemma addLeadAction_stores_source_witness :
  ∃ newLead,
    (addLeadAction hasAtSign 7 completeForm fiveLeadStore).1
    = Return (mkAddLeadState
                (Some ("Lead " +:+ dquote
                         +:+ AddLeadData.name
                               (AddLeadData.mk "Asha Rao" "asha@example.com"
                                  (Some [LeadPhoneNumber.mk "Mobile" "+919876543210"]) "Other"
                                  (Some "Instagram") (Some "Education Fair") (Some "Ravi")
                                  (Some "BCA") (Some "IGNOU") (Some Passed)
                                  (Some "Digital Marketing Pro") (Some "12 MG Road")
                                  (Some "Pune") (Some Female)
                                  (Some "2000-01-01T00:00:00.000Z"))
                         +:+ dquote +:+ " created successfully."))
                None)
    ∧ leads (addLeadAction hasAtSign 7 completeForm fiveLeadStore).2
      = newLead :: leads (getLeads fiveLeadStore).2
    ∧ Lead.name newLead = "Asha Rao"
    ∧ Lead.email newLead = "asha@example.com"
    ∧ Lead.stage newLead = New
    ∧ ("Other" = "Other" →
       ∃ q, Some "Education Fair" = Some q ∧ q ≠ "" ∧ Lead.source newLead = q)
    ∧ ("Other" = "Social Media" →
       ∃ q, Some "Instagram" = Some q ∧ q ≠ ""
            ∧ Lead.source newLead = "Social Media - " +:+ q)
    ∧ ("Other" = "Referral" →
       ∃ q, Some "Ravi" = Some q ∧ q ≠ "" ∧ Lead.source newLead = "Referral - " +:+ q)
    ∧ ("Other" ∉ ["Other"; "Social Media"; "Referral"] → Lead.source newLead = "Other").
Proof.
  apply (addLeadAction_stores_source hasAtSign 7 completeForm fiveLeadStore
           (AddLeadData.mk "Asha Rao" "asha@example.com"
              (Some [LeadPhoneNumber.mk "Mobile" "+919876543210"]) "Other"
              (Some "Instagram") (Some "Education Fair") (Some "Ravi")
              (Some "BCA") (Some "IGNOU") (Some Passed)
              (Some "Digital Marketing Pro") (Some "12 MG Road")
              (Some "Pune") (Some Female)
              (Some "2000-01-01T00:00:00.000Z"))).
  vm_compute. reflexivity.
Defined.

(** ** The Kanban columns *)

Lemma leadsByStage_spec (leads : list Lead.t) (stage : KanbanStage) :
  leadsByStage leads stage = Some (filter (λ lead, Lead.stage lead = stage) leads).
Proof. by destruct stage. Qed.

Lemma filter_stage_partition (leads : list Lead.t) :
  concat ((λ stage, filter (λ lead, Lead.stage lead = stage) leads) <$> KANBAN_STAGES)
  ≡ₚ leads.
Proof.
  induction leads as [|a l IH]; [done|].
  etrans; [|apply Permutation_skip, IH].
  unfold KANBAN_STAGES. rewrite !fmap_cons, !fmap_nil.
  cbn [concat]. rewrite !app_nil_r, !filter_cons.
  destruct (Lead.stage a); simpl; by rewrite <- ?Permutation_middle.
Qed.

(** X25: the board has one column per Kanban stage, in the order of the
    stages; the column of a stage holds the leads of that stage in their
    order; together the columns hold each lead of the board once, in the
    column of its stage. *)
Theorem kanbanColumns_partition (leads : list Lead.t) :
  (kanbanColumns leads).*1 = KANBAN_STAGES
  ∧ (∀ stage column, (stage, column) ∈ kanbanColumns leads →
       column = filter (λ lead, Lead.stage lead = stage) leads)
  ∧ concat (kanbanColumns leads).*2 ≡ₚ leads
  ∧ (∀ lead, lead ∈ leads →
       ∃ column, (Lead.stage lead, column) ∈ kanbanColumns leads ∧ lead ∈ column).
Proof.
  unfold kanbanColumns. split_and!.
  - rewrite <- list_fmap_compose. by rewrite list_fmap_id.
  - intros stage column [st [[= -> ->] _]]%list_elem_of_fmap.
    by rewrite leadsByStage_spec.
  - rewrite <- list_fmap_compose. etrans; [|apply filter_stage_partition].
    apply reflexive_eq. reflexivity.
  - intros lead Hin. exists (filter (λ l, Lead.stage l = Lead.stage lead) leads). split.
    + apply list_elem_of_fmap. exists (Lead.stage lead).
      rewrite leadsByStage_spec. split; [done|]. destruct (Lead.stage lead); decide_by_compute.
    + by apply list_elem_of_filter.
Qed.

(** ** Stability of the sort *)

Section stable.
Context {A : Type} (cmp : A → A → Z) (R : A → A → Prop).
Hypothesis cmp_total : ∀ a b, notAfter cmp a b ∨ notAfter cmp b a.
Hypothesis cmp_trans : ∀ a b c, notAfter cmp a b → notAfter cmp b c → notAfter cmp a c.

Lemma insertBy_stable (x : A) (l : list A) :
  Forall (R x) l →
  StronglySorted (λ a b, notAfter cmp a b ∧ (notAfter cmp b a → R a b)) l →
  StronglySorted (λ a b, notAfter cmp a b ∧ (notAfter cmp b a → R a b)) (insertBy cmp x l).
Proof.
  intros Hx Hs. induction Hs as [|y l Hl IH Hy]; simpl.
  - repeat constructor.
  - apply Forall_cons in Hx as [Hxy Hxl].
    destruct (cmp x y <=? 0)%Z eqn:E.
    + apply Z.leb_le in E. constructor; [by constructor|].
      constructor; [done|].
      rewrite Forall_forall in Hy, Hxl. apply Forall_forall. intros z Hz. split.
      * apply (cmp_trans x y z); [done|]. by apply Hy.
      * intros _. by apply Hxl.
    + apply Z.leb_gt in E. constructor; [by apply IH|].
      rewrite insertBy_Permutation. constructor; [|done]. split.
      * destruct (cmp_total x y) as [H|H]; [unfold notAfter in H; lia|done].
      * unfold notAfter. lia.
Qed.

Lemma sortBy_stable (l : list A) :
  StronglySorted R l →
  StronglySorted (λ a b, notAfter cmp a b ∧ (notAfter cmp b a → R a b)) (sortBy cmp l).
Proof.
  induction 1 as [|x l Hl IH Hx]; simpl; [constructor|].
  apply insertBy_stable; [|done]. by rewrite sortBy_Permutation.
Qed.
End stable.

Lemma StronglySorted_weaken {A} (R R' : A → A → Prop) (l : list A) :
  (∀ a b, R a b → R' a b) → StronglySorted R l → StronglySorted R' l.
Proof.
  intros HR. induction 1 as [|x l Hl IH Hx]; constructor; [done|].
  eapply Forall_impl; [exact Hx|]. intros y. apply HR.
Qed.

(** X26: a column shows its leads, each once.  Unsorted, they are ordered by
    creation time, latest first.  Sorted by priority, no lead stands behind a
    lead that the comparator puts after it, and leads that the comparator
    ties stay ordered by creation time, latest first. *)
Theorem displayedLeads_order (leads : list Lead.t) :
  (∀ isSorted, displayedLeads isSorted leads ≡ₚ leads)
  ∧ StronglySorted (λ a b, (Lead.createdAt b ≤ Lead.createdAt a)%Z)
      (displayedLeads false leads)
  ∧ StronglySorted (λ a b, (comparePriority a b ≤ 0)%Z
                           ∧ ((comparePriority b a ≤ 0)%Z →
                              (Lead.createdAt b ≤ Lead.createdAt a)%Z))
      (displayedLeads true leads).
Proof.
  set (byDate := λ a b : Lead.t, (Lead.createdAt b - Lead.createdAt a)%Z).
  assert (StronglySorted (λ a b, (Lead.createdAt b ≤ Lead.createdAt a)%Z)
            (sortBy byDate leads)) as Hdate.
  { apply (StronglySorted_weaken (notAfter byDate)).
    - intros a b. unfold notAfter, byDate. lia.
    - apply sortBy_StronglySorted.
      + intros a b. unfold notAfter, byDate. lia.
      + intros a b c. unfold notAfter, byDate. lia. }
  unfold displayedLeads. fold byDate. split_and!.
  - intros isSorted.
    destruct isSorted; [unfold sortLeadsByPriority|]; by rewrite !sortBy_Permutation.
  - done.
  - unfold sortLeadsByPriority.
    apply (sortBy_stable comparePriority _ comparePriority_total comparePriority_trans).
    done.
Qed.

(** ** The dashboard widgets *)

Lemma stage_name_inj (a b : KanbanStage) : stage_name a = stage_name b → a = b.
Proof. by destruct a, b. Qed.

Lemma stageCounts_lookup (leads : list Lead.t) (stage : KanbanStage) :
  stageCounts leads !! stage_name stage
  = (if decide (0 < length (filter (λ lead, Lead.stage lead = stage) leads))
     then Some (length (filter (λ lead, Lead.stage lead = stage) leads)) else None).
Proof.
  induction leads as [|a l IH] using rev_ind; [done|].
  unfold stageCounts in *. rewrite foldl_app, filter_app, length_app. simpl.
  rewrite filter_cons, filter_nil.
  destruct (decide (Lead.stage a = stage)) as [<-|Hne].
  - rewrite lookup_insert_eq, IH. simpl.
    destruct (decide (0 < length _)); simpl;
      [rewrite decide_True by lia|rewrite decide_True by lia]; f_equal; lia.
  - rewrite lookup_insert_ne by (by intros ?%stage_name_inj). rewrite IH. simpl.
    rewrite Nat.add_0_r. done.
Qed.

Lemma funnelCount_spec (leads : list Lead.t) (stage : KanbanStage) :
  funnelCount leads stage = length (filter (λ lead, Lead.stage lead = stage) leads).
Proof.
  unfold funnelCount. rewrite stageCounts_lookup. case_decide; simpl; lia.
Qed.

(** X27: the funnel shows for each stage the number of leads in that stage;
    the counts of all stages add up to the number of leads; no count exceeds
    [maxCount], which is at least 1, so no bar is wider than the track and
    the width is never a division by zero; the funnel shows every stage but
    Dropped. *)
Theorem funnel_counts (leads : list Lead.t) :
  (∀ stage, funnelCount leads stage
            = length (filter (λ lead, Lead.stage lead = stage) leads))
  ∧ sum_list (funnelCount leads <$> KANBAN_STAGES) = length leads
  ∧ (∀ stage, funnelCount leads stage ≤ maxCount leads)
  ∧ 1 ≤ maxCount leads
  ∧ (∀ stage, stage ∈ funnelStages ↔ stage ≠ Dropped).
Proof.
  split_and!.
  - apply funnelCount_spec.
  - rewrite <- (Permutation_length (filter_stage_partition leads)).
    unfold KANBAN_STAGES. rewrite !fmap_cons, !fmap_nil. cbn [concat sum_list sum_list_with].
    rewrite !length_app, !funnelCount_spec. simpl. lia.
  - intros stage. unfold maxCount, funnelCount.
    destruct (stageCounts leads !! stage_name stage) as [c|] eqn:E; simpl; [|lia].
    apply max_list_elem_of_le. apply elem_of_app. left.
    apply list_elem_of_fmap. exists (stage_name stage, c). split; [done|].
    by apply elem_of_map_to_list.
  - unfold maxCount. apply max_list_elem_of_le, elem_of_app. right. by left.
  - intros stage. unfold funnelStages. rewrite list_elem_of_filter.
    split; [by intros [? _]|]. intros Hne. split; [done|].
    destruct stage; decide_by_compute.
Qed.

(** ** The distribution dialog *)

(** X28: ticking a counselor who is not selected, or unticking one who is,
    keeps the selection free of duplicates, makes the counselor selected
    exactly when the box was ticked, and leaves every other counselor as it
    was; for the resulting selection the two numbers the dialog announces
    account for all new leads. *)
Theorem handleCounselorSelection_NoDup (counselorId : string) (isChecked : bool)
    (current : list string) :
  NoDup current →
  isChecked = negb (bool_decide (counselorId ∈ current)) →
  NoDup (handleCounselorSelection counselorId isChecked current)
  ∧ (counselorId ∈ handleCounselorSelection counselorId isChecked current
     ↔ isChecked = true)
  ∧ (∀ other, other ≠ counselorId →
       other ∈ handleCounselorSelection counselorId isChecked current ↔ other ∈ current)
  ∧ (∀ newLeads,
       leadsPerCounselor newLeads (handleCounselorSelection counselorId isChecked current)
       * length (handleCounselorSelection counselorId isChecked current)
       + remainder newLeads (handleCounselorSelection counselorId isChecked current)
       = if decide (handleCounselorSelection counselorId isChecked current = [])
         then 0 else length newLeads).
Proof.
  intros Hnd ->.
  assert (∀ (newLeads : list Lead.t) (cs : list string),
            leadsPerCounselor newLeads cs * length cs + remainder newLeads cs
            = if decide (cs = []) then 0 else length newLeads) as Hquota.
  { intros newLeads cs. unfold leadsPerCounselor, remainder.
    destruct cs as [|c cs]; [done|].
    rewrite bool_decide_eq_true_2 by (simpl; lia). rewrite decide_False by done.
    pose proof (Nat.div_mod (length newLeads) (length (c :: cs)) ltac:(done)). lia. }
  unfold handleCounselorSelection.
  case_bool_decide as Hin; simpl.
  - split_and!; [| | |by intros; apply Hquota].
    + by apply NoDup_filter.
    + rewrite list_elem_of_filter. split; [by intros [? _]|done].
    + intros other Hne. rewrite list_elem_of_filter. split; [by intros [_ ?]|done].
  - split_and!; [| | |by intros; apply Hquota].
    + apply NoDup_app. split_and!; [done| |apply NoDup_singleton].
      intros x Hx ->%list_elem_of_singleton. done.
    + split; [done|]. intros _. apply elem_of_app. right. by left.
    + intros other Hne. rewrite elem_of_app, list_elem_of_singleton. split; [|by left].
      by intros [?|?].
Qed.

Lemma handleCounselorSelection_NoDup_witness :
  NoDup (handleCounselorSelection "user-11" true sampleCounselors)
  ∧ ("user-11" ∈ handleCounselorSelection "user-11" true sampleCounselors ↔ true = true)
  ∧ (∀ other, other ≠ "user-11" →
       other ∈ handleCounselorSelection "user-11" true sampleCounselors
       ↔ other ∈ sampleCounselors)
  ∧ (∀ newLeads,
       leadsPerCounselor newLeads (handleCounselorSelection "user-11" true sampleCounselors)
       * length (handleCounselorSelection "user-11" true sampleCounselors)
       + remainder newLeads (handleCounselorSelection "user-11" true sampleCounselors)
       = if decide (handleCounselorSelection "user-11" true sampleCounselors = [])
         then 0 else length newLeads).
Proof.
  apply (handleCounselorSelection_NoDup "user-11" true sampleCounselors).
  - decide_by_compute.
  - reflexivity.
Defined.

(** X29: with no counselor selected, or with no lead in stage New, the
    distribute button only shows the "Cannot Distribute" toast, with the
    counselor wording when no counselor is selected, and the store is
    untouched. *)
Theorem handleDistribute_toasts (JSON_stringify : Json → string)
    (JSON_parse : string → option Json) (leads : list Lead.t)
    (selectedCounselors : list string) (s : Store) :
  selectedCounselors = [] ∨ Forall (λ lead, Lead.stage lead ≠ New) leads →
  handleDistribute JSON_stringify JSON_parse leads selectedCounselors s
  = (Return (Toast "Cannot Distribute"
               (if decide (selectedCounselors = [])
                then "Please select at least one counselor."
                else "No new leads to distribute.")),
     s).
Proof.
  intros Hguard. unfold handleDistribute.
  rewrite bool_decide_eq_true_2.
  - run. do 3 f_equal. destruct selectedCounselors; [done|].
    rewrite bool_decide_eq_false_2 by done. by rewrite decide_False.
  - destruct Hguard as [->|Hnone]; [by left|]. right.
    apply length_zero_iff_nil.
    induction Hnone as [|a l Ha Hl IH]; [done|].
    by rewrite filter_cons_False.
Qed.

Lemma handleDistribute_toasts_witness :
  handleDistribute sample_stringify sample_parse (leads fiveLeadStore) [] fiveLeadStore
  = (Return (Toast "Cannot Distribute"
               (if decide (@nil string = [])
                then "Please select at least one counselor."
                else "No new leads to distribute.")),
     fiveLeadStore).
Proof.
  apply (handleDistribute_toasts sample_stringify sample_parse (leads fiveLeadStore) []
           fiveLeadStore).
  by left.
Defined.

(** X30: the lead surfaced as a missed follow-up is a lead of the
    collection, and the card finds a task to show for it: the first task of
    the lead that is due on the current calendar day. *)
Theorem missedFollowUpTask_found (localDay : Z → Z) (now : Z) (allLeads : list Lead.t)
    (lead : Lead.t) :
  leadToFollowUp localDay now allLeads = Some lead →
  lead ∈ allLeads
  ∧ ∃ i task,
      missedFollowUpTask localDay now lead = Some task
      ∧ Lead.tasks lead !! i = Some task
      ∧ localDay (Task.dueDate task) = localDay now
      ∧ (∀ j earlier, Lead.tasks lead !! j = Some earlier → j < i →
           localDay (Task.dueDate earlier) ≠ localDay now).
Proof.
  unfold leadToFollowUp. intros Hl.
  destruct (list_find _ allLeads) as [[k lead']|] eqn:Hf; simplify_eq/=.
  apply list_find_Some in Hf as (Hk & [Htoday _] & _).
  split; [by eapply list_elem_of_lookup_2|].
  unfold missedFollowUpTask.
  destruct (list_find (λ t, isToday localDay now (Task.dueDate t)) (Lead.tasks lead))
    as [[i task]|] eqn:Ht.
  - apply list_find_Some in Ht as (Hi & Hday & Hbefore).
    exists i, task. split_and!; try done.
  - apply list_find_None in Ht. unfold hasTodaysFollowUp in Htoday.
    apply Exists_exists in Htoday as (t & Hin & _ & _ & Hday).
    rewrite Forall_forall in Ht. destruct (Ht t Hin Hday).
Qed.

Lemma missedFollowUpTask_found_witness :
  set_activities [] (generatedLead 4 (sampleDraw 3))
  ∈ set_activities [] <$> drop 2 (leads fiveLeadStore)
  ∧ ∃ i task,
      missedFollowUpTask utcDay 5000 (set_activities [] (generatedLead 4 (sampleDraw 3)))
      = Some task
      ∧ Lead.tasks (set_activities [] (generatedLead 4 (sampleDraw 3))) !! i = Some task
      ∧ utcDay (Task.dueDate task) = utcDay 5000
      ∧ (∀ j earlier,
           Lead.tasks (set_activities [] (generatedLead 4 (sampleDraw 3))) !! j = Some earlier →
           j < i → utcDay (Task.dueDate earlier) ≠ utcDay 5000).
Proof.
  apply (missedFollowUpTask_found utcDay 5000
           (set_activities [] <$> drop 2 (leads fiveLeadStore))
           (set_activities [] (generatedLead 4 (sampleDraw 3)))).
  vm_compute. reflexivity.
Defined.
